(** * 104 job board dashboard (app.py): fetch pipeline and salary parser

    A shallow embedding of the two core functions of [app.py],
    [fetch_104_jobs] and [parse_salary], and of the two post-processing
    steps of the dashboard that the data model depends on (the county
    prefix [x[:3]] and the skill tokenisation loop).

    Python values are embedded as follows.
    - A [str] is the list of its Unicode code points ([pystr]); slicing,
      [len] and [in] work on code points, as in Python 3.
    - An [int] is a [Z]; a [float] is an IEEE-754 binary64 value of the
      [SpecFloat] specification of the standard library.
    - The document returned by [response.json()] is a [json] tree; a
      [dict] keeps its keys in insertion order (an association list).
    - A raised exception is the [Raise] branch of [result]; the code only
      ever catches [Exception], so the class is kept as a tag. *)

From Stdlib Require Import List Bool Arith ZArith NArith Lia.
From Stdlib Require Import Strings.String Strings.Ascii DecimalString.
From Stdlib Require Import QArith Qpower Qabs.
From Stdlib Require Import Floats.SpecFloat.
Import ListNotations.
Close Scope Q_scope.

(* ================================================================== *)
(** * Strings *)

Module PyStr.

(** A code point. *)
Definition char := N.
Definition pystr := list char.

Definition char_eqb (a b : char) : bool := N.eqb a b.

Fixpoint eqb (s t : pystr) : bool :=
  match s, t with
  | [], [] => true
  | a :: s', b :: t' => char_eqb a b && eqb s' t'
  | _, _ => false
  end.

(** UTF-8 decoding, used only to write the program's string literals
    legibly: [u "..."] is the code point sequence of the literal. *)
Fixpoint utf8_decode (bs : list N) : pystr :=
  match bs with
  | [] => []
  | b :: t =>
      if (b <? 128)%N then b :: utf8_decode t
      else if (b <? 224)%N then
        match t with
        | b1 :: t' => ((b - 192) * 64 + (b1 - 128))%N :: utf8_decode t'
        | _ => []
        end
      else if (b <? 240)%N then
        match t with
        | b1 :: b2 :: t' =>
            ((b - 224) * 4096 + (b1 - 128) * 64 + (b2 - 128))%N
              :: utf8_decode t'
        | _ => []
        end
      else
        match t with
        | b1 :: b2 :: b3 :: t' =>
            ((b - 240) * 262144 + (b1 - 128) * 4096
             + (b2 - 128) * 64 + (b3 - 128))%N :: utf8_decode t'
        | _ => []
        end
  end.

Definition u (s : string) : pystr :=
  utf8_decode (map N_of_ascii (list_ascii_of_string s)).

(** [sub in s]: substring test. *)
Fixpoint startswith (sub s : pystr) : bool :=
  match sub, s with
  | [], _ => true
  | a :: sub', b :: s' => char_eqb a b && startswith sub' s'
  | _ :: _, [] => false
  end.

Fixpoint contains (sub s : pystr) : bool :=
  startswith sub s ||
  match s with
  | [] => false
  | _ :: s' => contains sub s'
  end.

(** [s.replace(old, "")] for a one-character [old]. *)
Definition remove_char (old : char) (s : pystr) : pystr :=
  filter (fun c => negb (char_eqb c old)) s.

(** [s[:n]]. *)
Definition prefix (n : nat) (s : pystr) : pystr := firstn n s.

(** [s.split(sep)] for a one-character separator: [cur] is the token
    being read. *)
Fixpoint split_from (sep : char) (cur s : pystr) : list pystr :=
  match s with
  | [] => [cur]
  | c :: t =>
      if char_eqb c sep then cur :: split_from sep [] t
      else split_from sep (cur ++ [c]) t
  end.

Definition split (sep : char) (s : pystr) : list pystr := split_from sep [] s.

(** [sep.join(items)] on strings. *)
Fixpoint join (sep : pystr) (items : list pystr) : pystr :=
  match items with
  | [] => []
  | [x] => x
  | x :: rest => x ++ sep ++ join sep rest
  end.

Definition COMMA : char := 44%N.

(** The declarative reading of [sub in s]. *)
Definition Contains (sub s : pystr) : Prop :=
  exists pre post, s = pre ++ sub ++ post.

End PyStr.
Import PyStr.

(* ================================================================== *)
(** * Exceptions and results *)

Inductive exn : Type :=
| TypeError | KeyError | AttributeError | ValueError | OverflowError
| ZeroDivisionError
| RequestError   (* requests.get failed, or the body is not JSON *).

Inductive result (A : Type) : Type :=
| Ok (a : A)
| Raise (e : exn).
Arguments Ok {A} a.
Arguments Raise {A} e.

Definition rbind {A B} (r : result A) (k : A -> result B) : result B :=
  match r with
  | Ok a => k a
  | Raise e => Raise e
  end.

Declare Scope result_scope.
Delimit Scope result_scope with result.
Notation "x <- c ;; k" := (rbind c (fun x => k))
  (at level 61, c at next level, right associativity) : result_scope.

Fixpoint rmap {A B} (f : A -> result B) (l : list A) : result (list B) :=
  match l with
  | [] => Ok []
  | x :: t =>
      (y <- f x ;; ys <- rmap f t ;; Ok (y :: ys))%result
  end.

(* ================================================================== *)
(** * Python values *)

(** What [response.json()] can produce, which is also all the values
    the two functions manipulate.  The fields of an object are in the
    order of the document; a [dict] holds a key once, and a lookup reads
    the first field of that key. *)
#[warnings="-register-all"]
Inductive json : Type :=
| JNull
| JBool (b : bool)
| JInt (z : Z)
| JFloat (f : spec_float)
| JStr (s : pystr)
| JArr (items : list json)
| JObj (fields : list (pystr * json)).

Definition prec : Z := 53.
Definition emax : Z := 1024.

(* ================================================================== *)
(** * The salary parser *)

(** Zero digits of the decimal-digit blocks of the Unicode character
    database (general category Nd, Unicode 14): every block is ten
    consecutive code points with values 0 to 9.  This is the table behind
    both [\d] of [re] on a [str] pattern and [int] on a [str]. *)
Definition decimal_zeros : list N :=
  [48; 1632; 1776; 1984; 2406; 2534; 2662; 2790; 2918; 3046; 3174; 3302;
   3430; 3558; 3664; 3792; 3872; 4160; 4240; 6112; 6160; 6470; 6608; 6784;
   6800; 6992; 7088; 7232; 7248; 42528; 43216; 43264; 43472; 43504; 43600;
   44016; 65296; 66720; 68912; 69734; 69872; 69942; 70096; 70384; 70736;
   70864; 71248; 71360; 71472; 71904; 72016; 72784; 73040; 73120; 92768;
   92864; 93008; 120782; 120792; 120802; 120812; 120822; 123200; 123632;
   125264; 130032]%N.

Fixpoint decimal_in (zeros : list N) (c : char) : option Z :=
  match zeros with
  | [] => None
  | z :: rest =>
      if ((z <=? c) && (c <? z + 10))%N then Some (Z.of_N (c - z))
      else decimal_in rest c
  end.

(** [Py_UNICODE_TODECIMAL]. *)
Definition decimal_value (c : char) : option Z := decimal_in decimal_zeros c.

(** [Py_UNICODE_ISDECIMAL], the class [\d]. *)
Definition is_decimal (c : char) : bool :=
  match decimal_value c with Some _ => true | None => false end.

(** [re.findall(r'\d+', s)]: the non-overlapping matches of the greedy
    pattern, scanning left to right; [cur] is the match being extended. *)
Fixpoint findall_from (cur s : pystr) : list pystr :=
  match s with
  | [] => match cur with [] => [] | _ => [cur] end
  | c :: t =>
      if is_decimal c then findall_from (cur ++ [c]) t
      else match cur with
           | [] => findall_from [] t
           | _ => cur :: findall_from [] t
           end
  end.

Definition findall_digits (s : pystr) : list pystr := findall_from [] s.

(** Value of a string of decimal digits read in base ten, most
    significant first; [None] if a character is not a decimal digit. *)
Fixpoint digits_value (acc : Z) (s : pystr) : option Z :=
  match s with
  | [] => Some acc
  | c :: t =>
      match decimal_value c with
      | Some d => digits_value (10 * acc + d) t
      | None => None
      end
  end.

Section Parser.

(** [sys.get_int_max_str_digits()]: the interpreter's bound on the
    number of digits [int] converts from a [str]; 0 switches the check
    off (and stands for the interpreters that have no such check), the
    default of the others is 4300.  The check is only made on strings of
    more than 640 digits. *)
Variable int_max_str_digits : nat.

(** [int(s)] on the matches of [\d+].  (The signs, blanks and
    underscores that [int] also accepts cannot occur in such a match.) *)
Definition py_int (s : pystr) : result Z :=
  if (640 <? List.length s)%nat && (0 <? int_max_str_digits)%nat
     && (int_max_str_digits <? List.length s)%nat
  then Raise ValueError
  else match s with
       | [] => Raise ValueError
       | _ => match digits_value 0 s with
              | Some z => Ok z
              | None => Raise ValueError
              end
       end.

(** [a / b] on two [int]s: the binary64 value nearest to the exact
    quotient, ties to even; [OverflowError] when that is out of range. *)
Definition int_truediv (a b : Z) : result spec_float :=
  match b with
  | Z0 => Raise ZeroDivisionError
  | _ =>
      match a with
      | Z0 => Ok (S754_zero (b <? 0)%Z)
      | _ =>
          let '(q, e, l) :=
            SFdiv_core_binary prec emax (Z.abs a) 0 (Z.abs b) 0 in
          match binary_round_aux prec emax
                  (xorb (a <? 0)%Z (b <? 0)%Z) q e l with
          | S754_infinity _ => Raise OverflowError
          | f => Ok f
          end
      end
  end.

Definition NEGOTIABLE : pystr := Eval vm_compute in u "面議".
Definition HOURLY : pystr := Eval vm_compute in u "時薪".
Definition DAILY : pystr := Eval vm_compute in u "日薪".

Definition parse_salary (salary_str : pystr) : result json :=
  if contains NEGOTIABLE salary_str then Ok JNull
  else if contains HOURLY salary_str || contains DAILY salary_str
  then Ok JNull
  else
    let clean_str := remove_char COMMA salary_str in
    let numbers := findall_digits clean_str in
    match numbers with
    | [n0; n1] =>
        (a <- py_int n0 ;; b <- py_int n1 ;;
         f <- int_truediv (a + b) 2 ;; Ok (JFloat f))%result
    | [n0] => (a <- py_int n0 ;; Ok (JInt a))%result
    | _ => Ok JNull
    end.

End Parser.

(* ================================================================== *)
(** * Operations of Python on the decoded document *)

Module Py.

Fixpoint lookup (k : pystr) (fields : list (pystr * json)) : option json :=
  match fields with
  | [] => None
  | (k', v) :: rest => if PyStr.eqb k' k then Some v else lookup k rest
  end.

(** [bool(v)]. *)
Definition truthy (v : json) : bool :=
  match v with
  | JNull => false
  | JBool b => b
  | JInt z => negb (z =? 0)%Z
  | JFloat (S754_zero _) => false
  | JFloat _ => true
  | JStr s => match s with [] => false | _ => true end
  | JArr l => match l with [] => false | _ => true end
  | JObj f => match f with [] => false | _ => true end
  end.

(** [d.get(k, default)]: only a [dict] has the method. *)
Definition get (d : json) (k : pystr) (default : json) : result json :=
  match d with
  | JObj f => Ok (match lookup k f with Some v => v | None => default end)
  | _ => Raise AttributeError
  end.

(** [k in v] for a [str] [k]: key of a [dict], element of a [list],
    substring of a [str]; the other values are not containers. *)
Definition contains_str (k : pystr) (v : json) : result bool :=
  match v with
  | JObj f => Ok (match lookup k f with Some _ => true | None => false end)
  | JArr l =>
      Ok (existsb (fun x => match x with
                            | JStr s => PyStr.eqb s k
                            | _ => false
                            end) l)
  | JStr s => Ok (contains k s)
  | _ => Raise TypeError
  end.

(** [v[k]] for a [str] [k]. *)
Definition getitem (v : json) (k : pystr) : result json :=
  match v with
  | JObj f => match lookup k f with Some x => Ok x | None => Raise KeyError end
  | _ => Raise TypeError
  end.

(** [len(v)]. *)
Definition len (v : json) : result nat :=
  match v with
  | JObj f => Ok (List.length f)
  | JArr l => Ok (List.length l)
  | JStr s => Ok (List.length s)
  | _ => Raise TypeError
  end.

(** The items a [for] loop over [v] visits. *)
Definition iter (v : json) : result (list json) :=
  match v with
  | JArr l => Ok l
  | JObj f => Ok (map (fun kv => JStr (fst kv)) f)
  | JStr s => Ok (map (fun c => JStr [c]) s)
  | _ => Raise TypeError
  end.

(** [v[:n]].  (On a [dict] the slice is an unhashable or a missing key,
    depending on the interpreter: an exception either way.) *)
Definition slice_to (n : nat) (v : json) : result json :=
  match v with
  | JStr s => Ok (JStr (prefix n s))
  | JArr l => Ok (JArr (firstn n l))
  | _ => Raise TypeError
  end.

(** [v + s] for a [str] [s]. *)
Definition add_str (v : json) (s : pystr) : result json :=
  match v with
  | JStr a => Ok (JStr (a ++ s))
  | _ => Raise TypeError
  end.

(** [sep.join(items)]: every item has to be a [str]. *)
Definition join_strs (sep : pystr) (items : list json) : result pystr :=
  (strs <- rmap (fun x => match x with
                          | JStr s => Ok s
                          | _ => Raise TypeError
                          end) items ;;
   Ok (join sep strs))%result.

(** [str(z)] for an [int]. *)
Definition str_of_int (z : Z) : pystr :=
  u (DecimalString.NilZero.string_of_int (Z.to_int z)).

End Py.

(* ================================================================== *)
(** * The fetcher *)

(** What the function does to the outside: the Streamlit widgets, the
    HTTP request of a page and the pause after it.  The widgets are taken
    not to raise; the length of the pause is left out. *)
Inductive event : Type :=
| UiProgressNew                      (* st.progress(0) *)
| UiStatusNew                        (* st.empty() *)
| UiStatus (page pages : nat)        (* status_text.text(...) in the loop *)
| HttpGet (keyword : pystr) (page : nat)   (* requests.get + .json() *)
| UiProgress (page pages : nat)      (* progress_bar.progress(page / pages) *)
| Sleep                              (* time.sleep(random.uniform(0.5, 1.5)) *)
| UiError (page : nat) (e : exn)     (* st.error(...) *)
| UiStatusDone                       (* status_text.text("爬取完成！") *)
| UiProgressEmpty                    (* progress_bar.empty() *).

(** The mutable state of one call: the local list [job_list] and the
    events so far, oldest first. *)
Record world : Type := World { job_list : list json; log : list event }.

(** State and exceptions: a raised exception keeps the state reached. *)
Definition M (A : Type) : Type := world -> world * result A.

Definition ret {A} (a : A) : M A := fun w => (w, Ok a).

Definition bind {A B} (m : M A) (k : A -> M B) : M B :=
  fun w => match m w with
           | (w', Ok a) => k a w'
           | (w', Raise e) => (w', Raise e)
           end.

Definition lift {A} (r : result A) : M A := fun w => (w, r).

Definition emit (e : event) : M unit :=
  fun w => (World (job_list w) (log w ++ [e]), Ok tt).

(** [job_list.append(x)]. *)
Definition append (x : json) : M unit :=
  fun w => (World (job_list w ++ [x]) (log w), Ok tt).

(** [try: body except Exception as e: handler(e)]. *)
Definition try_except {A} (body : M A) (handler : exn -> M A) : M A :=
  fun w => match body w with
           | (w', Ok a) => (w', Ok a)
           | (w', Raise e) => handler e w'
           end.

Declare Scope fetch_scope.
Delimit Scope fetch_scope with fetch.
Notation "x <- c ;; k" := (bind c (fun x => k))
  (at level 61, c at next level, right associativity) : fetch_scope.
Notation "c ;; k" := (bind c (fun _ => k))
  (at level 61, right associativity) : fetch_scope.

(** [for x in items: body(x)]. *)
Fixpoint for_each {A} (items : list A) (body : A -> M unit) : M unit :=
  match items with
  | [] => ret tt
  | x :: rest => (body x ;; for_each rest body)%fetch
  end.

(** How an iteration of the page loop ends. *)
Inductive control : Type := Next | Break.

Definition K_SPECIALTY : pystr := Eval vm_compute in u "specialty".
Definition K_DESCRIPTION : pystr := Eval vm_compute in u "description".
Definition K_JOBNAME : pystr := Eval vm_compute in u "jobName".
Definition K_CUSTNAME : pystr := Eval vm_compute in u "custName".
Definition K_ADDR : pystr := Eval vm_compute in u "jobAddrNoDesc".
Definition K_SALARY : pystr := Eval vm_compute in u "salaryDesc".
Definition K_EDU : pystr := Eval vm_compute in u "optionEdu".
Definition K_PERIOD : pystr := Eval vm_compute in u "periodDesc".
Definition K_LINK : pystr := Eval vm_compute in u "link".
Definition K_JOB : pystr := Eval vm_compute in u "job".
Definition K_DATA : pystr := Eval vm_compute in u "data".
Definition K_LIST : pystr := Eval vm_compute in u "list".

(** The columns of a listing. *)
Definition COL_TITLE : pystr := Eval vm_compute in u "職缺名稱".
Definition COL_COMPANY : pystr := Eval vm_compute in u "公司名稱".
Definition COL_REGION : pystr := Eval vm_compute in u "地區".
Definition COL_SALARY : pystr := Eval vm_compute in u "薪資原文".
Definition COL_EDU : pystr := Eval vm_compute in u "學歷".
Definition COL_EXPERIENCE : pystr := Eval vm_compute in u "經歷".
Definition COL_SKILLS : pystr := Eval vm_compute in u "擅長工具".
Definition COL_DESCRIPTION : pystr := Eval vm_compute in u "工作內容".
Definition COL_URL : pystr := Eval vm_compute in u "網址".

Definition NO_REQUIREMENT : pystr := Eval vm_compute in u "不拘".
Definition ELLIPSIS : pystr := Eval vm_compute in u "...".
Definition HTTPS : pystr := Eval vm_compute in u "https:".

Section Fetcher.

(** [repr] of the values an f-string field can also meet but whose
    text plays no part here: floats, lists and dicts. *)
Variable repr_other : json -> pystr.

(** [f"{v}"]. *)
Definition format_value (v : json) : pystr :=
  match v with
  | JStr s => s
  | JNull => u "None"
  | JBool true => u "True"
  | JBool false => u "False"
  | JInt z => Py.str_of_int z
  | _ => repr_other v
  end.

(** Lines 60-61. *)
Definition skill_str (job : json) : result pystr :=
  (specialties <- Py.get job K_SPECIALTY (JArr []) ;;
   if Py.truthy specialties then
     items <- Py.iter specialties ;;
     descs <- rmap (fun s => Py.getitem s K_DESCRIPTION) items ;;
     Py.join_strs [COMMA] descs
   else Ok NO_REQUIREMENT)%result.

(** Line 71. *)
Definition description_preview (job : json) : result json :=
  (d <- Py.get job K_DESCRIPTION (JStr []) ;;
   cut <- Py.slice_to 100 d ;;
   Py.add_str cut ELLIPSIS)%result.

(** Line 72. *)
Definition job_url (job : json) : result json :=
  (link <- Py.get job K_LINK JNull ;;
   if Py.truthy link then
     link' <- Py.get job K_LINK JNull ;;
     path <- Py.get link' K_JOB JNull ;;
     Ok (JStr (HTTPS ++ format_value path))
   else Ok (JStr []))%result.

(** Lines 60-73: the listing built from one raw record. *)
Definition job_info (job : json) : result json :=
  (skills <- skill_str job ;;
   title <- Py.get job K_JOBNAME JNull ;;
   company <- Py.get job K_CUSTNAME JNull ;;
   region <- Py.get job K_ADDR JNull ;;
   salary <- Py.get job K_SALARY JNull ;;
   edu <- Py.get job K_EDU JNull ;;
   experience <- Py.get job K_PERIOD JNull ;;
   preview <- description_preview job ;;
   url <- job_url job ;;
   Ok (JObj [ (COL_TITLE, title); (COL_COMPANY, company);
              (COL_REGION, region); (COL_SALARY, salary);
              (COL_EDU, edu); (COL_EXPERIENCE, experience);
              (COL_SKILLS, JStr skills); (COL_DESCRIPTION, preview);
              (COL_URL, url) ]))%result.

(** Line 53: the test that ends the pagination without an error. *)
Definition no_more_results (data : json) : result bool :=
  (has_data <- Py.contains_str K_DATA data ;;
   if negb has_data then Ok true else
   inner <- Py.getitem data K_DATA ;;
   has_list <- Py.contains_str K_LIST inner ;;
   if negb has_list then Ok true else
   inner' <- Py.getitem data K_DATA ;;
   listing <- Py.getitem inner' K_LIST ;;
   n <- Py.len listing ;;
   Ok (n =? 0)%nat)%result.

(** The remote service: what [requests.get(...).json()] gives for a
    keyword and a page number, or the exception it raises.  (A call asks
    for a page at most once, so a function of the page is enough.) *)
Variable net : pystr -> nat -> result json.

(** Lines 58-74: the body of the loop over the records of a page. *)
Definition record_body (job : json) : M unit :=
  (info <- lift (job_info job) ;; append info)%fetch.

(** Lines 50-78: the body of the [try]. *)
Definition fetch_page (keyword : pystr) (page pages : nat) : M control :=
  (emit (HttpGet keyword page) ;;
   data <- lift (net keyword page) ;;
   stop <- lift (no_more_results data) ;;
   if (stop : bool) then ret Break else
   jobs <- lift (inner <- Py.getitem data K_DATA ;;
                 Py.getitem inner K_LIST)%result ;;
   items <- lift (Py.iter jobs) ;;
   for_each items record_body ;;
   emit (UiProgress page pages) ;;
   emit Sleep ;;
   ret Next)%fetch.

(** Lines 34-82: [for page in range(1, pages + 1)] over the pages left. *)
Fixpoint fetch_loop (keyword : pystr) (pages : nat) (todo : list nat)
  : M unit :=
  match todo with
  | [] => ret tt
  | page :: rest =>
      (emit (UiStatus page pages) ;;
       c <- try_except (fetch_page keyword page pages)
              (fun e => emit (UiError page e) ;; ret Break) ;;
       match c with
       | Next => fetch_loop keyword pages rest
       | Break => ret tt
       end)%fetch
  end.

(** Lines 23-86.  The data frame is the list of its rows. *)
Definition fetch_104_jobs (keyword : pystr) (pages : nat) : M (list json) :=
  ((fun w => (World [] (log w), Ok tt)) ;;
   emit UiProgressNew ;;
   emit UiStatusNew ;;
   fetch_loop keyword pages (seq 1 pages) ;;
   emit UiStatusDone ;;
   emit UiProgressEmpty ;;
   (fun w => (w, Ok (job_list w))))%fetch.

End Fetcher.

(* ================================================================== *)
(** * The dashboard steps that read the listings *)

(** Line 133: [lambda x: x[:3]]. *)
Definition county (x : json) : result json := Py.slice_to 3 x.

(** Lines 187-188: the tokens one row adds to [all_skills]. *)
Definition skill_tokens (skills : pystr) : list pystr :=
  if Py.truthy (JStr skills) && negb (PyStr.eqb skills NO_REQUIREMENT)
  then split COMMA skills
  else [].

(** Lines 185-188. *)
Definition all_skills (column : list pystr) : list pystr :=
  flat_map skill_tokens column.

(** Lines 94-109 on any value the salary column can hold: on a [str]
    this is [parse_salary]; on another value the [in] tests run on it as
    on any container, and [.replace] is missing. *)
Definition parse_salary_value (int_max_str_digits : nat) (v : json)
  : result json :=
  match v with
  | JStr s => parse_salary int_max_str_digits s
  | _ =>
      (negotiable <- Py.contains_str NEGOTIABLE v ;;
       if (negotiable : bool) then Ok JNull else
       hourly <- Py.contains_str HOURLY v ;;
       marked <- (if (hourly : bool) then Ok true
                  else Py.contains_str DAILY v) ;;
       if (marked : bool) then Ok JNull else Raise AttributeError)%result
  end.

(** [df[name]] on a frame given by its rows: the values of the column. *)
Definition column (name : pystr) (df : list json) : result (list json) :=
  rmap (fun row => Py.getitem row name) df.

(** [series.apply(f)]: [f] on every value, in order; what [f] raises is
    raised. *)
Definition apply (f : json -> result json) (series : list json)
  : result (list json) :=
  rmap f series.

(** Lines 133-134: the two derived columns, the county and the
    estimate.  (How the frame stores them is left out.) *)
Definition derive_columns (int_max_str_digits : nat) (df : list json)
  : result (list json * list json) :=
  (regions <- column COL_REGION df ;;
   counties <- apply county regions ;;
   salaries <- column COL_SALARY df ;;
   estimates <- apply (parse_salary_value int_max_str_digits) salaries ;;
   Ok (counties, estimates))%result.

(** Lines 131-134 and 203-204: what the page goes on with after the
    fetch. *)
Inductive analysis : Type :=
| NoData                                            (* st.warning(...) *)
| Derived (counties estimates : list json).

Definition analyse (int_max_str_digits : nat) (df : list json)
  : result analysis :=
  match df with
  | [] => Ok NoData
  | _ =>
      (columns <- derive_columns int_max_str_digits df ;;
       Ok (Derived (fst columns) (snd columns)))%result
  end.

(** [Counter(tokens)]: the tokens in the order in which they first
    occur, each with the number of its occurrences. *)
Fixpoint count_up (x : pystr) (counts : list (pystr * nat))
  : list (pystr * nat) :=
  match counts with
  | [] => [(x, 1)]
  | (k, n) :: t =>
      if PyStr.eqb k x then (k, S n) :: t else (k, n) :: count_up x t
  end.

Definition Counter (tokens : list pystr) : list (pystr * nat) :=
  fold_left (fun counts x => count_up x counts) tokens [].

(** [most_common(n)]: the [n] entries of the largest counts, by
    descending count, equal counts in the order of the counter. *)
Fixpoint insert_by_count (x : pystr * nat) (sorted : list (pystr * nat))
  : list (pystr * nat) :=
  match sorted with
  | [] => [x]
  | y :: t =>
      if snd y <=? snd x then x :: y :: t else y :: insert_by_count x t
  end.

Definition sort_by_count (counts : list (pystr * nat))
  : list (pystr * nat) :=
  fold_right insert_by_count [] counts.

Definition most_common (n : nat) (counts : list (pystr * nat))
  : list (pystr * nat) :=
  firstn n (sort_by_count counts).

(** Lines 185-201: what the third tab has to draw. *)
Inductive skill_panel : Type :=
| SkillChart (skill_counts : list (pystr * nat))
| NoSkills.                                          (* st.write(...) *)

Definition skill_counts (column : list pystr) : skill_panel :=
  match all_skills column with
  | [] => NoSkills
  | tokens => SkillChart (most_common 20 (Counter tokens))
  end.

(* ================================================================== *)
(** * The vocabulary of the statements, and the inputs they are tried on *)

(** ** Numbers and digit runs *)

(** The rational a float stands for; infinities and NaN stand for none. *)
Definition float_value (f : spec_float) : option Q :=
  match f with
  | S754_zero _ => Some (0 # 1)%Q
  | S754_finite s m e =>
      Some (inject_Z (cond_Zopp s (Zpos m)) * Qpower (2 # 1) e)%Q
  | _ => None
  end.

(** [f] is a finite float and stands for the rational [q]. *)
Definition float_is (f : spec_float) (q : Q) : Prop :=
  exists q', float_value f = Some q' /\ (q' == q)%Q.

(** [n / 2] is a binary64 number: [n] has at most 53 significant bits
    and is below 2^1025. *)
Definition binary64_half (n : Z) : Prop :=
  exists p k, (0 <= k /\ 0 <= p < 2 ^ 53 /\ n = p * 2 ^ k /\ n < 2 ^ 1025)%Z.

(** A mantissa with nothing shifted out of it. *)
Definition exact_rec (z : Z) : shr_record :=
  {| shr_m := z; shr_r := false; shr_s := false |}.

(** The record after [k] bits of [n] were shifted out: the quotient,
    the last bit shifted out, and whether a lower one was set. *)
Definition shifted (n k : Z) (r : shr_record) : Prop :=
  (0 <= k
   /\ shr_m r = n / 2 ^ k
   /\ shr_r r = (2 ^ k <=? 2 * (n mod 2 ^ k))
   /\ shr_s r = negb (n mod 2 ^ k =? 0) && negb (2 * (n mod 2 ^ k) =? 2 ^ k))%Z.

(** The binary64 numbers: [m * 2^e] with [|m| < 2^53] and
    [-1074 <= e <= 971]. *)
Definition binary64_number (q : Q) : Prop :=
  exists m e : Z,
    (Z.abs m < 2 ^ 53)%Z /\ (-1074 <= e <= 971)%Z
    /\ (q == inject_Z m * Qpower (2 # 1) e)%Q.

(** [q] is a binary64 number and no binary64 number is nearer to [x]. *)
Definition nearest_binary64 (x q : Q) : Prop :=
  binary64_number q
  /\ forall r, binary64_number r -> (Qabs (q - x) <= Qabs (r - x))%Q.

(** Another binary64 number is as near to [x] as [q] is. *)
Definition tie (x q : Q) : Prop :=
  exists r, binary64_number r /\ ~ (r == q)%Q
            /\ (Qabs (r - x) == Qabs (q - x))%Q.

(** The float is normal and its significand of 53 bits is even. *)
Definition even_significand (f : spec_float) : Prop :=
  match f with
  | S754_finite _ m _ => (2 ^ 52 <= Zpos m < 2 ^ 53)%Z /\ Z.even (Zpos m) = true
  | _ => False
  end.

(** The least sum whose half rounds to 2^1024, out of the range. *)
Definition OVERFLOW_SUM : Z := (2 ^ 1025 - 2 ^ 971)%Z.

(** The mantissa [round_nearest_even] makes of [n] with [k] bits
    shifted out. *)
Definition rounded (n k : Z) : Z :=
  round_nearest_even (n / 2 ^ k)
    (loc_of_shr_record
       {| shr_m := n / 2 ^ k;
          shr_r := (2 ^ k <=? 2 * (n mod 2 ^ k))%Z;
          shr_s := negb (n mod 2 ^ k =? 0)%Z
                   && negb (2 * (n mod 2 ^ k) =? 2 ^ k)%Z |}).

(** The characters [\d] matches, and the others. *)
Definition digit (c : char) : Prop := is_decimal c = true.
Definition nondigit (c : char) : Prop := is_decimal c = false.

(** A string is a gap without digits, then either nothing more or a
    non-empty run of digits followed by a rest that does not go on with
    a digit; the runs of the string are that run and those of the rest. *)
Inductive digit_runs : pystr -> list pystr -> Prop :=
| runs_none gap :
    Forall nondigit gap -> digit_runs gap []
| runs_more gap run rest runs :
    Forall nondigit gap ->
    run <> [] -> Forall digit run ->
    match rest with [] => True | c :: _ => nondigit c end ->
    digit_runs rest runs ->
    digit_runs (gap ++ run ++ rest) (run :: runs).

(** A run is short enough for [int] under the digit bound [lim]. *)
Definition within_limit (lim : nat) (run : pystr) : Prop :=
  (List.length run <= 640 \/ lim = 0 \/ List.length run <= lim)%nat.

(** The text holds one of the three markers the parser looks for. *)
Definition has_marker (s : pystr) : Prop :=
  Contains NEGOTIABLE s \/ Contains HOURLY s \/ Contains DAILY s.

(** The estimate for two runs of values [a] and [b]. *)
Definition mean_estimate (a b : Z) : result json :=
  (f <- int_truediv (a + b) 2 ;; Ok (JFloat f))%result.

(** ** Salary texts *)

(** The five salary texts of the specification. *)
Definition SALARY_RANGE : pystr := Eval vm_compute in u "月薪30,000~50,000元".
Definition SALARY_FLOOR : pystr := Eval vm_compute in u "40000元以上".
Definition SALARY_HOURLY : pystr := Eval vm_compute in u "時薪150元".
Definition SALARY_NO_DIGITS : pystr := Eval vm_compute in u "待遇優".

(** 40000.0 *)
Definition FLOAT_40000 : spec_float := S754_finite false 5497558138880000 (-37).

Definition RUN_30000 : pystr := Eval vm_compute in u "30000".
Definition RUN_50000 : pystr := Eval vm_compute in u "50000".

(** "1" followed by 309 zeros, then "~0". *)
Definition RUN_1E309 : pystr := 49%N :: repeat 48%N 309.
Definition SALARY_HUGE : pystr := RUN_1E309 ++ [126%N; 48%N].

Definition SALARY_PLAIN_RANGE : pystr := Eval vm_compute in u "月薪28000~31001元".
Definition RUN_28000 : pystr := Eval vm_compute in u "28000".
Definition RUN_31001 : pystr := Eval vm_compute in u "31001".

(** Two runs of 400 nines each. *)
Definition RUN_NINES : pystr := repeat 57%N 400.
Definition SALARY_NINES : pystr := RUN_NINES ++ [126%N] ++ RUN_NINES.

(** Above 2^53 the quotient is rounded: (2^53 + 1) / 2 comes out as 2^52. *)
Definition SALARY_ODD : pystr := Eval vm_compute in u "9007199254740993~0".
Definition RUN_ODD : pystr := Eval vm_compute in u "9007199254740993".

(** ** Pages *)

(** A call seen from outside: the events it produced and its outcome. *)
Definition run {A} (m : M A) : list event * result A :=
  let (w, r) := m (World [] []) in (log w, r).

(** The pages requested and the errors shown, in order. *)
Definition requests (l : list event) : list nat :=
  flat_map (fun ev => match ev with HttpGet _ p => [p] | _ => [] end) l.

Definition errors (l : list event) : list (nat * exn) :=
  flat_map (fun ev => match ev with UiError p e => [(p, e)] | _ => [] end) l.

(** The document has the expected nesting, [data.list] being the array
    [records]. *)
Definition has_listing (data : json) (records : list json) : Prop :=
  exists f g, data = JObj f /\ Py.lookup K_DATA f = Some (JObj g)
              /\ Py.lookup K_LIST g = Some (JArr records).

(** The value is none of the containers that [in] and [len] work on. *)
Definition scalar (v : json) : Prop :=
  match v with
  | JNull | JBool _ | JInt _ | JFloat _ => True
  | _ => False
  end.

(** [k in v] is false: an object without the key, a list without the
    string, a string without the substring. *)
Definition without_key (k : pystr) (v : json) : Prop :=
  match v with
  | JObj f => Py.lookup k f = None
  | JArr l => ~ In (JStr k) l
  | JStr s => ~ Contains k s
  | _ => False
  end.

(** [k in v] is true but [v] is a list or a string, which [v[k]] cannot
    index. *)
Definition unindexed_key (k : pystr) (v : json) : Prop :=
  match v with
  | JArr l => In (JStr k) l
  | JStr s => Contains k s
  | _ => False
  end.

(** A container of length 0. *)
Definition empty_value (v : json) : Prop :=
  v = JArr [] \/ v = JObj [] \/ v = JStr [].

(** The documents on which the test of line 53 holds: no [data], or a
    [data] without [list], or a [data.list] of length 0. *)
Inductive silent_stop : json -> Prop :=
| stop_no_data data :
    without_key K_DATA data -> silent_stop data
| stop_no_list f inner :
    Py.lookup K_DATA f = Some inner -> without_key K_LIST inner ->
    silent_stop (JObj f)
| stop_empty f g listing :
    Py.lookup K_DATA f = Some (JObj g) ->
    Py.lookup K_LIST g = Some listing -> empty_value listing ->
    silent_stop (JObj f).

(** The documents on which the test of line 53 cannot be made: the
    document, its [data] or its [data.list] is null or another value that
    is no container, or holds the key without being an object. *)
Inductive test_raises : json -> Prop :=
| raises_document data :
    scalar data \/ unindexed_key K_DATA data -> test_raises data
| raises_data f inner :
    Py.lookup K_DATA f = Some inner ->
    scalar inner \/ unindexed_key K_LIST inner ->
    test_raises (JObj f)
| raises_list f g listing :
    Py.lookup K_DATA f = Some (JObj g) ->
    Py.lookup K_LIST g = Some listing -> scalar listing ->
    test_raises (JObj f).

(** The document has a [data.list] with at least one item. *)
Definition has_items (data : json) : Prop :=
  exists f g listing,
    data = JObj f /\ Py.lookup K_DATA f = Some (JObj g)
    /\ Py.lookup K_LIST g = Some listing
    /\ ~ scalar listing /\ ~ empty_value listing.

(** What the loop of line 58 iterates over. *)
Definition page_items (data : json) : result (list json) :=
  (inner <- Py.getitem data K_DATA ;;
   jobs <- Py.getitem inner K_LIST ;;
   Py.iter jobs)%result.

Section PageSpec.

Variable repr_other : json -> pystr.
Variable net : pystr -> nat -> result json.

(** Every record of the list builds its listing. *)
Definition built (records listings : list json) : Prop :=
  Forall2 (fun r l => job_info repr_other r = Ok l) records listings.

(** The page is retrieved, is not empty and all its records build. *)
Definition good_page (resp : result json) (listings : list json) : Prop :=
  exists data records,
    resp = Ok data /\ has_listing data records /\ records <> []
    /\ built records listings.

(** The page raises [e], having added the listings [partial]: in the
    request, in the test of line 53, or at a record of the page. *)
Inductive page_fails (resp : result json) : list json -> exn -> Prop :=
| fails_request e :
    resp = Raise e -> page_fails resp [] e
| fails_shape data e :
    resp = Ok data -> no_more_results data = Raise e ->
    page_fails resp [] e
| fails_record data pre bad post partial e :
    resp = Ok data -> no_more_results data = Ok false ->
    page_items data = Ok (pre ++ bad :: post) ->
    built pre partial -> job_info repr_other bad = Raise e ->
    page_fails resp partial e.

(** The events of a page that is fetched and processed to its end. *)
Definition page_events (keyword : pystr) (pages page : nat) : list event :=
  [UiStatus page pages; HttpGet keyword page; UiProgress page pages; Sleep].

(** The pages before [n] are all good, with listings [listings_of]. *)
Definition good_before (keyword : pystr) (n : nat)
    (listings_of : nat -> list json) : Prop :=
  forall p, 1 <= p < n -> good_page (net keyword p) (listings_of p).

(** The events up to the request of page [n], the earlier pages good. *)
Definition events_until (keyword : pystr) (pages n : nat) : list event :=
  [UiProgressNew; UiStatusNew]
    ++ flat_map (page_events keyword pages) (seq 1 (n - 1))
    ++ [UiStatus n pages; HttpGet keyword n].

End PageSpec.

(** The pages 1 to [k] of the service are all good. *)
Definition good_through (repr_other : json -> pystr)
    (net : pystr -> nat -> result json) (keyword : pystr) (k : nat) : Prop :=
  forall p, 1 <= p <= k ->
    exists listings, good_page repr_other (net keyword p) listings.

(** ** Small services, records and listings *)

(** A [repr] for the values whose text is of no account. *)
Definition no_repr (v : json) : pystr := [].

Definition KEYWORD : pystr := Eval vm_compute in u "Python".

(** A raw record with a name only, and the listing built from it. *)
Definition record_named (name : pystr) : json := JObj [(K_JOBNAME, JStr name)].

Definition listing_named (name : pystr) : json :=
  JObj [ (COL_TITLE, JStr name); (COL_COMPANY, JNull); (COL_REGION, JNull);
         (COL_SALARY, JNull); (COL_EDU, JNull); (COL_EXPERIENCE, JNull);
         (COL_SKILLS, JStr NO_REQUIREMENT); (COL_DESCRIPTION, JStr ELLIPSIS);
         (COL_URL, JStr []) ].

Definition page_of (records : list json) : json :=
  JObj [(K_DATA, JObj [(K_LIST, JArr records)])].

Definition NAME_A : pystr := Eval vm_compute in u "A".
Definition NAME_B : pystr := Eval vm_compute in u "B".
Definition NAME_C : pystr := Eval vm_compute in u "C".

(** A record whose description is present and null. *)
Definition record_null_description : json := JObj [(K_DESCRIPTION, JNull)].

(** Three pages, the request of the second failing. *)
Definition net_request_fails (keyword : pystr) (page : nat) : result json :=
  match page with
  | 1 => Ok (page_of [record_named NAME_A; record_named NAME_B])
  | 2 => Raise RequestError
  | _ => Ok (page_of [record_named NAME_C])
  end.

(** Three pages, the second record of the second one failing. *)
Definition net_record_fails (keyword : pystr) (page : nat) : result json :=
  match page with
  | 1 => Ok (page_of [record_named NAME_A])
  | 2 => Ok (page_of [record_named NAME_B; record_null_description;
                      record_named NAME_C])
  | _ => Ok (page_of [record_named NAME_C])
  end.

(** Three pages, the second one with an empty list. *)
Definition net_second_empty (keyword : pystr) (page : nat) : result json :=
  match page with
  | 1 => Ok (page_of [record_named NAME_A])
  | 2 => Ok (page_of [])
  | _ => Ok (page_of [record_named NAME_C])
  end.

(** Three pages, the second one with a null [data]. *)
Definition net_second_null (keyword : pystr) (page : nat) : result json :=
  match page with
  | 1 => Ok (page_of [record_named NAME_A])
  | 2 => Ok (JObj [(K_DATA, JNull)])
  | _ => Ok (page_of [record_named NAME_C])
  end.

(** The listings per page of a service whose first page only is good. *)
Definition first_page_only (listings : list json) (page : nat) : list json :=
  match page with
  | 1 => listings
  | _ => []
  end.

(** [job.get(k)] on the fields of a record. *)
Definition field (f : list (pystr * json)) (k : pystr) : json :=
  match Py.lookup k f with Some v => v | None => JNull end.

(** The keys of [job_info], in the order of the source. *)
Definition COLUMNS : list pystr :=
  [COL_TITLE; COL_COMPANY; COL_REGION; COL_SALARY; COL_EDU; COL_EXPERIENCE;
   COL_SKILLS; COL_DESCRIPTION; COL_URL].

(** The columns that hold a field of the record as it is, with the key
    of the field. *)
Definition PASSED_THROUGH : list (pystr * pystr) :=
  [(COL_TITLE, K_JOBNAME); (COL_COMPANY, K_CUSTNAME); (COL_REGION, K_ADDR);
   (COL_SALARY, K_SALARY); (COL_EDU, K_EDU); (COL_EXPERIENCE, K_PERIOD)].

Definition NAME_ENGINEER : pystr := Eval vm_compute in u "工程師".

Definition K_APPLY : pystr := Eval vm_compute in u "applyAnalyze".
Definition PATH_APPLY : pystr := Eval vm_compute in u "//www.104.com.tw/apply".
Definition HTTPS_NONE : pystr := Eval vm_compute in u "https:None".

(** A record whose link object is there but has no job path. *)
Definition record_link_without_job : json :=
  JObj [(K_JOBNAME, JStr NAME_ENGINEER);
        (K_LINK, JObj [(K_APPLY, JStr PATH_APPLY)])].

(** A description of 150 characters, and the listing of the record that
    has only it. *)
Definition LONG_DESCRIPTION : pystr := repeat 97%N 150.

Definition listing_described (d : pystr) : json :=
  JObj [ (COL_TITLE, JNull); (COL_COMPANY, JNull); (COL_REGION, JNull);
         (COL_SALARY, JNull); (COL_EDU, JNull); (COL_EXPERIENCE, JNull);
         (COL_SKILLS, JStr NO_REQUIREMENT);
         (COL_DESCRIPTION, JStr (firstn 100 d ++ ELLIPSIS));
         (COL_URL, JStr []) ].

Definition REGION_XINYI : pystr := Eval vm_compute in u "台北市信義區".
Definition COUNTY_TAIPEI : pystr := Eval vm_compute in u "台北市".

(** An item of [specialty]. *)
Definition descriptor (name : pystr) : json := JObj [(K_DESCRIPTION, JStr name)].

Definition SKILL_PYTHON : pystr := Eval vm_compute in u "Python".
Definition SKILL_SQL : pystr := Eval vm_compute in u "SQL".
Definition SKILLS_PYTHON_SQL : pystr := Eval vm_compute in u "Python,SQL".

(** The item of [specialty] is an object whose [description] is the
    text [name], whatever else it holds. *)
Definition describes (item : json) (name : pystr) : Prop :=
  exists g, item = JObj g /\ Py.lookup K_DESCRIPTION g = Some (JStr name).

Definition K_CODE : pystr := Eval vm_compute in u "code".
Definition CODE_PYTHON : pystr := Eval vm_compute in u "12001003007".

(** An item with a code before its description. *)
Definition item_python : json :=
  JObj [(K_CODE, JStr CODE_PYTHON); (K_DESCRIPTION, JStr SKILL_PYTHON)].

(** Three good pages, of two records, one and one, and their listings. *)
Definition net_three_pages (keyword : pystr) (page : nat) : result json :=
  match page with
  | 1 => Ok (page_of [record_named NAME_A; record_named NAME_B])
  | 2 => Ok (page_of [record_named NAME_C])
  | 3 => Ok (page_of [record_named NAME_B])
  | _ => Ok (page_of [])
  end.

Definition listings_three_pages (page : nat) : list json :=
  match page with
  | 1 => [listing_named NAME_A; listing_named NAME_B]
  | 2 => [listing_named NAME_C]
  | 3 => [listing_named NAME_B]
  | _ => []
  end.

(** ** Traces, rows, records and counts *)
(** How a call ends after the pages before [next] were processed to
    their end: the pages are exhausted, or page [next] ends the pagination
    through the test of line 53, or page [next] raises. *)
Inductive run_end (keyword : pystr) (pages next : nat) : list event -> Prop :=
| end_exhausted :
    next = S pages -> run_end keyword pages next []
| end_no_more :
    next <= pages ->
    run_end keyword pages next [UiStatus next pages; HttpGet keyword next]
| end_error e :
    next <= pages ->
    run_end keyword pages next
      [UiStatus next pages; HttpGet keyword next; UiError next e].

(** The pauses and the keywords of the requests, in order. *)
Definition pauses (l : list event) : nat :=
  List.length (filter (fun ev => match ev with Sleep => true | _ => false end) l).

Definition keywords (l : list event) : list pystr :=
  flat_map (fun ev => match ev with HttpGet k _ => [k] | _ => [] end) l.

(** What every row of the result looks like: the nine columns in the
    order of the source, the skills a text, the preview a text of at most
    100 characters followed by "...", the address a text that is empty or
    starts with "https:". *)
Definition listing_shape (row : json) : Prop :=
  exists title company region salary edu experience skills cut url,
    row = JObj [ (COL_TITLE, title); (COL_COMPANY, company);
                 (COL_REGION, region); (COL_SALARY, salary);
                 (COL_EDU, edu); (COL_EXPERIENCE, experience);
                 (COL_SKILLS, JStr skills);
                 (COL_DESCRIPTION, JStr (cut ++ ELLIPSIS));
                 (COL_URL, JStr url) ]
    /\ List.length cut <= 100
    /\ (url = [] \/ exists rest, url = HTTPS ++ rest).

(** The records a listing can be built from.  An item of [specialty]
    has to be an object with a text under [description]; [specialty]
    itself may be missing or falsy, else it has to be a list of such
    items; [description] may be missing, else it has to be a text; [link]
    may be missing or falsy, else it has to be an object. *)
Definition is_descriptor (item : json) : Prop :=
  exists g s, item = JObj g /\ Py.lookup K_DESCRIPTION g = Some (JStr s).

Definition specialty_ok (f : list (pystr * json)) : Prop :=
  match Py.lookup K_SPECIALTY f with
  | None => True
  | Some sp =>
      Py.truthy sp = false
      \/ exists items, sp = JArr items /\ Forall is_descriptor items
  end.

Definition description_ok (f : list (pystr * json)) : Prop :=
  match Py.lookup K_DESCRIPTION f with
  | None => True
  | Some v => exists d, v = JStr d
  end.

Definition link_ok (f : list (pystr * json)) : Prop :=
  match Py.lookup K_LINK f with
  | None => True
  | Some link => Py.truthy link = false \/ exists g, link = JObj g
  end.

Definition record_ok (job : json) : Prop :=
  exists f, job = JObj f /\ specialty_ok f /\ description_ok f /\ link_ok f.


(** A finite float that is not negative. *)
Definition nonneg_finite (f : spec_float) : Prop :=
  match f with
  | S754_zero false | S754_finite false _ _ => True
  | _ => False
  end.

(** What the parser hands back when it returns: [None], an [int] that is
    not negative, or a finite float that is not negative. *)
Definition salary_value (v : json) : Prop :=
  v = JNull
  \/ (exists a, v = JInt a /\ (0 <= a)%Z)
  \/ (exists f, v = JFloat f /\ nonneg_finite f).

(** A range with a minus sign and digits of another script. *)
Definition SALARY_DASHED : pystr := Eval vm_compute in u "-３０,０００-50000元".

(** The record has a text under the key. *)
Definition has_text (k : pystr) (record : json) : Prop :=
  exists f text, record = JObj f /\ Py.lookup k f = Some (JStr text).

(** The record has nothing, or null, under the key. *)
Definition lacks (k : pystr) (record : json) : Prop :=
  exists f, record = JObj f
            /\ (Py.lookup k f = None \/ Py.lookup k f = Some JNull).

(** The record has a salary text whose digit runs have at most 307
    digits. *)
Definition has_plain_salary (record : json) : Prop :=
  exists f text runs,
    record = JObj f /\ Py.lookup K_SALARY f = Some (JStr text)
    /\ digit_runs (remove_char COMMA text) runs
    /\ Forall (fun run => List.length run <= 307) runs.

(** The county of a record with a region text. *)
Definition county_of (record county : json) : Prop :=
  exists f region,
    record = JObj f /\ Py.lookup K_ADDR f = Some (JStr region)
    /\ county = JStr (firstn 3 region).

(** The listings of the records that build one. *)
Definition listings_of (records : list json) : list json :=
  flat_map (fun r => match job_info no_repr r with
                     | Ok l => [l]
                     | Raise _ => []
                     end) records.

(** A record with a region and a salary, and one with a salary only. *)
Definition record_complete : json :=
  JObj [(K_JOBNAME, JStr NAME_A); (K_ADDR, JStr REGION_XINYI);
        (K_SALARY, JStr SALARY_RANGE)].

Definition record_without_region : json :=
  JObj [(K_JOBNAME, JStr NAME_B); (K_SALARY, JStr SALARY_FLOOR)].

Definition pystr_eq_dec : forall s t : pystr, {s = t} + {s <> t} :=
  list_eq_dec N.eq_dec.

(** How many times a token occurs. *)
Definition occurrences (t : pystr) (tokens : list pystr) : nat :=
  count_occ pystr_eq_dec tokens t.

(** The count a counter holds for a token, 0 for none. *)
Fixpoint count_of (t : pystr) (c : list (pystr * nat)) : nat :=
  match c with
  | [] => 0
  | (k, n) :: c' => (if pystr_eq_dec k t then n else 0) + count_of t c'
  end.

(** [a] comes before [b] in the list. *)
Definition before {A} (a b : A) (l : list A) : Prop :=
  exists l1 l2 l3, l = l1 ++ a :: l2 ++ b :: l3.

(** The token [a] occurs in the list before any [b] does. *)
Definition first_seen_before (a b : pystr) (tokens : list pystr) : Prop :=
  exists l1 l2, tokens = l1 ++ a :: l2 /\ ~ In b l1.

(* ================================================================== *)
(** * Binary64 values as rationals *)

(** The division on values computed with CPython: an inexact quotient,
    a negative one, a large one, the largest float and the first
    overflow, two subnormal results, an underflow and a zero divisor. *)
Lemma int_truediv_values :
  int_truediv 1 3 = Ok (S754_finite false 6004799503160661 (-54))
  /\ int_truediv 7 2 = Ok (S754_finite false 7881299347898368 (-51))
  /\ int_truediv (-7) 2 = Ok (S754_finite true 7881299347898368 (-51))
  /\ int_truediv (10 ^ 23) 7 = Ok (S754_finite false 6811959402901786 21)
  /\ int_truediv (2 ^ 1024 - 2 ^ 970 - 1) 1
     = Ok (S754_finite false 9007199254740991 971)
  /\ int_truediv (2 ^ 1024 - 2 ^ 970) 1 = Raise OverflowError
  /\ int_truediv 1 (10 ^ 320) = Ok (S754_finite false 2024 (-1074))
  /\ int_truediv 3 (2 ^ 1075) = Ok (S754_finite false 2 (-1074))
  /\ int_truediv 1 (2 ^ 1075) = Ok (S754_zero false)
  /\ int_truediv 1 0 = Raise ZeroDivisionError.
Proof. repeat split; vm_compute; reflexivity. Qed.

Lemma digits2_pos_size (p : positive) : digits2_pos p = Pos.size p.
Proof. induction p; simpl; congruence. Qed.

Lemma Zdigits2_log2 (p : positive) :
  Zdigits2 (Zpos p) = Z.succ (Z.log2 (Zpos p)).
Proof.
  simpl. rewrite digits2_pos_size.
  destruct p; simpl; rewrite ?Pos2Z.inj_succ; reflexivity.
Qed.

Lemma Zdigits2_shift (p : positive) (k : Z) :
  (0 <= k)%Z -> Zdigits2 (Zpos p * 2 ^ k) = (Zdigits2 (Zpos p) + k)%Z.
Proof.
  intros Hk.
  assert (Hpos : (0 < Zpos p * 2 ^ k)%Z).
  { apply Z.mul_pos_pos; [lia | apply Z.pow_pos_nonneg; lia]. }
  destruct (Zpos p * 2 ^ k)%Z as [|m|m] eqn:E; try lia.
  rewrite !Zdigits2_log2, <- E.
  rewrite Z.log2_mul_pow2 by lia. lia.
Qed.

Lemma Zdigits2_bound (p : positive) :
  (Zpos p < 2 ^ 53)%Z -> (1 <= Zdigits2 (Zpos p) <= 53)%Z.
Proof.
  intros H. rewrite Zdigits2_log2.
  assert (Z.log2 (Zpos p) < 53)%Z by (apply Z.log2_lt_pow2; lia).
  pose proof (Z.log2_nonneg (Zpos p)). lia.
Qed.

(** Below 2^53 the division by two is exact: the quotient is the
    53-bit mantissa [p * 2^(53-d)] at exponent [d - 54], [d] the bit
    length of [p]. *)
Lemma int_truediv_small (p : positive) :
  (Zpos p < 2 ^ 53)%Z ->
  let d := Zdigits2 (Zpos p) in
  int_truediv (Zpos p) 2
  = Ok (S754_finite false (Z.to_pos (Zpos p * 2 ^ (53 - d))) (d - 54)).
Proof.
  intros Hlt d.
  pose proof (Zdigits2_bound p Hlt) as Hd. fold d in Hd.
  unfold int_truediv, SFdiv_core_binary, prec, emax.
  change (Z.abs (Zpos p)) with (Zpos p). change (Z.abs 2) with 2%Z.
  fold d. change (Zdigits2 2) with 2%Z.
  assert (He : Z.min (fexp 53 1024 (d + 0 - (2 + 0))) (0 - 0) = (d - 55)%Z)
    by (unfold fexp, emin; lia).
  rewrite He.
  replace (0 - 0 - (d - 55))%Z with (55 - d)%Z by lia.
  destruct (55 - d)%Z as [|s|s] eqn:Es; try lia.
  rewrite <- Es.
  rewrite Z.shiftl_mul_pow2 by lia.
  set (r := Z.to_pos (Zpos p * 2 ^ (53 - d))).
  assert (Hr : Zpos r = (Zpos p * 2 ^ (53 - d))%Z).
  { unfold r. rewrite Z2Pos.id; [reflexivity|].
    apply Z.mul_pos_pos; [lia | apply Z.pow_pos_nonneg; lia]. }
  assert (Hm : (Zpos p * 2 ^ (55 - d))%Z = (2 * Zpos r~0)%Z).
  { rewrite (Pos2Z.inj_xO r), Hr.
    replace (55 - d)%Z with (2 + (53 - d))%Z by lia.
    rewrite Z.pow_add_r by lia. change (2 ^ 2)%Z with 4%Z. lia. }
  rewrite Hm.
  pose proof (Z_div_mod (2 * Zpos r~0) 2 eq_refl) as Hdiv.
  destruct (Z.div_eucl (2 * Zpos r~0) 2) as [q rm].
  assert (q = Zpos r~0 /\ rm = 0%Z) as [-> ->] by lia.
  change (new_location 2 0) with loc_Exact.
  change (xorb (Zpos p <? 0)%Z (2 <? 0)%Z) with false.
  assert (Hdr : Zdigits2 (Zpos r) = 53%Z).
  { rewrite Hr, Zdigits2_shift by lia. fold d. lia. }
  assert (Hdr0 : Zdigits2 (Zpos r~0) = 54%Z).
  { replace (Zpos r~0) with (Zpos r * 2 ^ 1)%Z
      by (rewrite (Pos2Z.inj_xO r); lia).
    rewrite Zdigits2_shift by lia. lia. }
  unfold binary_round_aux, shr_fexp.
  rewrite Hdr0.
  replace (fexp 53 1024 (54 + (d - 55)) - (d - 55))%Z with 1%Z
    by (unfold fexp, emin; lia).
  cbn [shr_record_of_loc shr iter_pos shr_1 shr_m loc_of_shr_record
       round_nearest_even orb].
  rewrite Hdr.
  replace (fexp 53 1024 (53 + (d - 55 + 1)) - (d - 55 + 1))%Z with 0%Z
    by (unfold fexp, emin; lia).
  cbn [shr_record_of_loc shr shr_m].
  replace (d - 55 + 1 <=? 1024 - 53)%Z with true by (symmetry; apply Z.leb_le; lia).
  replace (d - 55 + 1)%Z with (d - 54)%Z by lia.
  reflexivity.
Qed.

Lemma float_value_small (p : positive) :
  (Zpos p < 2 ^ 53)%Z ->
  exists f, int_truediv (Zpos p) 2 = Ok f /\ float_is f (Zpos p # 2).
Proof.
  intros Hlt.
  pose proof (Zdigits2_bound p Hlt) as Hd.
  set (d := Zdigits2 (Zpos p)) in *.
  eexists. split; [apply (int_truediv_small p Hlt)|].
  fold d. eexists. split; [reflexivity|].
  cbn [cond_Zopp].
  rewrite Z2Pos.id
    by (apply Z.mul_pos_pos; [lia | apply Z.pow_pos_nonneg; lia]).
  rewrite inject_Z_mult, Zpower_Qpower by lia.
  rewrite <- Qmult_assoc, <- Qpower_plus by discriminate.
  replace (53 - d + (d - 54))%Z with (-1)%Z by lia.
  unfold Qeq; simpl. lia.
Qed.

(** Python's [n / 2] is exact for every [n] below 2^53. *)
Lemma int_truediv_2_exact (n : Z) :
  (0 <= n < 2 ^ 53)%Z ->
  exists f, int_truediv n 2 = Ok f /\ float_is f (n # 2).
Proof.
  intros [H0 H1]. destruct n as [|p|p]; try lia.
  - exists (S754_zero false). split; [reflexivity|].
    exists (0 # 1)%Q. split; reflexivity.
  - apply float_value_small; assumption.
Qed.

Section LargeQuotients.

Local Open Scope Z_scope.

Lemma shr_1_even (z : Z) :
  0 < z -> shr_1 (exact_rec (z * 2)) = exact_rec z.
Proof.
  intros Hz. destruct z as [|q|q]; try lia.
  replace (Zpos q * 2) with (Zpos q~0) by lia. reflexivity.
Qed.

(** Shifting out [j] zero bits loses nothing. *)
Lemma shr_zeros (j : positive) :
  forall z, 0 < z ->
  iter_pos shr_1 j (exact_rec (z * 2 ^ Zpos j)) = exact_rec z.
Proof.
  induction j as [j IH | j IH |]; intros z Hz; cbn [iter_pos];
    try assert (Hp : 0 < 2 ^ Zpos j) by (apply Z.pow_pos_nonneg; lia).
  - replace (z * 2 ^ Zpos j~1) with ((z * 2 ^ Zpos j * 2 ^ Zpos j) * 2).
    2:{ replace (Zpos j~1) with (Zpos j + Zpos j + 1) by lia.
        rewrite !Z.pow_add_r by lia. change (2 ^ 1) with 2. ring. }
    rewrite shr_1_even by nia.
    rewrite IH by nia. apply IH. exact Hz.
  - replace (z * 2 ^ Zpos j~0) with (z * 2 ^ Zpos j * 2 ^ Zpos j).
    2:{ replace (Zpos j~0) with (Zpos j + Zpos j) by lia.
        rewrite !Z.pow_add_r by lia. ring. }
    rewrite IH by nia. apply IH. exact Hz.
  - change (2 ^ 1) with 2. apply shr_1_even. exact Hz.
Qed.

Lemma shr_1_floor (r : shr_record) :
  0 <= shr_m r -> shr_m (shr_1 r) = shr_m r / 2.
Proof.
  destruct r as [m rb sb]. cbn [shr_m]. intros Hm.
  destruct m as [|[p|p|]|p]; cbn [shr_1 shr_m]; try lia; try reflexivity.
  - apply Z.div_unique with 1; lia.
  - apply Z.div_unique with 0; lia.
Qed.

(** The mantissa after a shift by [j] is the quotient by [2^j]. *)
Lemma shr_floor (j : positive) :
  forall r, 0 <= shr_m r ->
  shr_m (iter_pos shr_1 j r) = shr_m r / 2 ^ Zpos j.
Proof.
  induction j as [j IH | j IH |]; intros r Hr; cbn [iter_pos];
    try assert (Hp : 0 < 2 ^ Zpos j) by (apply Z.pow_pos_nonneg; lia).
  - assert (H1 : 0 <= shr_m (shr_1 r)).
    { rewrite shr_1_floor by exact Hr. apply Z.div_pos; lia. }
    assert (H2 : 0 <= shr_m (iter_pos shr_1 j (shr_1 r))).
    { rewrite IH by exact H1. apply Z.div_pos; lia. }
    rewrite IH by exact H2. rewrite IH by exact H1.
    rewrite shr_1_floor by exact Hr.
    rewrite !Z.div_div by lia.
    replace (Zpos j~1) with (1 + Zpos j + Zpos j) by lia.
    rewrite !Z.pow_add_r by lia. change (2 ^ 1) with 2.
    rewrite Z.mul_assoc. reflexivity.
  - assert (H2 : 0 <= shr_m (iter_pos shr_1 j r)).
    { rewrite IH by exact Hr. apply Z.div_pos; lia. }
    rewrite IH by exact H2. rewrite IH by exact Hr.
    rewrite !Z.div_div by lia.
    replace (Zpos j~0) with (Zpos j + Zpos j) by lia.
    rewrite !Z.pow_add_r by lia. reflexivity.
  - change (2 ^ 1) with 2. apply shr_1_floor. exact Hr.
Qed.

Lemma Zdigits2_spec (p : positive) :
  2 ^ (Zdigits2 (Zpos p) - 1) <= Zpos p < 2 ^ Zdigits2 (Zpos p).
Proof.
  rewrite Zdigits2_log2.
  replace (Z.succ (Z.log2 (Zpos p)) - 1) with (Z.log2 (Zpos p)) by lia.
  apply Z.log2_spec. lia.
Qed.

Lemma Zdigits2_unique (z d : Z) :
  0 < d -> 2 ^ (d - 1) <= z < 2 ^ d -> Zdigits2 z = d.
Proof.
  intros Hd [Hlo Hhi].
  assert (0 < 2 ^ (d - 1)) by (apply Z.pow_pos_nonneg; lia).
  destruct z as [|p|p]; try lia.
  rewrite Zdigits2_log2.
  rewrite (Z.log2_unique (Zpos p) (d - 1)); try lia.
  replace (Z.succ (d - 1)) with d by lia. lia.
Qed.

Lemma div_core_54 (p : positive) :
  Zdigits2 (Zpos p) = 54 ->
  SFdiv_core_binary 53 1024 (Zpos p) 0 2 0 = (Zpos p, -1, loc_Exact).
Proof.
  intros Hd. unfold SFdiv_core_binary. rewrite Hd.
  change (Zdigits2 2) with 2.
  change (Z.min (fexp 53 1024 (54 + 0 - (2 + 0))) (0 - 0)) with (-1).
  change (0 - 0 - -1) with 1. cbv iota.
  rewrite Z.shiftl_mul_pow2 by lia. change (2 ^ 1) with 2.
  pose proof (Z_div_mod (Zpos p * 2) 2 eq_refl) as Hdiv.
  destruct (Z.div_eucl (Zpos p * 2) 2) as [q r].
  assert (q = Zpos p /\ r = 0) as [-> ->] by lia.
  reflexivity.
Qed.

Lemma div_core_big (p : positive) :
  55 <= Zdigits2 (Zpos p) ->
  SFdiv_core_binary 53 1024 (Zpos p) 0 2 0
  = (Zpos p / 2, 0, new_location 2 (Zpos p mod 2)).
Proof.
  intros Hd. unfold SFdiv_core_binary.
  change (Zdigits2 2) with 2.
  assert (He : Z.min (fexp 53 1024 (Zdigits2 (Zpos p) + 0 - (2 + 0))) (0 - 0) = 0)
    by (unfold fexp, emin; lia).
  rewrite He. change (0 - 0 - 0) with 0. cbv iota.
  unfold Z.div, Z.modulo.
  destruct (Z.div_eucl (Zpos p) 2) as [q r]. reflexivity.
Qed.

Lemma round_exact (m : positive) (e j : Z) :
  Zdigits2 (Zpos m) = 53 -> 1 <= j -> -1074 <= e + j <= 971 ->
  binary_round_aux 53 1024 false (Zpos m * 2 ^ j) e loc_Exact
  = S754_finite false m (e + j).
Proof.
  intros Hd Hj He.
  unfold binary_round_aux, shr_fexp.
  rewrite Zdigits2_shift by lia. rewrite Hd.
  replace (fexp 53 1024 (53 + j + e) - e) with j by (unfold fexp, emin; lia).
  destruct j as [|jp|jp]; try lia.
  cbn [shr_record_of_loc shr].
  change (Build_shr_record (Zpos m * 2 ^ Zpos jp) false false)
    with (exact_rec (Zpos m * 2 ^ Zpos jp)).
  rewrite shr_zeros by lia.
  cbn [exact_rec shr_m loc_of_shr_record round_nearest_even].
  rewrite Hd.
  replace (fexp 53 1024 (53 + (e + Zpos jp)) - (e + Zpos jp)) with 0
    by (unfold fexp, emin; lia).
  cbn [shr_record_of_loc shr shr_m].
  replace (e + Zpos jp <=? 1024 - 53) with true
    by (symmetry; apply Z.leb_le; lia).
  reflexivity.
Qed.

Lemma round_nearest_even_bounds (m : Z) (l : location) :
  m <= round_nearest_even m l <= m + 1.
Proof.
  destruct l as [|[| |]]; cbn [round_nearest_even]; try lia.
  destruct (Z.even m); lia.
Qed.

Lemma round_overflow (q : positive) (l : location) :
  1025 <= Zdigits2 (Zpos q) ->
  binary_round_aux 53 1024 false (Zpos q) 0 l = S754_infinity false.
Proof.
  intros Hd.
  pose proof (Zdigits2_spec q) as Hq.
  set (d := Zdigits2 (Zpos q)) in *.
  unfold binary_round_aux, shr_fexp. fold d.
  replace (fexp 53 1024 (d + 0) - 0) with (d - 53) by (unfold fexp, emin; lia).
  destruct (d - 53) as [|jp|jp] eqn:Ej; try lia.
  cbn [shr].
  set (r1 := iter_pos shr_1 jp (shr_record_of_loc (Zpos q) l)).
  assert (Hm1 : shr_m r1 = Zpos q / 2 ^ Zpos jp).
  { unfold r1. rewrite shr_floor.
    - destruct l as [|[| |]]; reflexivity.
    - destruct l as [|[| |]]; cbn; lia. }
  assert (Hr1 : 2 ^ 52 <= shr_m r1 < 2 ^ 53).
  { rewrite Hm1.
    assert (Hp : 0 < 2 ^ Zpos jp) by (apply Z.pow_pos_nonneg; lia).
    assert (Hs : 2 ^ (d - 1) = 2 ^ 52 * 2 ^ Zpos jp).
    { rewrite <- Z.pow_add_r by lia. f_equal. lia. }
    assert (Hs' : 2 ^ d = 2 ^ 53 * 2 ^ Zpos jp).
    { rewrite <- Z.pow_add_r by lia. f_equal. lia. }
    split.
    - apply Z.div_le_lower_bound; lia.
    - apply Z.div_lt_upper_bound; lia. }
  pose proof (round_nearest_even_bounds (shr_m r1) (loc_of_shr_record r1)) as Hb.
  set (m2 := round_nearest_even (shr_m r1) (loc_of_shr_record r1)) in *.
  assert (Hcase : Zdigits2 m2 = 53 \/ m2 = 2 ^ 53).
  { destruct (Z.eq_dec m2 (2 ^ 53)) as [|Hne]; [right; assumption|].
    left. apply Zdigits2_unique; lia. }
  destruct Hcase as [Hd2 | Hm2].
  - rewrite Hd2.
    replace (fexp 53 1024 (53 + (0 + Zpos jp)) - (0 + Zpos jp)) with 0
      by (unfold fexp, emin; lia).
    cbn [shr shr_record_of_loc shr_m].
    destruct m2 as [|p2|p2]; try lia.
    replace (0 + Zpos jp <=? 1024 - 53) with false
      by (symmetry; apply Z.leb_gt; lia).
    reflexivity.
  - rewrite Hm2. change (Zdigits2 (2 ^ 53)) with 54.
    replace (fexp 53 1024 (54 + (0 + Zpos jp)) - (0 + Zpos jp)) with 1
      by (unfold fexp, emin; lia).
    cbn [shr shr_record_of_loc shr_m iter_pos].
    change (shr_m (shr_1 {| shr_m := 2 ^ 53; shr_r := false; shr_s := false |}))
      with (2 ^ 52).
    change (2 ^ 52) with (Zpos (2 ^ 52)%positive).
    cbv iota.
    replace (0 + Zpos jp + 1 <=? 1024 - 53) with false
      by (symmetry; apply Z.leb_gt; lia).
    reflexivity.
Qed.

(** From 2^1025 on, [n / 2] is out of range. *)
Lemma int_truediv_overflow (n : Z) :
  2 ^ 1025 <= n -> int_truediv n 2 = Raise OverflowError.
Proof.
  intros Hn.
  assert (H0 : 0 < 2 ^ 1025) by (apply Z.pow_pos_nonneg; lia).
  destruct n as [|p|p]; try lia.
  pose proof (Zdigits2_spec p) as Hp.
  set (d := Zdigits2 (Zpos p)) in *.
  assert (Hd : 1026 <= d).
  { destruct (Z_lt_le_dec d 1026) as [Hlt|]; [|assumption].
    assert (2 ^ d <= 2 ^ 1025) by (apply Z.pow_le_mono_r; lia). lia. }
  unfold int_truediv, prec, emax.
  change (Z.abs (Zpos p)) with (Zpos p). change (Z.abs 2) with 2.
  rewrite div_core_big by (fold d; lia).
  change (xorb (Zpos p <? 0) (2 <? 0)) with false.
  assert (Hq : 2 ^ (d - 2) <= Zpos p / 2 < 2 ^ (d - 1)).
  { assert (Hs : 2 ^ (d - 1) = 2 ^ (d - 2) * 2).
    { replace (d - 1) with ((d - 2) + 1) by lia.
      rewrite Z.pow_add_r by lia. reflexivity. }
    assert (Hs' : 2 ^ d = 2 ^ (d - 1) * 2).
    { replace d with ((d - 1) + 1) at 1 by lia.
      rewrite Z.pow_add_r by lia. reflexivity. }
    split.
    - apply Z.div_le_lower_bound; lia.
    - apply Z.div_lt_upper_bound; lia. }
  assert (0 < 2 ^ (d - 2)) by (apply Z.pow_pos_nonneg; lia).
  destruct (Zpos p / 2) as [|q|q] eqn:Eq; try lia.
  rewrite round_overflow; [reflexivity|].
  rewrite (Zdigits2_unique (Zpos q) (d - 1)); [lia | lia |].
  replace (d - 1 - 1) with (d - 2) by lia. exact Hq.
Qed.

Lemma representable_mantissa (n p k : Z) :
  0 <= k -> 0 <= p < 2 ^ 53 -> n = p * 2 ^ k -> 2 ^ 53 <= n ->
  exists m, Zdigits2 (Zpos m) = 53
            /\ n = Zpos m * 2 ^ (Zdigits2 n - 53)
            /\ 54 <= Zdigits2 n.
Proof.
  intros Hk Hp Hn Hbig.
  assert (H53 : 0 < 2 ^ 53) by (apply Z.pow_pos_nonneg; lia).
  destruct n as [|q|q]; try lia.
  pose proof (Zdigits2_spec q) as Hq.
  set (d := Zdigits2 (Zpos q)) in *.
  assert (Hd : 54 <= d).
  { destruct (Z_lt_le_dec d 54) as [Hlt|]; [|assumption].
    assert (2 ^ d <= 2 ^ 53) by (apply Z.pow_le_mono_r; lia). lia. }
  assert (Hkj : d - 53 <= k).
  { destruct (Z_lt_le_dec k (d - 53)) as [Hlt|]; [|assumption].
    assert (2 ^ k <= 2 ^ (d - 54)) by (apply Z.pow_le_mono_r; lia).
    assert (2 ^ (d - 1) = 2 ^ 53 * 2 ^ (d - 54)).
    { rewrite <- Z.pow_add_r by lia. f_equal. lia. }
    assert (0 < 2 ^ k) by (apply Z.pow_pos_nonneg; lia).
    nia. }
  set (m := p * 2 ^ (k - (d - 53))).
  assert (Hm : Zpos q = m * 2 ^ (d - 53)).
  { unfold m. rewrite <- Z.mul_assoc, <- Z.pow_add_r by lia.
    rewrite Hn. f_equal. f_equal. lia. }
  assert (Hj : 0 < 2 ^ (d - 53)) by (apply Z.pow_pos_nonneg; lia).
  assert (Hlo : 2 ^ (d - 1) = 2 ^ 52 * 2 ^ (d - 53)).
  { rewrite <- Z.pow_add_r by lia. f_equal. lia. }
  assert (Hhi : 2 ^ d = 2 ^ 53 * 2 ^ (d - 53)).
  { rewrite <- Z.pow_add_r by lia. f_equal. lia. }
  assert (Hmb : 2 ^ 52 <= m < 2 ^ 53) by nia.
  destruct m as [|m'|m'] eqn:Em; try lia.
  exists m'. split; [apply Zdigits2_unique; lia|]. split; [exact Hm | exact Hd].
Qed.

Lemma int_truediv_large (n : Z) (m : positive) :
  Zdigits2 (Zpos m) = 53 ->
  n = Zpos m * 2 ^ (Zdigits2 n - 53) ->
  54 <= Zdigits2 n <= 1025 ->
  int_truediv n 2 = Ok (S754_finite false m (Zdigits2 n - 54)).
Proof.
  intros Hm Hn Hd.
  set (d := Zdigits2 n) in *.
  assert (Hj : 0 < 2 ^ (d - 53)) by (apply Z.pow_pos_nonneg; lia).
  destruct n as [|q|q]; try lia.
  unfold int_truediv, prec, emax.
  change (Z.abs (Zpos q)) with (Zpos q). change (Z.abs 2) with 2.
  change (xorb (Zpos q <? 0) (2 <? 0)) with false.
  destruct (Z.eq_dec d 54) as [E54 | N54].
  - rewrite div_core_54 by exact E54.
    rewrite Hn, E54. change (54 - 53) with 1.
    rewrite round_exact by (try exact Hm; lia). reflexivity.
  - rewrite div_core_big by (fold d; lia).
    assert (Hhalf : Zpos q = (Zpos m * 2 ^ (d - 54)) * 2).
    { rewrite Hn at 1. rewrite <- Z.mul_assoc. f_equal.
      replace (d - 53) with ((d - 54) + 1) by lia.
      rewrite Z.pow_add_r by lia. reflexivity. }
    assert (Hdiv : Zpos q / 2 = Zpos m * 2 ^ (d - 54)).
    { rewrite Hhalf. apply Z.div_mul. lia. }
    assert (Hmod : Zpos q mod 2 = 0).
    { rewrite Hhalf. apply Z.mod_mul. lia. }
    rewrite Hdiv, Hmod. change (new_location 2 0) with loc_Exact.
    rewrite round_exact by (try exact Hm; lia). reflexivity.
Qed.

Lemma float_is_large (n : Z) (m : positive) (d : Z) :
  54 <= d -> n = Zpos m * 2 ^ (d - 53) ->
  float_is (S754_finite false m (d - 54)) (n # 2).
Proof.
  intros Hd Hn. eexists. split; [reflexivity|].
  cbn [cond_Zopp]. rewrite Hn.
  replace (d - 53) with ((d - 54) + 1) by lia.
  rewrite Z.pow_add_r by lia. change (2 ^ 1) with 2.
  set (x := 2 ^ (d - 54)).
  assert (Hx : (inject_Z x == Qpower (2 # 1) (d - 54))%Q).
  { unfold x. apply Zpower_Qpower. lia. }
  rewrite <- Hx.
  unfold Qeq, Qmult, inject_Z. cbn [Qnum Qden]. lia.
Qed.

(** Python's [n / 2] is exact whenever [n / 2] is a binary64 number. *)
Lemma int_truediv_2_exact_wide (n : Z) :
  0 <= n -> binary64_half n ->
  exists f, int_truediv n 2 = Ok f /\ float_is f (n # 2).
Proof.
  intros H0 [p [k [Hk [Hp [Hn Hlt]]]]].
  destruct (Z_lt_le_dec n (2 ^ 53)) as [Hsmall | Hbig].
  - apply int_truediv_2_exact. lia.
  - destruct (representable_mantissa n p k Hk Hp Hn Hbig) as [m [Hm [Hnm Hd]]].
    assert (Hd2 : Zdigits2 n <= 1025).
    { destruct n as [|q|q]; try lia.
      pose proof (Zdigits2_spec q) as Hq.
      destruct (Z_lt_le_dec 1025 (Zdigits2 (Zpos q))) as [Hgt|]; [|assumption].
      assert (2 ^ 1025 <= 2 ^ (Zdigits2 (Zpos q) - 1))
        by (apply Z.pow_le_mono_r; lia).
      lia. }
    exists (S754_finite false m (Zdigits2 n - 54)).
    split; [apply int_truediv_large; auto; lia|].
    apply float_is_large; assumption.
Qed.

End LargeQuotients.

Section Rounding.

Local Open Scope Z_scope.

Lemma shifted_0 (n : Z) : shifted n 0 (exact_rec n).
Proof.
  unfold shifted, exact_rec. cbn [shr_m shr_r shr_s].
  change (2 ^ 0) with 1. rewrite Z.div_1_r, Z.mod_1_r.
  repeat split; lia.
Qed.

Lemma shifted_1 (n k : Z) (r : shr_record) :
  0 <= n -> shifted n k r -> shifted n (k + 1) (shr_1 r).
Proof.
  intros Hn [Hk [Hm [Hr Hs]]].
  assert (HP : 0 < 2 ^ k) by (apply Z.pow_pos_nonneg; lia).
  assert (Hpow : 2 ^ (k + 1) = 2 ^ k * 2)
    by (rewrite Z.pow_add_r by lia; reflexivity).
  assert (Hdiv : n / 2 ^ (k + 1) = n / 2 ^ k / 2)
    by (rewrite Hpow, Z.div_div by lia; reflexivity).
  assert (Hmod : n mod 2 ^ (k + 1) = n mod 2 ^ k + 2 ^ k * ((n / 2 ^ k) mod 2))
    by (rewrite Hpow; apply Z.rem_mul_r; lia).
  pose proof (Z.mod_pos_bound n (2 ^ k) HP) as Hrem.
  pose proof (Z.div_pos n (2 ^ k) Hn HP) as Hq.
  unfold shifted. rewrite Hdiv, Hmod, Hpow.
  set (P := 2 ^ k) in *. set (rem := n mod P) in *.
  set (m := n / P) in *.
  destruct r as [m0 rb sb]. cbn [shr_m shr_r shr_s] in Hm, Hr, Hs.
  subst m0.
  assert (Hsb : rb || sb = negb (rem =? 0)).
  { rewrite Hr, Hs.
    destruct (Z.leb_spec P (2 * rem)), (Z.eqb_spec rem 0),
      (Z.eqb_spec (2 * rem) P); cbn; try reflexivity; lia. }
  split; [lia|].
  destruct m as [|[p|p|]|p] eqn:Em; try lia;
    cbn [shr_1 shr_m shr_r shr_s]; rewrite Hsb.
  - change (0 / 2) with 0. change (0 mod 2) with 0.
    split; [reflexivity|]. split.
    + symmetry. apply Z.leb_gt. lia.
    + destruct (Z.eqb_spec rem 0), (Z.eqb_spec (rem + P * 0) 0),
        (Z.eqb_spec (2 * (rem + P * 0)) (P * 2)); cbn; try reflexivity; lia.
  - (* odd *)
    assert (Zpos p~1 / 2 = Zpos p /\ Zpos p~1 mod 2 = 1) as [-> ->].
    { split; symmetry;
        [apply Z.div_unique with 1 | apply Z.mod_unique with (Zpos p)]; lia. }
    split; [reflexivity|]. split.
    + symmetry. apply Z.leb_le. lia.
    + destruct (Z.eqb_spec rem 0), (Z.eqb_spec (rem + P * 1) 0),
        (Z.eqb_spec (2 * (rem + P * 1)) (P * 2)); cbn; try reflexivity; lia.
  - assert (Zpos p~0 / 2 = Zpos p /\ Zpos p~0 mod 2 = 0) as [-> ->].
    { split; symmetry;
        [apply Z.div_unique with 0 | apply Z.mod_unique with (Zpos p)]; lia. }
    split; [reflexivity|]. split.
    + symmetry. apply Z.leb_gt. lia.
    + destruct (Z.eqb_spec rem 0), (Z.eqb_spec (rem + P * 0) 0),
        (Z.eqb_spec (2 * (rem + P * 0)) (P * 2)); cbn; try reflexivity; lia.
  - change (1 / 2) with 0. change (1 mod 2) with 1.
    split; [reflexivity|]. split.
    + symmetry. apply Z.leb_le. lia.
    + destruct (Z.eqb_spec rem 0), (Z.eqb_spec (rem + P * 1) 0),
        (Z.eqb_spec (2 * (rem + P * 1)) (P * 2)); cbn; try reflexivity; lia.
Qed.

Lemma shifted_iter (n : Z) (j : positive) :
  0 <= n ->
  forall k r, shifted n k r -> shifted n (k + Zpos j) (iter_pos shr_1 j r).
Proof.
  intros Hn. induction j as [j IH | j IH |]; intros k r H; cbn [iter_pos].
  - replace (k + Zpos j~1) with (k + 1 + Zpos j + Zpos j) by lia.
    apply IH. apply IH. apply shifted_1; assumption.
  - replace (k + Zpos j~0) with (k + Zpos j + Zpos j) by lia.
    apply IH. apply IH. exact H.
  - apply shifted_1; assumption.
Qed.

Lemma shifted_rounds (n k : Z) (r : shr_record) :
  shifted n k r ->
  round_nearest_even (shr_m r) (loc_of_shr_record r) = rounded n k.
Proof.
  intros [_ [Hm [Hr Hs]]]. destruct r as [m rb sb].
  cbn [shr_m shr_r shr_s] in *. subst. reflexivity.
Qed.

(** What the rounding does: down below the half, up above it, to the
    even neighbour at the half. *)
Lemma rounded_cases (n k : Z) :
  0 <= n -> 1 <= k ->
  (2 * (n mod 2 ^ k) < 2 ^ k /\ rounded n k = n / 2 ^ k)
  \/ (2 ^ k < 2 * (n mod 2 ^ k) /\ rounded n k = n / 2 ^ k + 1)
  \/ (2 * (n mod 2 ^ k) = 2 ^ k /\ Z.even (rounded n k) = true
      /\ n / 2 ^ k <= rounded n k <= n / 2 ^ k + 1).
Proof.
  intros Hn Hk. unfold rounded.
  assert (HP : 0 < 2 ^ k) by (apply Z.pow_pos_nonneg; lia).
  pose proof (Z.mod_pos_bound n (2 ^ k) HP) as Hrem.
  set (P := 2 ^ k) in *. set (rem := n mod P) in *. set (m := n / P).
  destruct (Z.leb_spec P (2 * rem)) as [Hge|Hlt];
    destruct (Z.eqb_spec rem 0) as [H0|H0];
    destruct (Z.eqb_spec (2 * rem) P) as [Hh|Hh];
    cbn [negb andb loc_of_shr_record round_nearest_even]; try lia.
  right. right. split; [exact Hh|].
  destruct (Z.even m) eqn:Ev.
  - split; [exact Ev | lia].
  - split; [|lia]. rewrite Z.even_add, Ev. reflexivity.
Qed.

(** No multiple of [2^k] is nearer to [n] than the rounded one, and
    another one is as near only at the half. *)
Lemma rounded_nearest (n k c : Z) :
  0 <= n -> 1 <= k ->
  Z.abs (rounded n k * 2 ^ k - n) <= Z.abs (c * 2 ^ k - n)
  /\ 2 * Z.abs (rounded n k * 2 ^ k - n) <= 2 ^ k
  /\ (c <> rounded n k ->
      Z.abs (c * 2 ^ k - n) = Z.abs (rounded n k * 2 ^ k - n) ->
      2 * (n mod 2 ^ k) = 2 ^ k).
Proof.
  intros Hn Hk.
  assert (HP : 0 < 2 ^ k) by (apply Z.pow_pos_nonneg; lia).
  pose proof (Z.mod_pos_bound n (2 ^ k) HP) as Hrem.
  pose proof (Z.div_mod n (2 ^ k) ltac:(lia)) as Hdm.
  pose proof (rounded_cases n k Hn Hk) as Hc.
  set (P := 2 ^ k) in *. set (rem := n mod P) in *. set (m := n / P) in *.
  set (R := rounded n k) in *.
  assert (Hcm : c <= m \/ c = m + 1 \/ m + 2 <= c) by lia.
  destruct Hc as [[Hlt ->] | [[Hgt ->] | [Hh [_ HR]]]];
    destruct Hcm as [Hcm | [Hcm | Hcm]]; try subst c; nia.
Qed.

End Rounding.

Section RoundedQuotients.

Local Open Scope Z_scope.

(** The second half of [binary_round_aux], once the first shift has
    left a mantissa [R] of 53 bits, or 2^53 after a carry. *)
Lemma round_finish (q e : Z) (l : location) (j : positive) (R : Z) :
  fexp 53 1024 (Zdigits2 q + e) - e = Zpos j ->
  round_nearest_even
    (shr_m (iter_pos shr_1 j (shr_record_of_loc q l)))
    (loc_of_shr_record (iter_pos shr_1 j (shr_record_of_loc q l))) = R ->
  2 ^ 52 <= R <= 2 ^ 53 -> -1074 <= e + Zpos j ->
  binary_round_aux 53 1024 false q e l
  = if R =? 2 ^ 53
    then if e + Zpos j + 1 <=? 971
         then S754_finite false (2 ^ 52)%positive (e + Zpos j + 1)
         else S754_infinity false
    else if e + Zpos j <=? 971
         then S754_finite false (Z.to_pos R) (e + Zpos j)
         else S754_infinity false.
Proof.
  intros Hshift HR Hb He.
  unfold binary_round_aux, shr_fexp. rewrite Hshift. cbn [shr].
  rewrite HR.
  destruct (Z.eqb_spec R (2 ^ 53)) as [-> | Hne].
  - change (Zdigits2 (2 ^ 53)) with 54.
    replace (fexp 53 1024 (54 + (e + Zpos j)) - (e + Zpos j)) with 1
      by (unfold fexp, emin; lia).
    cbn [shr shr_record_of_loc shr_m iter_pos].
    change (shr_m (shr_1 {| shr_m := 2 ^ 53; shr_r := false; shr_s := false |}))
      with (2 ^ 52).
    change (2 ^ 52) with (Zpos (2 ^ 52)%positive).
    cbv iota. change (1024 - 53) with 971. reflexivity.
  - assert (Hd : Zdigits2 R = 53) by (apply Zdigits2_unique; lia).
    rewrite Hd.
    replace (fexp 53 1024 (53 + (e + Zpos j)) - (e + Zpos j)) with 0
      by (unfold fexp, emin; lia).
    cbn [shr shr_record_of_loc shr_m].
    destruct R as [|p|p]; try lia.
    change (1024 - 53) with 971. reflexivity.
Qed.

Lemma record_of_half (p : positive) :
  shr_record_of_loc (Zpos p / 2) (new_location 2 (Zpos p mod 2))
  = shr_1 (exact_rec (Zpos p)).
Proof.
  destruct p as [p|p|].
  - assert (Zpos p~1 / 2 = Zpos p /\ Zpos p~1 mod 2 = 1) as [-> ->].
    { split; symmetry;
        [apply Z.div_unique with 1 | apply Z.mod_unique with (Zpos p)]; lia. }
    reflexivity.
  - assert (Zpos p~0 / 2 = Zpos p /\ Zpos p~0 mod 2 = 0) as [-> ->].
    { split; symmetry;
        [apply Z.div_unique with 0 | apply Z.mod_unique with (Zpos p)]; lia. }
    reflexivity.
  - reflexivity.
Qed.

Lemma rounded_range (n : Z) :
  2 ^ 53 <= n ->
  1 <= Zdigits2 n - 53
  /\ 2 ^ 52 <= n / 2 ^ (Zdigits2 n - 53) < 2 ^ 53
  /\ 2 ^ 52 <= rounded n (Zdigits2 n - 53) <= 2 ^ 53.
Proof.
  intros Hn.
  destruct n as [|p|p]; try lia.
  pose proof (Zdigits2_spec p) as Hp.
  set (d := Zdigits2 (Zpos p)) in *.
  assert (Hd : 54 <= d).
  { destruct (Z_lt_le_dec d 54) as [Hlt|]; [|assumption].
    assert (2 ^ d <= 2 ^ 53) by (apply Z.pow_le_mono_r; lia). lia. }
  assert (HP : 0 < 2 ^ (d - 53)) by (apply Z.pow_pos_nonneg; lia).
  assert (Hs : 2 ^ (d - 1) = 2 ^ 52 * 2 ^ (d - 53)).
  { rewrite <- Z.pow_add_r by lia. f_equal. lia. }
  assert (Hs' : 2 ^ d = 2 ^ 53 * 2 ^ (d - 53)).
  { rewrite <- Z.pow_add_r by lia. f_equal. lia. }
  assert (Hm : 2 ^ 52 <= Zpos p / 2 ^ (d - 53) < 2 ^ 53).
  { split.
    - apply Z.div_le_lower_bound; lia.
    - apply Z.div_lt_upper_bound; lia. }
  split; [lia|]. split; [exact Hm|].
  destruct (rounded_cases (Zpos p) (d - 53)) as [[_ ->] | [[_ ->] | [_ [_ H]]]];
    lia.
Qed.

(** Python's [n / 2] from 2^53 on: the mantissa is [n] rounded to 53
    bits, to the nearest and to the even one at the half; a carry to 2^53
    moves to the next exponent; beyond the largest exponent the division
    raises. *)
Lemma int_truediv_rounds (n : Z) :
  2 ^ 53 <= n ->
  int_truediv n 2
  = if rounded n (Zdigits2 n - 53) =? 2 ^ 53
    then if Zdigits2 n - 53 <=? 971
         then Ok (S754_finite false (2 ^ 52)%positive (Zdigits2 n - 53))
         else Raise OverflowError
    else if Zdigits2 n - 54 <=? 971
         then Ok (S754_finite false (Z.to_pos (rounded n (Zdigits2 n - 53)))
                    (Zdigits2 n - 54))
         else Raise OverflowError.
Proof.
  intros Hn.
  destruct (rounded_range n Hn) as [Hk [Hm HR]].
  assert (H53 : 0 < 2 ^ 53) by (apply Z.pow_pos_nonneg; lia).
  destruct n as [|p|p]; try lia.
  set (d := Zdigits2 (Zpos p)) in *.
  unfold int_truediv, prec, emax.
  change (Z.abs (Zpos p)) with (Zpos p). change (Z.abs 2) with 2.
  change (xorb (Zpos p <? 0) (2 <? 0)) with false.
  destruct (Z.eq_dec d 54) as [E54 | N54].
  - rewrite div_core_54 by exact E54.
    rewrite (round_finish (Zpos p) (-1) loc_Exact 1 (rounded (Zpos p) (d - 53))).
    + rewrite E54. change (54 - 53) with 1. change (-1 + 1 + 1) with 1.
      change (-1 + 1) with 0. change (54 - 54) with 0.
      destruct (rounded (Zpos p) 1 =? 2 ^ 53); reflexivity.
    + fold d. rewrite E54. reflexivity.
    + apply shifted_rounds.
      replace (d - 53) with (0 + 1) by lia.
      apply (shifted_iter (Zpos p) 1 ltac:(lia) 0
               (shr_record_of_loc (Zpos p) loc_Exact)).
      apply shifted_0.
    + exact HR.
    + lia.
  - rewrite div_core_big by (fold d; lia).
    assert (Hq : 2 ^ (d - 2) <= Zpos p / 2 < 2 ^ (d - 1)).
    { pose proof (Zdigits2_spec p) as Hp. fold d in Hp.
      assert (Hs : 2 ^ (d - 1) = 2 ^ (d - 2) * 2).
      { replace (d - 1) with ((d - 2) + 1) by lia.
        rewrite Z.pow_add_r by lia. reflexivity. }
      assert (Hs' : 2 ^ d = 2 ^ (d - 1) * 2).
      { replace d with ((d - 1) + 1) at 1 by lia.
        rewrite Z.pow_add_r by lia. reflexivity. }
      split.
      - apply Z.div_le_lower_bound; lia.
      - apply Z.div_lt_upper_bound; lia. }
    assert (Hdq : Zdigits2 (Zpos p / 2) = d - 1).
    { apply Zdigits2_unique; [lia|].
      replace (d - 1 - 1) with (d - 2) by lia. exact Hq. }
    destruct (d - 54) as [|j|j] eqn:Ej; try lia.
    rewrite (round_finish (Zpos p / 2) 0 _ j (rounded (Zpos p) (d - 53))).
    + replace (d - 53) with (Zpos j + 1) by lia.
      replace (0 + Zpos j + 1) with (Zpos j + 1) by lia.
      replace (0 + Zpos j) with (Zpos j) by lia.
      destruct (rounded (Zpos p) (Zpos j + 1) =? 2 ^ 53);
        [destruct (Zpos j + 1 <=? 971) | destruct (Zpos j <=? 971)];
        reflexivity.
    + rewrite Hdq. unfold fexp, emin. lia.
    + rewrite record_of_half. apply shifted_rounds.
      replace (d - 53) with (0 + 1 + Zpos j) by lia.
      apply shifted_iter; [lia|].
      apply shifted_1; [lia | apply shifted_0].
    + exact HR.
    + lia.
Qed.

(** The quotient overflows from [OVERFLOW_SUM] on, and not before. *)
Lemma int_truediv_finite (n : Z) :
  2 ^ 53 <= n < OVERFLOW_SUM ->
  exists (m : positive) (e : Z),
    int_truediv n 2 = Ok (S754_finite false m e)
    /\ 2 ^ 52 <= Zpos m < 2 ^ 53 /\ 0 <= e <= 971
    /\ Zpos m * 2 ^ (e + 1) = rounded n (Zdigits2 n - 53)
                               * 2 ^ (Zdigits2 n - 53)
    /\ (Z.even (rounded n (Zdigits2 n - 53)) = true ->
        Z.even (Zpos m) = true).
Proof.
  intros [Hn Hmax]. unfold OVERFLOW_SUM in Hmax.
  destruct (rounded_range n Hn) as [Hk [Hm HR]].
  rewrite (int_truediv_rounds n Hn).
  set (k := Zdigits2 n - 53) in *.
  replace (Zdigits2 n - 54) with (k - 1) by (unfold k; lia).
  assert (HP : 0 < 2 ^ k) by (apply Z.pow_pos_nonneg; lia).
  pose proof (Z.mod_pos_bound n (2 ^ k) HP) as Hrem.
  pose proof (Z.div_mod n (2 ^ k) ltac:(lia)) as Hdm.
  assert (Hk972 : k <= 972).
  { destruct (Z_lt_le_dec 972 k) as [Hgt|]; [|lia].
    assert (2 ^ 973 <= 2 ^ k) by (apply Z.pow_le_mono_r; lia).
    assert (2 ^ 1025 = 2 ^ 52 * 2 ^ 973) by reflexivity.
    assert (0 < 2 ^ 971) by reflexivity.
    nia. }
  assert (Hcarry : rounded n k = 2 ^ 53 -> k <= 971).
  { intros HR53.
    destruct (Z.eq_dec k 972) as [Ek|]; [|lia]. exfalso.
    rewrite Ek in *.
    assert (2 ^ 1025 - 2 ^ 971 = (2 ^ 53 - 1) * 2 ^ 972 + 2 ^ 971)
      by reflexivity.
    assert (2 ^ 972 = 2 * 2 ^ 971) by reflexivity.
    destruct (rounded_cases n 972) as [[Ha Hb] | [[Ha Hb] | [Ha [_ Hb]]]];
      lia. }
  destruct (Z.eqb_spec (rounded n k) (2 ^ 53)) as [HR53 | Hne].
  - replace (k <=? 971) with true by (symmetry; apply Z.leb_le; auto).
    exists (2 ^ 52)%positive, k. split; [reflexivity|].
    split; [split; [reflexivity | reflexivity]|]. split; [lia|].
    split.
    + rewrite HR53, Z.pow_add_r by lia.
      change (Zpos (2 ^ 52)) with (2 ^ 52). change (2 ^ 53) with (2 ^ 52 * 2).
      change (2 ^ 1) with 2. ring.
    + intros _. reflexivity.
  - replace (k - 1 <=? 971) with true by (symmetry; apply Z.leb_le; lia).
    exists (Z.to_pos (rounded n k)), (k - 1). split; [reflexivity|].
    rewrite Z2Pos.id by lia.
    split; [lia|]. split; [lia|].
    replace (k - 1 + 1) with k by lia. split; [reflexivity | auto].
Qed.

Lemma int_truediv_overflows (n : Z) :
  OVERFLOW_SUM <= n -> int_truediv n 2 = Raise OverflowError.
Proof.
  intros Hmin.
  destruct (Z_lt_le_dec n (2 ^ 1025)) as [Hlt | Hge];
    [|apply int_truediv_overflow; exact Hge].
  unfold OVERFLOW_SUM in Hmin.
  assert (Hn : 2 ^ 53 <= n).
  { assert (2 ^ 53 <= 2 ^ 1025 - 2 ^ 971) by (vm_compute; discriminate). lia. }
  rewrite (int_truediv_rounds n Hn).
  assert (Hd : Zdigits2 n = 1025).
  { apply Zdigits2_unique; [lia|]. change (1025 - 1) with 1024.
    assert (2 ^ 1024 <= 2 ^ 1025 - 2 ^ 971) by (vm_compute; discriminate).
    lia. }
  rewrite Hd. change (1025 - 53) with 972. change (1025 - 54) with 971.
  assert (HR : rounded n 972 = 2 ^ 53).
  { pose proof (Z.mod_pos_bound n (2 ^ 972) eq_refl) as Hrem.
    pose proof (Z.div_mod n (2 ^ 972) ltac:(discriminate)) as Hdm.
    assert (2 ^ 1025 - 2 ^ 971 = (2 ^ 53 - 1) * 2 ^ 972 + 2 ^ 971)
      by reflexivity.
    assert (2 ^ 1025 = 2 ^ 53 * 2 ^ 972) by reflexivity.
    assert (2 ^ 972 = 2 * 2 ^ 971) by reflexivity.
    assert (0 < 2 ^ 971) by reflexivity.
    assert (Hm : n / 2 ^ 972 = 2 ^ 53 - 1).
    { symmetry. apply Z.div_unique with (n - (2 ^ 53 - 1) * 2 ^ 972); lia. }
    destruct (rounded_cases n 972) as [[Ha Hb] | [[Ha Hb] | [Ha [Hb Hc]]]];
      try lia.
    rewrite Hm in Hc.
    assert (rounded n 972 = 2 ^ 53 - 1 \/ rounded n 972 = 2 ^ 53) as [E|E]
      by lia; [|exact E].
    rewrite E in Hb. discriminate. }
  rewrite HR. reflexivity.
Qed.

End RoundedQuotients.

Section NearestScaled.

Local Open Scope Z_scope.

(** In units of 2^-1075: no binary64 number [m' * 2^e'] is nearer to
    [n / 2] than [n] rounded to 53 bits, and one that is as near is found
    only at the half. *)
Lemma nearest_scaled (n k m' K : Z) :
  0 <= n -> 1 <= k -> 2 ^ 52 <= n / 2 ^ k ->
  Z.abs m' < 2 ^ 53 -> 1 <= K ->
  2 ^ 1074 * Z.abs (rounded n k * 2 ^ k - n)
  <= Z.abs (m' * 2 ^ K - n * 2 ^ 1074)
  /\ (m' * 2 ^ K <> rounded n k * 2 ^ k * 2 ^ 1074 ->
      Z.abs (m' * 2 ^ K - n * 2 ^ 1074)
      = 2 ^ 1074 * Z.abs (rounded n k * 2 ^ k - n) ->
      2 * (n mod 2 ^ k) = 2 ^ k).
Proof.
  intros Hn Hk Hm Hm' HK.
  assert (HP : 0 < 2 ^ k) by (apply Z.pow_pos_nonneg; lia).
  pose proof (Z.mod_pos_bound n (2 ^ k) HP) as Hrem.
  pose proof (Z.div_mod n (2 ^ k) ltac:(lia)) as Hdm.
  assert (HS : 2 ^ 1074 = 2 * 2 ^ 1073) by reflexivity.
  assert (HS' : 0 < 2 ^ 1073) by reflexivity.
  destruct (Z_le_gt_dec (k + 1074) K) as [Hbig | Hsmall].
  - (* a multiple of 2^k, in these units *)
    set (c := m' * 2 ^ (K - (k + 1074))).
    assert (HB : m' * 2 ^ K = c * 2 ^ k * 2 ^ 1074).
    { unfold c. rewrite <- !Z.mul_assoc, <- !Z.pow_add_r by lia.
      f_equal. f_equal. lia. }
    destruct (rounded_nearest n k c Hn Hk) as [Hle [_ Htie]].
    rewrite HB.
    replace (c * 2 ^ k * 2 ^ 1074 - n * 2 ^ 1074)
      with (2 ^ 1074 * (c * 2 ^ k - n)) by ring.
    rewrite Z.abs_mul, (Z.abs_eq (2 ^ 1074)) by lia.
    split; [apply Z.mul_le_mono_nonneg_l; lia|].
    intros Hne Heq. apply Htie.
    + intros ->. apply Hne. reflexivity.
    + apply (Z.mul_reg_l _ _ (2 ^ 1074)); [lia | exact Heq].
  - (* a number below the binade of n / 2 *)
    assert (HK' : 2 ^ K <= 2 ^ k * 2 ^ 1073).
    { rewrite <- Z.pow_add_r by lia. apply Z.pow_le_mono_r; lia. }
    assert (HK0 : 0 < 2 ^ K) by (apply Z.pow_pos_nonneg; lia).
    destruct (rounded_nearest n k 0 Hn Hk) as [_ [Hhalf _]].
    destruct (rounded_cases n k Hn Hk) as [[Ha Hb] | [[Ha Hb] | [Ha [_ Hb]]]].
    all: set (P := 2 ^ k) in *; set (S' := 2 ^ 1073) in *;
      set (rem := n mod P) in *; set (m := n / P) in *;
      set (R := rounded n k) in *; set (Q := 2 ^ K) in *;
      rewrite HS.
    all: assert (Hmq : m' * Q <= (2 ^ 53 - 1) * (P * S')) by nia.
    all: assert (HX : 2 ^ 53 * (P * S') <= n * (2 * S')) by nia.
    all: split; [nia|]; intros _ Heq; try nia.
Qed.

End NearestScaled.

Section NearestBinary64.

Local Open Scope Q_scope.

Lemma scale_1075 (m e : Z) :
  (-1075 <= e)%Z ->
  inject_Z m * Qpower (2 # 1) e
  == inject_Z (m * 2 ^ (e + 1075)) * Qpower (2 # 1) (-1075).
Proof.
  intros He.
  rewrite inject_Z_mult, (Zpower_Qpower 2 (e + 1075)) by lia.
  rewrite <- Qmult_assoc, <- Qpower_plus by discriminate.
  replace (e + 1075 + -1075)%Z with e by lia. reflexivity.
Qed.

Lemma half_scaled (n : Z) :
  n # 2 == inject_Z (n * 2 ^ 1074) * Qpower (2 # 1) (-1075).
Proof.
  rewrite <- (scale_1075 n (-1)) by lia.
  unfold Qeq, Qmult, inject_Z. cbn. lia.
Qed.

Lemma unit_positive : 0 < Qpower (2 # 1) (-1075).
Proof. apply Qpower_0_lt. reflexivity. Qed.

Lemma scaled_distance (a b : Z) (c : Q) :
  0 < c ->
  Qabs (inject_Z a * c - inject_Z b * c) == inject_Z (Z.abs (a - b)) * c.
Proof.
  intros Hc.
  assert (H : inject_Z a * c - inject_Z b * c == inject_Z (a - b) * c).
  { unfold Zminus. rewrite inject_Z_plus, inject_Z_opp. ring. }
  rewrite H, Qabs_Qmult, (Qabs_pos c) by (apply Qlt_le_weak; exact Hc).
  reflexivity.
Qed.

Lemma scaled_eq (a b : Z) (c : Q) :
  0 < c -> inject_Z a * c == inject_Z b * c -> a = b.
Proof.
  intros Hc H. apply Qmult_inj_r in H.
  - apply inject_Z_injective. exact H.
  - intros Hz. rewrite Hz in Hc. discriminate.
Qed.

(** A binary64 number in units of 2^-1075. *)
Lemma binary64_scaled (r : Q) :
  binary64_number r ->
  exists m' K, (Z.abs m' < 2 ^ 53)%Z /\ (1 <= K)%Z
               /\ r == inject_Z (m' * 2 ^ K) * Qpower (2 # 1) (-1075).
Proof.
  intros [m' [e' [Hm [He Hr]]]].
  exists m', (e' + 1075)%Z. split; [exact Hm|]. split; [lia|].
  rewrite Hr. apply scale_1075. lia.
Qed.

(** The float of mantissa [m] and exponent [e] that [n / 2] rounds to is
    a nearest binary64 number, and the even one at a tie. *)
Lemma rounded_is_nearest (n k : Z) (m : positive) (e : Z) :
  (0 <= n)%Z -> (1 <= k)%Z -> (2 ^ 52 <= n / 2 ^ k)%Z ->
  (Zpos m < 2 ^ 53)%Z -> (0 <= e <= 971)%Z ->
  (Zpos m * 2 ^ (e + 1) = rounded n k * 2 ^ k)%Z ->
  nearest_binary64 (n # 2) (inject_Z (Zpos m) * Qpower (2 # 1) e)
  /\ (tie (n # 2) (inject_Z (Zpos m) * Qpower (2 # 1) e) ->
      Z.even (rounded n k) = true).
Proof.
  intros Hn Hk Hq Hm He Hv.
  pose proof unit_positive as Hc.
  set (c := Qpower (2 # 1) (-1075)) in *.
  assert (Hval : inject_Z (Zpos m) * Qpower (2 # 1) e
                 == inject_Z (rounded n k * 2 ^ k * 2 ^ 1074) * c).
  { unfold c. rewrite scale_1075 by lia.
    replace (Zpos m * 2 ^ (e + 1075))%Z
      with (rounded n k * 2 ^ k * 2 ^ 1074)%Z; [reflexivity|].
    rewrite <- Hv, <- Z.mul_assoc, <- Z.pow_add_r by lia.
    f_equal. f_equal. lia. }
  assert (Hdist : Qabs (inject_Z (Zpos m) * Qpower (2 # 1) e - (n # 2))
                  == inject_Z (2 ^ 1074 * Z.abs (rounded n k * 2 ^ k - n)) * c).
  { rewrite Hval, (half_scaled n). fold c.
    rewrite scaled_distance by exact Hc.
    replace (rounded n k * 2 ^ k * 2 ^ 1074 - n * 2 ^ 1074)%Z
      with (2 ^ 1074 * (rounded n k * 2 ^ k - n))%Z by ring.
    rewrite Z.abs_mul, (Z.abs_eq (2 ^ 1074)) by (vm_compute; discriminate).
    reflexivity. }
  split; [split|].
  - exists (Zpos m), e. split; [cbn [Z.abs]; lia|].
    split; [lia | reflexivity].
  - intros r Hr.
    destruct (binary64_scaled r Hr) as [m' [K [Hm' [HK Hr']]]].
    destruct (nearest_scaled n k m' K Hn Hk Hq Hm' HK) as [Hle _].
    rewrite Hdist, Hr', (half_scaled n). fold c.
    rewrite scaled_distance by exact Hc.
    apply Qmult_le_compat_r; [|apply Qlt_le_weak; exact Hc].
    rewrite <- Zle_Qle. exact Hle.
  - intros [r [Hr [Hne Heq]]].
    destruct (binary64_scaled r Hr) as [m' [K [Hm' [HK Hr']]]].
    destruct (nearest_scaled n k m' K Hn Hk Hq Hm' HK) as [_ Htie].
    destruct (rounded_cases n k Hn Hk) as [[Ha _] | [[Ha _] | [_ [Hev _]]]];
      [exfalso | exfalso | exact Hev].
    all: assert (Hhalf : (2 * (n mod 2 ^ k) = 2 ^ k)%Z); [|lia].
    all: apply Htie.
    all: try (intros Hsame; apply Hne; rewrite Hr', Hval, Hsame; reflexivity).
    all: apply (scaled_eq _ _ c Hc).
    all: rewrite <- Hdist, <- Heq, Hr', (half_scaled n); fold c.
    all: rewrite scaled_distance by exact Hc; reflexivity.
Qed.

(** An exact result is the nearest number, and there is no tie. *)
Lemma exact_is_nearest (x q : Q) :
  binary64_number q -> q == x ->
  nearest_binary64 x q /\ ~ tie x q.
Proof.
  intros Hb Hq.
  assert (H0 : Qabs (q - x) == 0).
  { rewrite Hq. unfold Qminus. rewrite Qplus_opp_r. reflexivity. }
  split; [split; [exact Hb|]|].
  - intros r _. rewrite H0. apply Qabs_nonneg.
  - intros [r [_ [Hne Heq]]]. apply Hne.
    rewrite H0 in Heq.
    assert (Hr : r - x == 0).
    { destruct (Qabs_Qle_condition (r - x) 0) as [H _].
      destruct H as [H1 H2]; [rewrite Heq; apply Qle_refl|].
      apply Qle_antisym; assumption. }
    rewrite Hq. 
    rewrite <- (Qplus_0_l x), <- Hr. ring.
Qed.

End NearestBinary64.

(* ================================================================== *)
(** * Substrings *)

Lemma pystr_eqb_eq (s t : pystr) : PyStr.eqb s t = true <-> s = t.
Proof.
  revert t. induction s as [|a s IH]; intros [|b t]; simpl;
    try (split; [discriminate | congruence]); try tauto.
  unfold char_eqb. rewrite andb_true_iff, N.eqb_eq, IH.
  split; [intros [-> ->]; reflexivity | intros [= -> ->]; auto].
Qed.

Lemma startswith_spec (sub s : pystr) :
  startswith sub s = true <-> exists post, s = sub ++ post.
Proof.
  revert s. induction sub as [|a sub IH]; intros s; simpl.
  - split; [exists s; reflexivity | reflexivity].
  - destruct s as [|b s].
    + split; [discriminate | intros [post H]; discriminate].
    + unfold char_eqb. rewrite andb_true_iff, N.eqb_eq, IH.
      split.
      * intros [-> [post ->]]. exists post. reflexivity.
      * intros [post [= -> ->]]. split; [reflexivity | exists post; reflexivity].
Qed.

(** The scan of [in] finds exactly the substrings. *)
Lemma contains_spec (sub s : pystr) :
  contains sub s = true <-> Contains sub s.
Proof.
  unfold Contains. induction s as [|c s IH].
  - simpl. rewrite orb_false_r, startswith_spec. split.
    + intros [post H]. exists [], post. exact H.
    + intros [pre [post H]]. destruct pre; simpl in H.
      * exists post. exact H.
      * discriminate.
  - cbn [contains]. rewrite orb_true_iff, startswith_spec, IH. split.
    + intros [[post H] | [pre [post H]]].
      * exists [], post. exact H.
      * exists (c :: pre), post. rewrite H. reflexivity.
    + intros [[|c' pre] [post H]]; simpl in H.
      * left. exists post. exact H.
      * right. injection H as -> ->. exists pre, post. reflexivity.
Qed.

Lemma contains_false (sub s : pystr) :
  contains sub s = false <-> ~ Contains sub s.
Proof.
  rewrite <- contains_spec. destruct (contains sub s); split; congruence.
Qed.

(* ================================================================== *)
(** * Maximal digit runs *)

Lemma digit_runs_skip (c : char) (s : pystr) (runs : list pystr) :
  nondigit c -> digit_runs s runs -> digit_runs (c :: s) runs.
Proof.
  intros Hc H. destruct H as [gap Hg | gap run rest runs Hg Hne Hr Hb Hrest].
  - apply runs_none. constructor; assumption.
  - change (c :: gap ++ run ++ rest) with ((c :: gap) ++ run ++ rest).
    apply runs_more; auto.
Qed.

Lemma findall_from_spec (s : pystr) :
  digit_runs s (findall_from [] s) /\
  forall cur, cur <> [] -> Forall digit cur ->
              digit_runs (cur ++ s) (findall_from cur s).
Proof.
  induction s as [|c t [IH0 IH1]].
  - split.
    + apply runs_none. constructor.
    + intros cur Hne Hcur. destruct cur as [|a cur]; [congruence|].
      cbn [findall_from].
      apply (runs_more [] (a :: cur) [] []); auto.
      apply runs_none. constructor.
  - split.
    + cbn [findall_from]. destruct (is_decimal c) eqn:Hc.
      * apply (IH1 [c]); [discriminate | repeat constructor; exact Hc].
      * apply digit_runs_skip; assumption.
    + intros cur Hne Hcur. cbn [findall_from].
      destruct (is_decimal c) eqn:Hc.
      * replace (cur ++ c :: t) with ((cur ++ [c]) ++ t)
          by (rewrite <- app_assoc; reflexivity).
        apply IH1.
        -- destruct cur; discriminate.
        -- apply Forall_app. split; [assumption | repeat constructor; exact Hc].
      * destruct cur as [|a cur]; [congruence|].
        apply (runs_more [] (a :: cur) (c :: t)); auto.
        apply digit_runs_skip; assumption.
Qed.

Lemma findall_from_gap (gap s : pystr) :
  Forall nondigit gap -> findall_from [] (gap ++ s) = findall_from [] s.
Proof.
  induction 1 as [|c gap Hc _ IH]; [reflexivity|].
  simpl. unfold nondigit in Hc. rewrite Hc. exact IH.
Qed.

Lemma findall_from_run (run s cur : pystr) :
  Forall digit run ->
  findall_from cur (run ++ s) = findall_from (cur ++ run) s.
Proof.
  intros H. revert cur.
  induction H as [|c run Hc _ IH]; intros cur.
  - rewrite app_nil_r. reflexivity.
  - simpl. unfold digit in Hc. rewrite Hc, IH, <- app_assoc. reflexivity.
Qed.

Lemma findall_from_close (cur rest : pystr) :
  cur <> [] ->
  match rest with [] => True | c :: _ => nondigit c end ->
  findall_from cur rest = cur :: findall_from [] rest.
Proof.
  intros Hne Hb. destruct cur as [|a cur]; [congruence|].
  destruct rest as [|c t]; [reflexivity|].
  simpl. unfold nondigit in Hb. rewrite Hb. reflexivity.
Qed.

(** [re.findall] returns the maximal digit runs, and nothing else does. *)
Lemma findall_digits_runs (s : pystr) : digit_runs s (findall_digits s).
Proof. apply findall_from_spec. Qed.

Lemma digit_runs_unique (s : pystr) (runs : list pystr) :
  digit_runs s runs -> findall_digits s = runs.
Proof.
  unfold findall_digits.
  induction 1 as [gap Hg | gap run rest runs Hg Hne Hr Hb _ IH].
  - rewrite <- (app_nil_r gap), findall_from_gap by assumption. reflexivity.
  - rewrite findall_from_gap, findall_from_run by assumption.
    rewrite findall_from_close by assumption.
    simpl. rewrite IH. reflexivity.
Qed.

(* ================================================================== *)
(** * The integers of the digit runs *)

Lemma decimal_in_range (zeros : list N) (c : char) (d : Z) :
  decimal_in zeros c = Some d -> (0 <= d <= 9)%Z.
Proof.
  induction zeros as [|z rest IH]; simpl; [discriminate|].
  destruct ((z <=? c)%N && (c <? z + 10)%N) eqn:E; [|exact IH].
  apply andb_true_iff in E. destruct E as [E1 E2].
  apply N.leb_le in E1. apply N.ltb_lt in E2.
  intros [= <-]. lia.
Qed.

Lemma digits_value_run (run : pystr) (acc : Z) :
  Forall digit run -> (0 <= acc)%Z ->
  exists z, digits_value acc run = Some z /\ (0 <= z)%Z.
Proof.
  intros H. revert acc.
  induction H as [|c run Hc _ IH]; intros acc Hacc; cbn [digits_value].
  - exists acc. auto.
  - unfold digit, is_decimal in Hc.
    destruct (decimal_value c) as [d|] eqn:Ed; [|discriminate].
    apply decimal_in_range in Ed. apply IH. lia.
Qed.

Lemma py_int_run (lim : nat) (run : pystr) :
  run <> [] -> Forall digit run -> within_limit lim run ->
  exists a, digits_value 0 run = Some a /\ (0 <= a)%Z
            /\ py_int lim run = Ok a.
Proof.
  intros Hne Hd Hlim.
  destruct (digits_value_run run 0 Hd (Z.le_refl 0)) as [a [Ha Hpos]].
  exists a. repeat split; auto.
  unfold py_int.
  replace ((640 <? List.length run)%nat && (0 <? lim)%nat
           && (lim <? List.length run)%nat) with false.
  - destruct run; [congruence|]. rewrite Ha. reflexivity.
  - symmetry. rewrite !andb_false_iff, !Nat.ltb_ge.
    unfold within_limit in Hlim. lia.
Qed.

Lemma py_int_too_long (lim : nat) (run : pystr) :
  (640 < List.length run)%nat -> (0 < lim < List.length run)%nat ->
  py_int lim run = Raise ValueError.
Proof.
  intros H1 [H2 H3]. unfold py_int.
  apply Nat.ltb_lt in H1, H2, H3. rewrite H1, H2, H3. reflexivity.
Qed.

(* ================================================================== *)
(** * The salary parser: classification *)

Lemma parse_salary_marker (lim : nat) (s : pystr) :
  has_marker s -> parse_salary lim s = Ok JNull.
Proof.
  unfold has_marker, parse_salary. rewrite <- !contains_spec.
  intros [H | [H | H]]; rewrite H;
    destruct (contains NEGOTIABLE s); try reflexivity.
  destruct (contains HOURLY s); reflexivity.
Qed.

Lemma parse_salary_unmarked (lim : nat) (s : pystr) :
  ~ has_marker s ->
  parse_salary lim s
  = match findall_digits (remove_char COMMA s) with
    | [n0; n1] =>
        (a <- py_int lim n0 ;; b <- py_int lim n1 ;;
         f <- int_truediv (a + b) 2 ;; Ok (JFloat f))%result
    | [n0] => (a <- py_int lim n0 ;; Ok (JInt a))%result
    | _ => Ok JNull
    end.
Proof.
  unfold has_marker, parse_salary. rewrite <- !contains_spec. intros H.
  destruct (contains NEGOTIABLE s); [tauto|].
  destruct (contains HOURLY s); [tauto|].
  destruct (contains DAILY s); [tauto|]. reflexivity.
Qed.

Lemma digit_runs_inv (s : pystr) (run : pystr) (runs : list pystr) :
  digit_runs s (run :: runs) -> run <> [] /\ Forall digit run.
Proof. inversion 1; auto. Qed.

Lemma digit_runs_tail (s : pystr) (run : pystr) (runs : list pystr) :
  digit_runs s (run :: runs) -> exists rest, digit_runs rest runs.
Proof. inversion 1; eauto. Qed.

Lemma parse_salary_one_run (lim : nat) (s run : pystr) :
  ~ has_marker s -> digit_runs (remove_char COMMA s) [run] ->
  within_limit lim run ->
  exists a, digits_value 0 run = Some a /\ parse_salary lim s = Ok (JInt a).
Proof.
  intros Hm Hruns Hlim.
  rewrite (parse_salary_unmarked lim s Hm), (digit_runs_unique _ _ Hruns).
  destruct (digit_runs_inv _ _ _ Hruns) as [Hne Hd].
  destruct (py_int_run lim run Hne Hd Hlim) as [a [Ha [_ Hint]]].
  exists a. rewrite Hint. auto.
Qed.

Lemma parse_salary_two_runs (lim : nat) (s r1 r2 : pystr) :
  ~ has_marker s -> digit_runs (remove_char COMMA s) [r1; r2] ->
  within_limit lim r1 -> within_limit lim r2 ->
  exists a b, digits_value 0 r1 = Some a /\ digits_value 0 r2 = Some b
              /\ (0 <= a)%Z /\ (0 <= b)%Z
              /\ parse_salary lim s = mean_estimate a b.
Proof.
  intros Hm Hruns Hl1 Hl2.
  rewrite (parse_salary_unmarked lim s Hm), (digit_runs_unique _ _ Hruns).
  destruct (digit_runs_inv _ _ _ Hruns) as [Hne1 Hd1].
  destruct (digit_runs_tail _ _ _ Hruns) as [rest Hrest].
  destruct (digit_runs_inv _ _ _ Hrest) as [Hne2 Hd2].
  destruct (py_int_run lim r1 Hne1 Hd1 Hl1) as [a [Ha [Ha0 Hinta]]].
  destruct (py_int_run lim r2 Hne2 Hd2 Hl2) as [b [Hb [Hb0 Hintb]]].
  exists a, b. rewrite Hinta, Hintb. repeat split; auto.
Qed.

Lemma binary64_half_small (n : Z) :
  (0 <= n < 2 ^ 53)%Z -> binary64_half n.
Proof.
  intros Hn. exists n, 0%Z. repeat split; lia.
Qed.

Lemma mean_estimate_exact (a b : Z) :
  (0 <= a)%Z -> (0 <= b)%Z -> binary64_half (a + b) ->
  exists f, mean_estimate a b = Ok (JFloat f) /\ float_is f ((a + b) # 2).
Proof.
  intros Ha Hb Hrep.
  destruct (int_truediv_2_exact_wide (a + b)) as [f [Hf Hv]];
    [lia | exact Hrep |].
  exists f. unfold mean_estimate. rewrite Hf. auto.
Qed.

Lemma mean_estimate_overflow (a b : Z) :
  (2 ^ 1025 <= a + b)%Z -> mean_estimate a b = Raise OverflowError.
Proof.
  intros H. unfold mean_estimate.
  rewrite (int_truediv_overflow (a + b) H). reflexivity.
Qed.

Lemma small_quotient_number (n : Z) :
  (0 <= n < 2 ^ 53)%Z ->
  exists f q, int_truediv n 2 = Ok f /\ float_value f = Some q
              /\ (q == n # 2)%Q /\ binary64_number q.
Proof.
  intros [H0 Hlt]. destruct n as [|p|p]; try lia.
  - exists (S754_zero false), (0 # 1)%Q.
    split; [reflexivity|]. split; [reflexivity|]. split; [reflexivity|].
    exists 0%Z, 0%Z. repeat split; try lia; reflexivity.
  - destruct (float_value_small p Hlt) as [f [Hf [q [Hq Heq]]]].
    exists f, q. split; [exact Hf|]. split; [exact Hq|]. split; [exact Heq|].
    rewrite (int_truediv_small p Hlt) in Hf. injection Hf as <-.
    cbn [float_value cond_Zopp] in Hq. injection Hq as <-.
    pose proof (Zdigits2_bound p Hlt) as Hd.
    pose proof (Zdigits2_spec p) as Hp.
    set (d := Zdigits2 (Zpos p)) in *.
    assert (Hpos : (0 < Zpos p * 2 ^ (53 - d))%Z).
    { apply Z.mul_pos_pos; [lia | apply Z.pow_pos_nonneg; lia]. }
    exists (Zpos (Z.to_pos (Zpos p * 2 ^ (53 - d)))), (d - 54)%Z.
    split; [|split; [lia | reflexivity]].
    rewrite Z2Pos.id by exact Hpos.
    rewrite Z.abs_eq by lia.
    assert (2 ^ 53 = 2 ^ d * 2 ^ (53 - d))%Z
      by (rewrite <- Z.pow_add_r by lia; f_equal; lia).
    assert (0 < 2 ^ (53 - d))%Z by (apply Z.pow_pos_nonneg; lia).
    nia.
Qed.

(** The estimate for two runs, whatever their values: the nearest
    binary64 number to the mean, the even one at a tie, as long as the sum
    is below [OVERFLOW_SUM]. *)
Lemma mean_estimate_rounded (a b : Z) :
  (0 <= a)%Z -> (0 <= b)%Z -> (a + b < OVERFLOW_SUM)%Z ->
  exists f q,
    mean_estimate a b = Ok (JFloat f) /\ float_value f = Some q
    /\ nearest_binary64 ((a + b) # 2) q
    /\ (tie ((a + b) # 2) q -> even_significand f).
Proof.
  intros Ha Hb Hmax. unfold mean_estimate.
  destruct (Z_lt_le_dec (a + b) (2 ^ 53)) as [Hsmall | Hbig].
  - destruct (small_quotient_number (a + b)) as [f [q [Hf [Hq [Heq Hbin]]]]];
      [lia|].
    destruct (exact_is_nearest ((a + b) # 2) q Hbin Heq) as [Hnear Hno].
    exists f, q. rewrite Hf. split; [reflexivity|]. split; [exact Hq|].
    split; [exact Hnear|]. intros Ht. destruct (Hno Ht).
  - destruct (int_truediv_finite (a + b)) as [m [e [Hf [Hm [He [Hv Hev]]]]]];
      [lia|].
    destruct (rounded_range (a + b) Hbig) as [Hk [Hq _]].
    destruct (rounded_is_nearest (a + b) (Zdigits2 (a + b) - 53) m e)
      as [Hnear Htie]; try lia; try assumption.
    exists (S754_finite false m e). eexists. rewrite Hf.
    split; [reflexivity|]. split; [reflexivity|].
    cbn [cond_Zopp]. split; [exact Hnear|].
    intros Ht. split; [exact Hm | auto].
Qed.

Lemma mean_estimate_overflows (a b : Z) :
  (OVERFLOW_SUM <= a + b)%Z -> mean_estimate a b = Raise OverflowError.
Proof.
  intros H. unfold mean_estimate.
  rewrite (int_truediv_overflows (a + b) H). reflexivity.
Qed.


Lemma parse_salary_number_classified (lim : nat) (s : pystr) (v : json) :
  parse_salary lim s = Ok v -> v <> JNull ->
  ~ has_marker s /\
  (List.length (findall_digits (remove_char COMMA s)) = 1
   \/ List.length (findall_digits (remove_char COMMA s)) = 2)%nat.
Proof.
  intros Hp Hv.
  assert (Hm : ~ has_marker s).
  { intros Hm. rewrite (parse_salary_marker lim s Hm) in Hp. congruence. }
  split; [exact Hm|].
  rewrite (parse_salary_unmarked lim s Hm) in Hp.
  destruct (findall_digits (remove_char COMMA s)) as [|r1 [|r2 [|r3 rs]]];
    simpl; auto; congruence.
Qed.

Lemma float_40000_value : float_is FLOAT_40000 (40000 # 1).
Proof. eexists. split; reflexivity. Qed.

(** C1 (amended): the parser classifies a salary text.  A text with one of
    the three markers gives [None].  Otherwise, with the commas removed:
    two maximal digit runs of values [a] and [b] give the binary64
    quotient of [a + b] by 2, which is exactly their mean whenever the
    mean is a binary64 number, so whenever [a + b < 2^53]; one run gives
    its value as an [int]; no run, or more than two, gives [None].  The
    runs are to be within the interpreter's bound on the digits [int]
    converts.  A number is returned only for an unmarked text with one or
    two runs.  The five examples of the specification evaluate as it
    says. *)
Theorem parse_salary_classifies (lim : nat) (s : pystr) :
  (has_marker s -> parse_salary lim s = Ok JNull) /\
  (~ has_marker s ->
   forall runs, digit_runs (remove_char COMMA s) runs ->
     match runs with
     | [r] =>
         within_limit lim r ->
         exists a, digits_value 0 r = Some a
                   /\ parse_salary lim s = Ok (JInt a)
     | [r1; r2] =>
         within_limit lim r1 -> within_limit lim r2 ->
         exists a b,
           digits_value 0 r1 = Some a /\ digits_value 0 r2 = Some b
           /\ parse_salary lim s = mean_estimate a b
           /\ (binary64_half (a + b) ->
               exists f, parse_salary lim s = Ok (JFloat f)
                         /\ float_is f ((a + b) # 2))
           /\ ((a + b < 2 ^ 53)%Z -> binary64_half (a + b))
     | _ => parse_salary lim s = Ok JNull
     end) /\
  (forall v, parse_salary lim s = Ok v -> v <> JNull ->
     ~ has_marker s /\
     exists runs, digit_runs (remove_char COMMA s) runs
                  /\ (List.length runs = 1 \/ List.length runs = 2)%nat) /\
  (exists f, parse_salary lim SALARY_RANGE = Ok (JFloat f)
             /\ float_is f (40000 # 1)) /\
  parse_salary lim SALARY_FLOOR = Ok (JInt 40000) /\
  parse_salary lim NEGOTIABLE = Ok JNull /\
  parse_salary lim SALARY_HOURLY = Ok JNull /\
  parse_salary lim SALARY_NO_DIGITS = Ok JNull.
Proof.
  split; [apply parse_salary_marker|].
  split.
  { intros Hm runs Hruns.
    destruct runs as [|r1 [|r2 [|r3 rs]]].
    - rewrite (parse_salary_unmarked lim s Hm), (digit_runs_unique _ _ Hruns).
      reflexivity.
    - apply parse_salary_one_run; assumption.
    - intros Hl1 Hl2.
      destruct (parse_salary_two_runs lim s r1 r2 Hm Hruns Hl1 Hl2)
        as [a [b [Ha [Hb [Ha0 [Hb0 Hp]]]]]].
      exists a, b. repeat split; auto.
      + intros Hrep. rewrite Hp. apply mean_estimate_exact; assumption.
      + intros Hlt. apply binary64_half_small. lia.
    - rewrite (parse_salary_unmarked lim s Hm), (digit_runs_unique _ _ Hruns).
      reflexivity. }
  split.
  { intros v Hp Hv.
    destruct (parse_salary_number_classified lim s v Hp Hv) as [Hm Hlen].
    split; [exact Hm|].
    exists (findall_digits (remove_char COMMA s)).
    split; [apply findall_digits_runs | exact Hlen]. }
  split; [exists FLOAT_40000; split;
          [vm_compute; reflexivity | apply float_40000_value]|].
  repeat split; vm_compute; reflexivity.
Qed.

(** A text is unmarked when the three scans of the parser all fail. *)
Lemma unmarked_by_scan (s : pystr) :
  contains NEGOTIABLE s || contains HOURLY s || contains DAILY s = false ->
  ~ has_marker s.
Proof.
  unfold has_marker. rewrite <- !contains_spec. intros H.
  apply orb_false_iff in H. destruct H as [H H3].
  apply orb_false_iff in H. destruct H as [H1 H2].
  rewrite H1, H2, H3. intuition discriminate.
Qed.

Lemma parse_salary_classifies_witness :
  ~ has_marker SALARY_RANGE /\
  digit_runs (remove_char COMMA SALARY_RANGE) [RUN_30000; RUN_50000] /\
  exists a b,
    digits_value 0 RUN_30000 = Some a /\ digits_value 0 RUN_50000 = Some b
    /\ parse_salary 4300 SALARY_RANGE = mean_estimate a b
    /\ (binary64_half (a + b) ->
        exists f, parse_salary 4300 SALARY_RANGE = Ok (JFloat f)
                  /\ float_is f ((a + b) # 2))
    /\ ((a + b < 2 ^ 53)%Z -> binary64_half (a + b)).
Proof.
  assert (Hm : ~ has_marker SALARY_RANGE) by (apply unmarked_by_scan; reflexivity).
  assert (Hruns : digit_runs (remove_char COMMA SALARY_RANGE)
                    [RUN_30000; RUN_50000])
    by exact (findall_digits_runs (remove_char COMMA SALARY_RANGE)).
  split; [exact Hm|]. split; [exact Hruns|].
  apply (proj1 (proj2 (parse_salary_classifies 4300 SALARY_RANGE))
           Hm _ Hruns); left; vm_compute; lia.
Defined.

(** C1, as stated, fails: a text with exactly two digit runs and no
    marker for which no mean is returned, the division overflowing. *)
Lemma parse_salary_huge_range_raises :
  ~ has_marker SALARY_HUGE /\
  digit_runs (remove_char COMMA SALARY_HUGE) [RUN_1E309; [48%N]] /\
  digits_value 0 RUN_1E309 = Some (10 ^ 309)%Z /\
  digits_value 0 [48%N] = Some 0%Z /\
  (forall lim, parse_salary lim SALARY_HUGE = Raise OverflowError).
Proof.
  split; [apply unmarked_by_scan; vm_compute; reflexivity|].
  split; [exact (findall_digits_runs (remove_char COMMA SALARY_HUGE))|].
  split; [vm_compute; reflexivity|].
  split; [reflexivity|].
  intros lim. vm_compute. reflexivity.
Qed.

(** C6 (amended): for an unmarked text with exactly two digit runs, each
    within the interpreter's bound on the digits [int] converts, of values
    [a] and [b]: as long as [a + b] is below 2^1025 - 2^971 the parser
    returns a float, the binary64 number nearest to [(a + b) / 2] and, of
    two equally near, the one of even significand; that float is exactly
    [(a + b) / 2] whenever [(a + b) / 2] is a binary64 number, which it is
    whenever [a + b < 2^53]; from 2^1025 - 2^971 on the parser raises
    [OverflowError], returning nothing. *)
Theorem parse_salary_mean_exact
    (lim : nat) (s r1 r2 : pystr) (a b : Z) :
  ~ has_marker s ->
  digit_runs (remove_char COMMA s) [r1; r2] ->
  within_limit lim r1 -> within_limit lim r2 ->
  digits_value 0 r1 = Some a -> digits_value 0 r2 = Some b ->
  ((a + b < OVERFLOW_SUM)%Z ->
   exists f q, parse_salary lim s = Ok (JFloat f)
               /\ float_value f = Some q
               /\ nearest_binary64 ((a + b) # 2) q
               /\ (tie ((a + b) # 2) q -> even_significand f))
  /\ (binary64_half (a + b) ->
      exists f, parse_salary lim s = Ok (JFloat f)
                /\ float_is f ((a + b) # 2))
  /\ ((a + b < 2 ^ 53)%Z -> binary64_half (a + b))
  /\ ((OVERFLOW_SUM <= a + b)%Z ->
      parse_salary lim s = Raise OverflowError).
Proof.
  intros Hm Hruns Hl1 Hl2 Ha Hb.
  destruct (parse_salary_two_runs lim s r1 r2 Hm Hruns Hl1 Hl2)
    as [a' [b' [Ha' [Hb' [Ha0 [Hb0 Hp]]]]]].
  assert (a' = a) by congruence. assert (b' = b) by congruence. subst a' b'.
  rewrite Hp. split; [|split; [|split]].
  - apply mean_estimate_rounded; assumption.
  - apply mean_estimate_exact; assumption.
  - intros Hlt. apply binary64_half_small. lia.
  - apply mean_estimate_overflows.
Qed.

Lemma parse_salary_mean_exact_witness :
  exists f q,
    parse_salary 0 SALARY_ODD = Ok (JFloat f) /\ float_value f = Some q
    /\ nearest_binary64 ((9007199254740993 + 0) # 2) q
    /\ (tie ((9007199254740993 + 0) # 2) q -> even_significand f).
Proof.
  refine (proj1 (parse_salary_mean_exact 0 SALARY_ODD
                   RUN_ODD [48%N] 9007199254740993 0
                   _ _ _ _ _ _) _).
  - apply unmarked_by_scan. reflexivity.
  - exact (findall_digits_runs (remove_char COMMA SALARY_ODD)).
  - left. vm_compute. lia.
  - left. vm_compute. lia.
  - reflexivity.
  - reflexivity.
  - vm_compute. reflexivity.
Defined.

(** C6, as stated, fails for large magnitudes: nothing is returned. *)
Lemma parse_salary_mean_overflows :
  ~ has_marker SALARY_NINES /\
  digit_runs (remove_char COMMA SALARY_NINES) [RUN_NINES; RUN_NINES] /\
  digits_value 0 RUN_NINES = Some (10 ^ 400 - 1)%Z /\
  (forall lim, parse_salary lim SALARY_NINES = Raise OverflowError).
Proof.
  split; [apply unmarked_by_scan; vm_compute; reflexivity|].
  split; [exact (findall_digits_runs (remove_char COMMA SALARY_NINES))|].
  split; [vm_compute; reflexivity|].
  intros lim. vm_compute. reflexivity.
Qed.

Lemma parse_salary_mean_rounded :
  exists f, (forall lim, parse_salary lim SALARY_ODD = Ok (JFloat f))
            /\ float_is f (4503599627370496 # 1)
            /\ ~ float_is f (9007199254740993 # 2).
Proof.
  exists (S754_finite false 4503599627370496 0).
  split; [intros lim; vm_compute; reflexivity|].
  split.
  - eexists. split; reflexivity.
  - intros [q [Hv Hq]]. injection Hv as <-. revert Hq. vm_compute. discriminate.
Qed.

(** Beyond the bound on digits, [int] itself raises. *)
Lemma parse_salary_digit_limit :
  parse_salary 4300 (repeat 57%N 4301) = Raise ValueError.
Proof. vm_compute. reflexivity. Qed.

(* ================================================================== *)
(** * The test of line 53 *)

Lemma in_list_spec (k : pystr) (l : list json) :
  existsb (fun x => match x with
                    | JStr s => PyStr.eqb s k
                    | _ => false
                    end) l = true <-> In (JStr k) l.
Proof.
  rewrite existsb_exists. split.
  - intros [x [Hin Hx]]. destruct x; try discriminate.
    apply pystr_eqb_eq in Hx. subst. exact Hin.
  - intros Hin. exists (JStr k). split; [exact Hin|].
    apply pystr_eqb_eq. reflexivity.
Qed.

(** [k in v], case by case. *)
Lemma contains_str_cases (k : pystr) (v : json) :
  (without_key k v /\ Py.contains_str k v = Ok false)
  \/ (unindexed_key k v /\ Py.contains_str k v = Ok true
      /\ Py.getitem v k = Raise TypeError)
  \/ (scalar v /\ Py.contains_str k v = Raise TypeError)
  \/ (exists f x, v = JObj f /\ Py.lookup k f = Some x
                  /\ Py.contains_str k v = Ok true
                  /\ Py.getitem v k = Ok x).
Proof.
  destruct v as [| | | |s|l|f]; cbn [Py.contains_str Py.getitem];
    try (right; right; left; split; [exact I | reflexivity]).
  - destruct (contains k s) eqn:E.
    + right. left. repeat split. apply contains_spec. exact E.
    + left. split; [|reflexivity]. apply contains_false. exact E.
  - destruct (existsb _ l) eqn:E.
    + right. left. repeat split. apply in_list_spec. exact E.
    + left. split; [|reflexivity]. intros H. apply in_list_spec in H.
      congruence.
  - destruct (Py.lookup k f) as [x|] eqn:E.
    + right. right. right. exists f, x. repeat split. exact E.
    + left. split; [exact E | reflexivity].
Qed.

Lemma len_cases (v : json) :
  (empty_value v /\ Py.len v = Ok 0)
  \/ (scalar v /\ Py.len v = Raise TypeError)
  \/ (~ scalar v /\ ~ empty_value v /\ exists n, Py.len v = Ok (S n)).
Proof.
  destruct v as [| | | |[|c s]|[|x l]|[|kv f]]; cbn [Py.len List.length];
    try (right; left; split; [exact I | reflexivity]);
    try (left; split; [unfold empty_value; auto | reflexivity]);
    right; right; (split; [intros []|]);
    (split; [intros [H|[H|H]]; discriminate | eexists; reflexivity]).
Qed.

(** The test of line 53 on every document. *)
Lemma line_53_cases (data : json) :
  (silent_stop data /\ no_more_results data = Ok true)
  \/ (test_raises data /\ no_more_results data = Raise TypeError)
  \/ (has_items data /\ no_more_results data = Ok false).
Proof.
  unfold no_more_results.
  destruct (contains_str_cases K_DATA data)
    as [[Hw ->] | [[Hu [-> _]] | [[Hs ->] | [f [inner [-> [Hd [-> _]]]]]]]].
  - left. split; [apply stop_no_data; exact Hw | reflexivity].
  - right. left. split; [apply raises_document; right; exact Hu|].
    destruct data; try destruct Hu; reflexivity.
  - right. left. split; [apply raises_document; left; exact Hs | reflexivity].
  - cbn [rbind negb Py.getitem]. rewrite Hd. cbn [rbind].
    destruct (contains_str_cases K_LIST inner)
      as [[Hw ->] | [[Hu [-> Hg]] | [[Hs ->] | [g [listing [-> [Hl [-> _]]]]]]]].
    + left. split; [|reflexivity].
      apply (stop_no_list f inner Hd Hw).
    + right. left. split; [apply (raises_data f inner Hd); right; exact Hu|].
      cbn [rbind negb]. rewrite Hg. reflexivity.
    + right. left. split; [|reflexivity].
      apply (raises_data f inner Hd). left. exact Hs.
    + cbn [rbind negb Py.getitem]. rewrite Hl. cbn [rbind].
      destruct (len_cases listing) as [[He ->] | [[Hs ->] | [Hns [Hne [n ->]]]]].
      * left. split; [|reflexivity]. apply (stop_empty f g listing Hd Hl He).
      * right. left. split; [|reflexivity].
        apply (raises_list f g listing Hd Hl Hs).
      * right. right. split; [|reflexivity].
        exists f, g, listing. auto.
Qed.

Lemma without_key_false (k : pystr) (v : json) :
  without_key k v -> Py.contains_str k v = Ok false.
Proof.
  destruct (contains_str_cases k v)
    as [[_ E] | [[Hu _] | [[Hs _] | [f [x [-> [Hl _]]]]]]]; intros H;
    [exact E | | |]; exfalso.
  - destruct v; cbn in *; tauto.
  - destruct v; cbn in *; tauto.
  - cbn in H. congruence.
Qed.

Lemma unindexed_key_true (k : pystr) (v : json) :
  unindexed_key k v ->
  Py.contains_str k v = Ok true /\ Py.getitem v k = Raise TypeError.
Proof.
  destruct (contains_str_cases k v)
    as [[Hw _] | [[_ E] | [[Hs _] | [f [x [-> _]]]]]]; intros H;
    [| exact E | |]; exfalso.
  - destruct v; cbn in *; tauto.
  - destruct v; cbn in *; tauto.
  - destruct H.
Qed.

Lemma scalar_not_in (k : pystr) (v : json) :
  scalar v -> Py.contains_str k v = Raise TypeError.
Proof. destruct v; cbn; intros H; try reflexivity; destruct H. Qed.

Lemma silent_stop_stops (data : json) :
  silent_stop data -> no_more_results data = Ok true.
Proof.
  intros [d Hw | f inner Hd Hw | f g listing Hd Hl He];
    unfold no_more_results.
  - rewrite (without_key_false K_DATA d Hw). reflexivity.
  - cbn [Py.contains_str Py.getitem rbind]. rewrite Hd. cbn [negb rbind].
    rewrite (without_key_false K_LIST inner Hw). reflexivity.
  - cbn [Py.contains_str Py.getitem rbind]. rewrite Hd.
    cbn [negb rbind Py.contains_str Py.getitem]. rewrite Hl.
    cbn [negb rbind].
    destruct He as [-> | [-> | ->]]; reflexivity.
Qed.

Lemma test_raises_raises (data : json) :
  test_raises data -> no_more_results data = Raise TypeError.
Proof.
  intros [d [Hs|Hu] | f inner Hd [Hs|Hu] | f g listing Hd Hl Hs];
    unfold no_more_results.
  - rewrite (scalar_not_in K_DATA d Hs). reflexivity.
  - destruct (unindexed_key_true K_DATA d Hu) as [-> ->]. reflexivity.
  - cbn [Py.contains_str Py.getitem rbind]. rewrite Hd. cbn [negb rbind].
    rewrite (scalar_not_in K_LIST inner Hs). reflexivity.
  - cbn [Py.contains_str Py.getitem rbind]. rewrite Hd. cbn [negb rbind].
    destruct (unindexed_key_true K_LIST inner Hu) as [-> ->]. reflexivity.
  - cbn [Py.contains_str Py.getitem rbind]. rewrite Hd.
    cbn [negb rbind Py.contains_str Py.getitem]. rewrite Hl.
    cbn [negb rbind].
    destruct listing; try destruct Hs; reflexivity.
Qed.


(* ================================================================== *)
(** * The fetcher: pages and what ends the pagination *)

Section FetchProperties.

Variable repr_other : json -> pystr.
Variable net : pystr -> nat -> result json.

Lemma has_listing_items (data : json) (records : list json) :
  has_listing data records -> page_items data = Ok records.
Proof.
  intros [f [g [-> [Hd Hl]]]]. unfold page_items. simpl.
  rewrite Hd. simpl. rewrite Hl. reflexivity.
Qed.

Lemma has_listing_more (data : json) (records : list json) :
  has_listing data records -> records <> [] ->
  no_more_results data = Ok false.
Proof.
  intros [f [g [-> [Hd Hl]]]] Hne. unfold no_more_results. simpl.
  rewrite Hd. simpl. rewrite Hl. simpl.
  destruct records; [congruence | reflexivity].
Qed.

Lemma for_each_built (records listings : list json) (w : world) :
  built repr_other records listings ->
  for_each records (record_body repr_other) w
  = (World (job_list w ++ listings) (log w), Ok tt).
Proof.
  intros H. revert w.
  induction H as [|r l records listings Hr _ IH]; intros w.
  - simpl. unfold ret. rewrite app_nil_r. destruct w; reflexivity.
  - cbn [for_each]. unfold bind at 1. unfold record_body at 1.
    unfold bind at 1. unfold lift. rewrite Hr. unfold append at 1.
    rewrite IH. simpl. rewrite <- app_assoc. reflexivity.
Qed.

Lemma for_each_raises
    (pre post partial : list json) (bad : json) (e : exn) (w : world) :
  built repr_other pre partial -> job_info repr_other bad = Raise e ->
  for_each (pre ++ bad :: post) (record_body repr_other) w
  = (World (job_list w ++ partial) (log w), Raise e).
Proof.
  intros H Hbad. revert w.
  induction H as [|r l pre partial Hr _ IH]; intros w.
  - simpl. unfold bind, record_body, bind, lift. rewrite Hbad.
    rewrite app_nil_r. destruct w; reflexivity.
  - cbn [for_each app]. unfold bind at 1. unfold record_body at 1.
    unfold bind at 1. unfold lift. rewrite Hr. unfold append at 1.
    rewrite IH. simpl. rewrite <- app_assoc. reflexivity.
Qed.

Lemma fetch_page_unfold (keyword : pystr) (page pages : nat) (w : world) :
  fetch_page repr_other net keyword page pages w
  = match net keyword page with
    | Raise e => (World (job_list w) (log w ++ [HttpGet keyword page]), Raise e)
    | Ok data =>
        match no_more_results data with
        | Raise e =>
            (World (job_list w) (log w ++ [HttpGet keyword page]), Raise e)
        | Ok true =>
            (World (job_list w) (log w ++ [HttpGet keyword page]), Ok Break)
        | Ok false =>
            match page_items data with
            | Raise e =>
                (World (job_list w) (log w ++ [HttpGet keyword page]), Raise e)
            | Ok items =>
                match for_each items (record_body repr_other)
                        (World (job_list w) (log w ++ [HttpGet keyword page]))
                with
                | (w', Raise e) => (w', Raise e)
                | (w', Ok _) =>
                    (World (job_list w')
                       (log w' ++ [UiProgress page pages; Sleep]), Ok Next)
                end
            end
        end
    end.
Proof.
  unfold fetch_page, bind, emit, lift, page_items, rbind. simpl.
  destruct (net keyword page) as [data|e]; [|reflexivity].
  destruct (no_more_results data) as [[|]|e]; try reflexivity.
  destruct (Py.getitem data K_DATA) as [inner|e]; [|reflexivity].
  destruct (Py.getitem inner K_LIST) as [jobs|e]; [|reflexivity].
  destruct (Py.iter jobs) as [items|e]; [|reflexivity].
  destruct (for_each items (record_body repr_other) _) as [w' [[]|e]];
    [|reflexivity].
  simpl. rewrite <- app_assoc. reflexivity.
Qed.

Lemma fetch_page_good
    (keyword : pystr) (page pages : nat) (listings : list json) (w : world) :
  good_page repr_other (net keyword page) listings ->
  fetch_page repr_other net keyword page pages w
  = (World (job_list w ++ listings)
       (log w ++ [HttpGet keyword page; UiProgress page pages; Sleep]),
     Ok Next).
Proof.
  intros [data [records [Hnet [Hl [Hne Hb]]]]].
  rewrite fetch_page_unfold, Hnet, (has_listing_more data records Hl Hne),
    (has_listing_items data records Hl),
    (for_each_built records listings _ Hb).
  simpl. rewrite <- app_assoc. reflexivity.
Qed.

Lemma fetch_page_stops
    (keyword : pystr) (page pages : nat) (data : json) (w : world) :
  net keyword page = Ok data -> no_more_results data = Ok true ->
  fetch_page repr_other net keyword page pages w
  = (World (job_list w) (log w ++ [HttpGet keyword page]), Ok Break).
Proof.
  intros Hnet Hstop. rewrite fetch_page_unfold, Hnet, Hstop. reflexivity.
Qed.

Lemma fetch_page_fails
    (keyword : pystr) (page pages : nat) (partial : list json) (e : exn)
    (w : world) :
  page_fails repr_other (net keyword page) partial e ->
  fetch_page repr_other net keyword page pages w
  = (World (job_list w ++ partial) (log w ++ [HttpGet keyword page]),
     Raise e).
Proof.
  intros [e' Hnet | data e' Hnet Hshape
          | data pre bad post partial' e' Hnet Hmore Hitems Hpre Hbad];
    rewrite fetch_page_unfold, Hnet.
  - rewrite app_nil_r. reflexivity.
  - rewrite Hshape, app_nil_r. reflexivity.
  - rewrite Hmore, Hitems, (for_each_raises pre post partial' bad e' _ Hpre Hbad). reflexivity.
Qed.

Lemma fetch_loop_step
    (keyword : pystr) (pages page : nat) (rest : list nat) (w : world) :
  fetch_loop repr_other net keyword pages (page :: rest) w
  = match fetch_page repr_other net keyword page pages
            (World (job_list w) (log w ++ [UiStatus page pages])) with
    | (w', Ok Next) => fetch_loop repr_other net keyword pages rest w'
    | (w', Ok Break) => (w', Ok tt)
    | (w', Raise e) =>
        (World (job_list w') (log w' ++ [UiError page e]), Ok tt)
    end.
Proof.
  cbn [fetch_loop]. unfold bind at 1. unfold emit at 1.
  unfold bind at 1. unfold try_except.
  destruct (fetch_page repr_other net keyword page pages _) as [w' [[|]|e]];
    reflexivity.
Qed.

(** A run of good pages is fetched to its end and the loop goes on. *)
Lemma fetch_loop_good
    (keyword : pystr) (pages : nat) (listings_of : nat -> list json)
    (rest : list nat) (k : nat) :
  forall (start : nat) (w : world),
    (forall p, start <= p < start + k ->
               good_page repr_other (net keyword p) (listings_of p)) ->
    fetch_loop repr_other net keyword pages (seq start k ++ rest) w
    = fetch_loop repr_other net keyword pages rest
        (World (job_list w ++ flat_map listings_of (seq start k))
           (log w ++ flat_map (page_events keyword pages) (seq start k))).
Proof.
  induction k as [|k IH]; intros start w Hgood.
  - simpl. rewrite !app_nil_r. destruct w; reflexivity.
  - cbn [seq app]. rewrite fetch_loop_step.
    rewrite (fetch_page_good keyword start pages (listings_of start) _)
      by (apply Hgood; lia).
    rewrite IH by (intros p Hp; apply Hgood; lia).
    cbn [job_list log flat_map page_events].
    rewrite <- !app_assoc. reflexivity.
Qed.

Lemma pages_split (n pages : nat) :
  1 <= n <= pages ->
  seq 1 pages = seq 1 (n - 1) ++ n :: seq (S n) (pages - n).
Proof.
  intros H.
  replace pages with ((n - 1) + S (pages - n)) at 1 by lia.
  rewrite seq_app. replace (1 + (n - 1)) with n by lia. reflexivity.
Qed.

Lemma fetch_unfold (keyword : pystr) (pages : nat) :
  run (fetch_104_jobs repr_other net keyword pages)
  = match fetch_loop repr_other net keyword pages (seq 1 pages)
            (World [] [UiProgressNew; UiStatusNew]) with
    | (w, Ok _) =>
        (log w ++ [UiStatusDone; UiProgressEmpty], Ok (job_list w))
    | (w, Raise e) => (log w, Raise e)
    end.
Proof.
  unfold run, fetch_104_jobs, bind, emit. simpl.
  destruct (fetch_loop repr_other net keyword pages (seq 1 pages) _)
    as [w [[]|e]]; simpl; [|reflexivity].
  rewrite <- app_assoc. reflexivity.
Qed.

(** The pagination ends at page [n] on an exception. *)
Lemma fetch_aborts
    (keyword : pystr) (pages n : nat) (listings_of : nat -> list json)
    (partial : list json) (e : exn) :
  1 <= n <= pages ->
  good_before repr_other net keyword n listings_of ->
  page_fails repr_other (net keyword n) partial e ->
  run (fetch_104_jobs repr_other net keyword pages)
  = (events_until keyword pages n
       ++ [UiError n e; UiStatusDone; UiProgressEmpty],
     Ok (flat_map listings_of (seq 1 (n - 1)) ++ partial)).
Proof.
  intros Hn Hgood Hfail.
  rewrite fetch_unfold, (pages_split n pages Hn).
  rewrite (fetch_loop_good keyword pages listings_of)
    by (intros p Hp; apply Hgood; lia).
  rewrite fetch_loop_step.
  rewrite (fetch_page_fails keyword n pages partial e _ Hfail).
  unfold events_until. cbn [job_list log app].
  rewrite <- !app_assoc. reflexivity.
Qed.

(** The pagination ends at page [n] on the test of line 53. *)
Lemma fetch_stops
    (keyword : pystr) (pages n : nat) (listings_of : nat -> list json)
    (data : json) :
  1 <= n <= pages ->
  good_before repr_other net keyword n listings_of ->
  net keyword n = Ok data -> no_more_results data = Ok true ->
  run (fetch_104_jobs repr_other net keyword pages)
  = (events_until keyword pages n ++ [UiStatusDone; UiProgressEmpty],
     Ok (flat_map listings_of (seq 1 (n - 1)))).
Proof.
  intros Hn Hgood Hnet Hstop.
  rewrite fetch_unfold, (pages_split n pages Hn).
  rewrite (fetch_loop_good keyword pages listings_of)
    by (intros p Hp; apply Hgood; lia).
  rewrite fetch_loop_step.
  rewrite (fetch_page_stops keyword n pages data _ Hnet Hstop).
  unfold events_until. cbn [job_list log app].
  rewrite <- !app_assoc. reflexivity.
Qed.

Lemma requests_app (l1 l2 : list event) :
  requests (l1 ++ l2) = requests l1 ++ requests l2.
Proof. apply flat_map_app. Qed.

Lemma errors_app (l1 l2 : list event) :
  errors (l1 ++ l2) = errors l1 ++ errors l2.
Proof. apply flat_map_app. Qed.

Lemma good_pages_observed (keyword : pystr) (pages : nat) (ps : list nat) :
  requests (flat_map (page_events keyword pages) ps) = ps
  /\ errors (flat_map (page_events keyword pages) ps) = [].
Proof.
  induction ps as [|p ps [IH1 IH2]]; [split; reflexivity|].
  cbn [flat_map]. rewrite requests_app, errors_app, IH1, IH2.
  split; reflexivity.
Qed.

Lemma seq_last (n : nat) : 1 <= n -> seq 1 n = seq 1 (n - 1) ++ [n].
Proof.
  intros Hn. replace n with ((n - 1) + 1) at 1 by lia.
  rewrite seq_app. replace (1 + (n - 1)) with n by lia. reflexivity.
Qed.

Lemma events_until_observed (keyword : pystr) (pages n : nat) :
  1 <= n ->
  requests (events_until keyword pages n) = seq 1 n
  /\ errors (events_until keyword pages n) = [].
Proof.
  intros Hn. unfold events_until.
  destruct (good_pages_observed keyword pages (seq 1 (n - 1))) as [Hr He].
  rewrite !requests_app, !errors_app, Hr, He. split; [|reflexivity].
  rewrite (seq_last n Hn). reflexivity.
Qed.

(** The loop over the pages catches whatever a page raises. *)
Lemma fetch_loop_returns (keyword : pystr) (pages : nat) (todo : list nat) :
  forall w, exists w', fetch_loop repr_other net keyword pages todo w
                       = (w', Ok tt).
Proof.
  induction todo as [|page rest IH]; intros w.
  - exists w. reflexivity.
  - rewrite fetch_loop_step.
    destruct (fetch_page repr_other net keyword page pages _)
      as [w' [[|]|e]]; eauto.
Qed.

(** X1: no exception leaves [fetch_104_jobs]: whatever the service
    answers, the call returns a list of listings. *)
Theorem fetch_returns (keyword : pystr) (pages : nat) :
  exists trace listings,
    run (fetch_104_jobs repr_other net keyword pages) = (trace, Ok listings).
Proof.
  rewrite fetch_unfold.
  destruct (fetch_loop_returns keyword pages (seq 1 pages)
              (World [] [UiProgressNew; UiStatusNew])) as [w' ->].
  eauto.
Qed.

Lemma page_fails_request (keyword : pystr) (n : nat)
    (partial : list json) (e e' : exn) :
  net keyword n = Raise e' -> page_fails repr_other (net keyword n) partial e ->
  partial = [] /\ e = e'.
Proof.
  intros Hnet H. rewrite Hnet in H.
  inversion H; subst; try discriminate. split; congruence.
Qed.

(** C2 (amended): when page [n] raises, the pages before it being good,
    the call returns, without raising, the listings of pages 1 to n-1
    followed by those built repr_other from the records of page [n] that precede the
    failing one (none when the request itself raised); the pages
    requested are exactly 1 to n, each once, and the error of page [n] is
    the only one shown. *)
Theorem fetch_error_abort
    (keyword : pystr) (pages n : nat) (listings_of : nat -> list json)
    (partial : list json) (e : exn) :
  1 <= n <= pages ->
  good_before repr_other net keyword n listings_of ->
  page_fails repr_other (net keyword n) partial e ->
  exists trace,
    run (fetch_104_jobs repr_other net keyword pages)
    = (trace, Ok (flat_map listings_of (seq 1 (n - 1)) ++ partial))
    /\ requests trace = seq 1 n
    /\ errors trace = [(n, e)]
    /\ ((exists e', net keyword n = Raise e') -> partial = []).
Proof.
  intros Hn Hgood Hfail.
  eexists. split; [apply fetch_aborts; eassumption|].
  destruct (events_until_observed keyword pages n (proj1 Hn)) as [Hr He].
  rewrite requests_app, errors_app, Hr, He.
  split; [apply app_nil_r|]. split; [reflexivity|].
  intros [e' Hnet].
  apply (page_fails_request keyword n partial e e' Hnet Hfail).
Qed.

(** C3 (amended): the pages before [n] being good, when the document of
    page [n] has no [data], or a [data] without [list], or a [data.list]
    of length 0, the pagination stops there with no error shown: the call
    returns exactly the listings of pages 1 to n-1 and the pages requested
    are exactly 1 to n.  When the document, its [data] or its [data.list]
    is null (or another value on which the test of line 53 cannot be
    made), the result and the requests are the same but the error of page
    [n], a [TypeError], is shown.  A document is of one of these two
    kinds or has a [data.list] with at least one item. *)
Theorem fetch_empty_stop
    (keyword : pystr) (pages n : nat) (listings_of : nat -> list json)
    (data : json) :
  1 <= n <= pages ->
  good_before repr_other net keyword n listings_of ->
  net keyword n = Ok data ->
  (silent_stop data ->
   exists trace,
     run (fetch_104_jobs repr_other net keyword pages)
     = (trace, Ok (flat_map listings_of (seq 1 (n - 1))))
     /\ requests trace = seq 1 n
     /\ errors trace = [])
  /\ (test_raises data ->
      exists trace,
        run (fetch_104_jobs repr_other net keyword pages)
        = (trace, Ok (flat_map listings_of (seq 1 (n - 1))))
        /\ requests trace = seq 1 n
        /\ errors trace = [(n, TypeError)])
  /\ (silent_stop data \/ test_raises data \/ has_items data).
Proof.
  intros Hn Hgood Hnet.
  destruct (events_until_observed keyword pages n (proj1 Hn)) as [Hr He].
  split; [|split].
  - intros Hstop. eexists. split.
    + apply (fetch_stops keyword pages n listings_of data Hn Hgood Hnet).
      apply silent_stop_stops. exact Hstop.
    + rewrite requests_app, errors_app, Hr, He.
      split; [apply app_nil_r | reflexivity].
  - intros Hraise. eexists. split.
    + rewrite <- (app_nil_r (flat_map listings_of (seq 1 (n - 1)))).
      apply (fetch_aborts keyword pages n listings_of [] TypeError Hn Hgood).
      apply (fails_shape repr_other (net keyword n) data TypeError Hnet).
      apply test_raises_raises. exact Hraise.
    + rewrite requests_app, errors_app, Hr, He.
      split; [apply app_nil_r | reflexivity].
  - destruct (line_53_cases data) as [[H _] | [[H _] | [H _]]]; auto.
Qed.

Lemma description_null_raises (f : list (pystr * json)) :
  Py.lookup K_DESCRIPTION f = Some JNull ->
  exists e, job_info repr_other (JObj f) = Raise e.
Proof.
  intros Hd. unfold job_info.
  destruct (skill_str (JObj f)) as [skills|e]; [|exists e; reflexivity].
  exists TypeError. cbn [rbind Py.get].
  unfold description_preview. cbn [rbind Py.get]. rewrite Hd. reflexivity.
Qed.

(** C10: the abort is not atomic per page.  When the record of page [n]
    after [pre] raises while its listing is built, the listings [partial]
    of the records [pre] stay in the returned list, after those of pages
    1 to n-1.  A record whose description is null is one that raises. *)
Theorem fetch_keeps_partial_page
    (keyword : pystr) (pages n : nat) (listings_of : nat -> list json)
    (data : json) (pre post partial : list json) (bad : json) (e : exn) :
  1 <= n <= pages ->
  good_before repr_other net keyword n listings_of ->
  net keyword n = Ok data ->
  has_listing data (pre ++ bad :: post) ->
  built repr_other pre partial ->
  job_info repr_other bad = Raise e ->
  (exists trace,
     run (fetch_104_jobs repr_other net keyword pages)
     = (trace, Ok (flat_map listings_of (seq 1 (n - 1)) ++ partial))
     /\ errors trace = [(n, e)])
  /\ List.length partial = List.length pre
  /\ (forall f, Py.lookup K_DESCRIPTION f = Some JNull ->
                exists e', job_info repr_other (JObj f) = Raise e').
Proof.
  intros Hn Hgood Hnet Hl Hpre Hbad.
  assert (Hfail : page_fails repr_other (net keyword n) partial e).
  { apply (fails_record repr_other (net keyword n) data pre bad post partial e);
      auto.
    - apply (has_listing_more data (pre ++ bad :: post) Hl).
      destruct pre; discriminate.
    - apply has_listing_items. exact Hl. }
  split; [|split].
  - eexists. split; [apply fetch_aborts; eassumption|].
    destruct (events_until_observed keyword pages n (proj1 Hn)) as [Hr He].
    rewrite errors_app, He. reflexivity.
  - symmetry. apply (Forall2_length Hpre).
  - apply description_null_raises.
Qed.

(** X2: when every page is good the pagination runs to its end: all the
    listings, in page order, every page requested once, no error. *)
Theorem fetch_exhausts
    (keyword : pystr) (pages : nat) (listings_of : nat -> list json) :
  good_before repr_other net keyword (S pages) listings_of ->
  exists trace,
    run (fetch_104_jobs repr_other net keyword pages)
    = (trace, Ok (flat_map listings_of (seq 1 pages)))
    /\ requests trace = seq 1 pages
    /\ errors trace = [].
Proof.
  intros Hgood. rewrite fetch_unfold.
  pose proof (fetch_loop_good keyword pages listings_of [] pages 1
                (World [] [UiProgressNew; UiStatusNew])) as Hloop.
  rewrite app_nil_r in Hloop.
  rewrite Hloop by (intros p Hp; apply Hgood; lia).
  cbn [fetch_loop ret job_list log].
  eexists. split; [reflexivity|].
  destruct (good_pages_observed keyword pages (seq 1 pages)) as [Hr He].
  rewrite !requests_app, !errors_app, Hr, He.
  split; [apply app_nil_r | reflexivity].
Qed.

End FetchProperties.

(* ================================================================== *)
(** * The fetcher on small services *)

Lemma page_of_listing (records : list json) :
  has_listing (page_of records) records.
Proof. exists [(K_DATA, JObj [(K_LIST, JArr records)])], [(K_LIST, JArr records)].
  repeat split.
Qed.

Lemma first_page_good
    (net : pystr -> nat -> result json) (n : nat)
    (records listings : list json) :
  n <= 2 ->
  net KEYWORD 1 = Ok (page_of records) -> records <> [] ->
  built no_repr records listings ->
  good_before no_repr net KEYWORD n (first_page_only listings).
Proof.
  intros Hn Hnet Hne Hb p Hp. assert (p = 1) by lia. subst p.
  exists (page_of records), records.
  repeat split; auto using page_of_listing.
Defined.

Lemma fetch_exhausts_witness :
  exists trace,
    run (fetch_104_jobs no_repr net_three_pages KEYWORD 3)
    = (trace,
       Ok [listing_named NAME_A; listing_named NAME_B; listing_named NAME_C;
           listing_named NAME_B])
    /\ requests trace = [1; 2; 3]
    /\ errors trace = [].
Proof.
  apply (fetch_exhausts no_repr net_three_pages KEYWORD 3
           listings_three_pages).
  intros p Hp.
  assert (Hcases : p = 1 \/ p = 2 \/ p = 3) by lia.
  destruct Hcases as [-> | [-> | ->]].
  - exists (page_of [record_named NAME_A; record_named NAME_B]),
      [record_named NAME_A; record_named NAME_B].
    repeat split; auto using page_of_listing; try discriminate.
    repeat constructor.
  - exists (page_of [record_named NAME_C]), [record_named NAME_C].
    repeat split; auto using page_of_listing; try discriminate.
    repeat constructor.
  - exists (page_of [record_named NAME_B]), [record_named NAME_B].
    repeat split; auto using page_of_listing; try discriminate.
    repeat constructor.
Defined.

Lemma fetch_error_abort_witness :
  exists trace,
    run (fetch_104_jobs no_repr net_request_fails KEYWORD 3)
    = (trace,
       Ok (flat_map (first_page_only [listing_named NAME_A;
                                      listing_named NAME_B]) (seq 1 (2 - 1))
           ++ []))
    /\ requests trace = seq 1 2
    /\ errors trace = [(2, RequestError)]
    /\ ((exists e', net_request_fails KEYWORD 2 = Raise e')
        -> @nil json = []).
Proof.
  apply (fetch_error_abort no_repr net_request_fails KEYWORD 3 2
           (first_page_only [listing_named NAME_A; listing_named NAME_B])
           [] RequestError).
  - lia.
  - apply (first_page_good net_request_fails 2
             [record_named NAME_A; record_named NAME_B]).
    + lia.
    + reflexivity.
    + discriminate.
    + repeat constructor.
  - apply fails_request. reflexivity.
Defined.

(** C2, as stated, fails: page 2 of 3 raises while its second record is
    processed, and the result is not the listings of page 1 only. *)
Lemma fetch_error_keeps_page_prefix :
  good_page no_repr (net_record_fails KEYWORD 1) [listing_named NAME_A] /\
  exists trace,
    run (fetch_104_jobs no_repr net_record_fails KEYWORD 3)
    = (trace, Ok [listing_named NAME_A; listing_named NAME_B])
    /\ requests trace = [1; 2]
    /\ errors trace = [(2, TypeError)]
    /\ [listing_named NAME_A; listing_named NAME_B] <> [listing_named NAME_A].
Proof.
  split.
  - exists (page_of [record_named NAME_A]), [record_named NAME_A].
    repeat split; auto using page_of_listing; try discriminate.
    repeat constructor.
  - eexists. split; [vm_compute; reflexivity|].
    repeat split; discriminate.
Qed.

Lemma fetch_empty_stop_witness :
  exists trace,
    run (fetch_104_jobs no_repr net_second_empty KEYWORD 3)
    = (trace,
       Ok (flat_map (first_page_only [listing_named NAME_A]) (seq 1 (2 - 1))))
    /\ requests trace = seq 1 2
    /\ errors trace = [].
Proof.
  refine (proj1 (fetch_empty_stop no_repr net_second_empty KEYWORD 3 2
                   (first_page_only [listing_named NAME_A]) (page_of [])
                   _ _ _) _).
  - lia.
  - apply (first_page_good net_second_empty 2 [record_named NAME_A]).
    + lia.
    + reflexivity.
    + discriminate.
    + repeat constructor.
  - reflexivity.
  - apply (stop_empty _ [(K_LIST, JArr [])] (JArr [])); try reflexivity.
    left. reflexivity.
Defined.

(** C3, as stated, fails: in the document of page 2 of 3 [data] is null,
    so that [data.list] is absent, and the error of page 2 is shown. *)
Lemma fetch_null_data_shows_error :
  net_second_null KEYWORD 2 = Ok (JObj [(K_DATA, JNull)])
  /\ exists trace,
       run (fetch_104_jobs no_repr net_second_null KEYWORD 3)
       = (trace, Ok [listing_named NAME_A])
       /\ requests trace = [1; 2]
       /\ errors trace = [(2, TypeError)]
       /\ errors trace <> [].
Proof.
  split; [reflexivity|].
  eexists. split; [vm_compute; reflexivity|].
  repeat split; discriminate.
Qed.

Lemma fetch_keeps_partial_page_witness :
  (exists trace,
     run (fetch_104_jobs no_repr net_record_fails KEYWORD 3)
     = (trace,
        Ok (flat_map (first_page_only [listing_named NAME_A]) (seq 1 (2 - 1))
            ++ [listing_named NAME_B]))
     /\ errors trace = [(2, TypeError)])
  /\ List.length [listing_named NAME_B] = List.length [record_named NAME_B]
  /\ (forall f, Py.lookup K_DESCRIPTION f = Some JNull ->
                exists e', job_info no_repr (JObj f) = Raise e').
Proof.
  apply (fetch_keeps_partial_page no_repr net_record_fails KEYWORD 3 2
           (first_page_only [listing_named NAME_A])
           (page_of [record_named NAME_B; record_null_description;
                     record_named NAME_C])
           [record_named NAME_B] [record_named NAME_C]
           [listing_named NAME_B] record_null_description TypeError).
  - lia.
  - apply (first_page_good net_record_fails 2 [record_named NAME_A]).
    + lia.
    + reflexivity.
    + discriminate.
    + repeat constructor.
  - reflexivity.
  - apply page_of_listing.
  - repeat constructor.
  - reflexivity.
Defined.

(* ================================================================== *)
(** * The listing built from a record *)

Lemma job_info_inv (repr_other : json -> pystr) (job info : json) :
  job_info repr_other job = Ok info ->
  exists f skills preview url,
    job = JObj f
    /\ skill_str job = Ok skills
    /\ description_preview job = Ok preview
    /\ job_url repr_other job = Ok url
    /\ info = JObj [ (COL_TITLE, field f K_JOBNAME);
                     (COL_COMPANY, field f K_CUSTNAME);
                     (COL_REGION, field f K_ADDR);
                     (COL_SALARY, field f K_SALARY);
                     (COL_EDU, field f K_EDU);
                     (COL_EXPERIENCE, field f K_PERIOD);
                     (COL_SKILLS, JStr skills);
                     (COL_DESCRIPTION, preview);
                     (COL_URL, url) ].
Proof.
  unfold job_info. intros H.
  destruct (skill_str job) as [skills|e] eqn:Hs; [|discriminate].
  destruct job as [| | | | | |f]; try discriminate.
  cbn [rbind Py.get] in H.
  destruct (description_preview (JObj f)) as [preview|e]; [|discriminate].
  destruct (job_url repr_other (JObj f)) as [url|e]; [|discriminate].
  cbn [rbind] in H. injection H as <-.
  exists f, skills, preview, url. repeat split.
Qed.

Lemma description_preview_inv (job preview : json) :
  description_preview job = Ok preview ->
  exists cut, preview = JStr (cut ++ ELLIPSIS) /\ List.length cut <= 100.
Proof.
  unfold description_preview. intros H.
  destruct (Py.get job K_DESCRIPTION (JStr [])) as [d|e]; [|discriminate].
  cbn [rbind] in H.
  destruct d as [| | | |d|l|g]; try discriminate.
  cbn [Py.slice_to rbind Py.add_str prefix] in H. injection H as <-.
  exists (firstn 100 d). split; [reflexivity | apply firstn_le_length].
Qed.

Lemma job_url_inv (repr_other : json -> pystr) (job url : json) :
  job_url repr_other job = Ok url ->
  exists text, url = JStr text /\ (text = [] \/ exists rest, text = HTTPS ++ rest).
Proof.
  unfold job_url. intros H.
  destruct (Py.get job K_LINK JNull) as [link|e]; [|discriminate].
  cbn [rbind] in H.
  destruct (Py.truthy link).
  - destruct (Py.get link K_JOB JNull) as [path|e]; [|discriminate].
    cbn [rbind] in H. injection H as <-.
    eexists. split; [reflexivity|]. right. eexists. reflexivity.
  - injection H as <-.
    eexists. split; [reflexivity|]. left. reflexivity.
Qed.

Lemma job_url_without_link
    (repr_other : json -> pystr) (f : list (pystr * json)) :
  Py.lookup K_LINK f = None ->
  job_url repr_other (JObj f) = Ok (JStr []).
Proof.
  intros Hl. unfold job_url. cbn [rbind Py.get]. rewrite Hl. reflexivity.
Qed.

Lemma skill_str_none (f : list (pystr * json)) :
  Py.lookup K_SPECIALTY f = None \/ Py.lookup K_SPECIALTY f = Some (JArr []) ->
  skill_str (JObj f) = Ok NO_REQUIREMENT.
Proof.
  intros [Hs | Hs]; unfold skill_str; cbn [rbind Py.get]; rewrite Hs;
    reflexivity.
Qed.

Lemma description_preview_absent (f : list (pystr * json)) :
  Py.lookup K_DESCRIPTION f = None ->
  description_preview (JObj f) = Ok (JStr ELLIPSIS).
Proof.
  intros Hd. unfold description_preview. cbn [rbind Py.get]. rewrite Hd.
  reflexivity.
Qed.

(** C4 (amended): a listing has all nine columns, in the order of the
    source.  Six of them hold a field of the record as it is, and [None],
    not the empty string, when the record omits the field: the title and
    the company among them.  The other three are always texts: the skills,
    "不拘" when the record has no [specialty]; the preview, "..." when it
    has no [description]; the address, empty when it has no [link]. *)
Theorem listing_columns_present
    (repr_other : json -> pystr) (job info : json) :
  job_info repr_other job = Ok info ->
  exists f fields skills preview url,
    job = JObj f /\ info = JObj fields
    /\ map fst fields = COLUMNS
    /\ Py.lookup COL_TITLE fields = Some (field f K_JOBNAME)
    /\ Py.lookup COL_COMPANY fields = Some (field f K_CUSTNAME)
    /\ (Py.lookup K_JOBNAME f = None ->
        Py.lookup COL_TITLE fields = Some JNull)
    /\ (Py.lookup K_CUSTNAME f = None ->
        Py.lookup COL_COMPANY fields = Some JNull)
    /\ Forall (fun ck =>
                 Py.lookup (fst ck) fields = Some (field f (snd ck))
                 /\ (Py.lookup (snd ck) f = None ->
                     Py.lookup (fst ck) fields = Some JNull))
         PASSED_THROUGH
    /\ Py.lookup COL_SKILLS fields = Some (JStr skills)
    /\ Py.lookup COL_DESCRIPTION fields = Some (JStr preview)
    /\ Py.lookup COL_URL fields = Some (JStr url)
    /\ (Py.lookup K_SPECIALTY f = None -> skills = NO_REQUIREMENT)
    /\ (Py.lookup K_DESCRIPTION f = None -> preview = ELLIPSIS)
    /\ (Py.lookup K_LINK f = None -> url = []).
Proof.
  intros H.
  destruct (job_info_inv repr_other job info H)
    as [f [skills [preview [url [-> [Hs [Hp [Hu ->]]]]]]]].
  destruct (description_preview_inv _ _ Hp) as [cut [-> _]].
  destruct (job_url_inv repr_other _ _ Hu) as [text [-> _]].
  exists f. eexists. exists skills, (cut ++ ELLIPSIS), text.
  split; [reflexivity|]. split; [reflexivity|].
  split; [reflexivity|]. split; [reflexivity|]. split; [reflexivity|].
  split; [unfold field; intros ->; reflexivity|].
  split; [unfold field; intros ->; reflexivity|].
  split.
  { repeat constructor; cbn [fst snd]; unfold field; intros ->; reflexivity. }
  split; [reflexivity|]. split; [reflexivity|]. split; [reflexivity|].
  split; [|split].
  - intros Hnone.
    rewrite (skill_str_none f (or_introl Hnone)) in Hs. congruence.
  - intros Hnone.
    rewrite (description_preview_absent f Hnone) in Hp. congruence.
  - intros Hnone.
    rewrite (job_url_without_link repr_other f Hnone) in Hu. congruence.
Qed.

Lemma listing_columns_present_witness :
  exists f fields skills preview url,
    JObj [(K_JOBNAME, JStr NAME_ENGINEER)] = JObj f
    /\ listing_named NAME_ENGINEER = JObj fields
    /\ map fst fields = COLUMNS
    /\ Py.lookup COL_TITLE fields = Some (field f K_JOBNAME)
    /\ Py.lookup COL_COMPANY fields = Some (field f K_CUSTNAME)
    /\ (Py.lookup K_JOBNAME f = None ->
        Py.lookup COL_TITLE fields = Some JNull)
    /\ (Py.lookup K_CUSTNAME f = None ->
        Py.lookup COL_COMPANY fields = Some JNull)
    /\ Forall (fun ck =>
                 Py.lookup (fst ck) fields = Some (field f (snd ck))
                 /\ (Py.lookup (snd ck) f = None ->
                     Py.lookup (fst ck) fields = Some JNull))
         PASSED_THROUGH
    /\ Py.lookup COL_SKILLS fields = Some (JStr skills)
    /\ Py.lookup COL_DESCRIPTION fields = Some (JStr preview)
    /\ Py.lookup COL_URL fields = Some (JStr url)
    /\ (Py.lookup K_SPECIALTY f = None -> skills = NO_REQUIREMENT)
    /\ (Py.lookup K_DESCRIPTION f = None -> preview = ELLIPSIS)
    /\ (Py.lookup K_LINK f = None -> url = []).
Proof.
  apply (listing_columns_present no_repr
           (JObj [(K_JOBNAME, JStr NAME_ENGINEER)])
           (listing_named NAME_ENGINEER)).
  reflexivity.
Defined.

(** C4, as stated, fails: the listing of a record without a name and a
    company has [None] for both, not the empty string. *)
Lemma listing_title_null_when_omitted :
  exists fields,
    (forall repr_other, job_info repr_other (JObj []) = Ok (JObj fields))
    /\ Py.lookup COL_TITLE fields = Some JNull
    /\ Py.lookup COL_COMPANY fields = Some JNull
    /\ JNull <> JStr [].
Proof.
  eexists. split; [intros repr_other; reflexivity|].
  repeat split. discriminate.
Qed.

(** The address of a listing. *)

Lemma job_url_with_path
    (repr_other : json -> pystr) (f g : list (pystr * json)) (path : pystr) :
  Py.lookup K_LINK f = Some (JObj g) ->
  Py.lookup K_JOB g = Some (JStr path) ->
  job_url repr_other (JObj f) = Ok (JStr (HTTPS ++ path)).
Proof.
  intros Hl Hj. unfold job_url. cbn [rbind Py.get]. rewrite Hl.
  destruct g as [|kv g]; [discriminate|].
  cbn [Py.truthy rbind Py.get]. rewrite Hj. reflexivity.
Qed.

(** C5 at that record: the address is the text "https:None", not the
    empty string. *)
Theorem url_of_link_without_job (repr_other : json -> pystr) :
  job_url repr_other record_link_without_job = Ok (JStr HTTPS_NONE)
  /\ exists fields,
       job_info repr_other record_link_without_job = Ok (JObj fields)
       /\ Py.lookup COL_URL fields = Some (JStr HTTPS_NONE)
       /\ HTTPS_NONE <> [].
Proof.
  split; [reflexivity|].
  eexists. split; [reflexivity|]. split; [reflexivity | discriminate].
Qed.

(** The preview of the description. *)

Lemma description_preview_str (f : list (pystr * json)) (d : pystr) :
  Py.lookup K_DESCRIPTION f = Some (JStr d) ->
  description_preview (JObj f) = Ok (JStr (firstn 100 d ++ ELLIPSIS)).
Proof.
  intros Hd. unfold description_preview. cbn [rbind Py.get].
  rewrite Hd. reflexivity.
Qed.

(** C7: for a record whose description is the string [d], the preview
    column of its listing is the first 100 characters of [d] followed by
    "...": exactly 100 characters of [d] when [d] is longer than that, all
    of [d] when it has 100 characters or fewer. *)
Theorem description_preview_truncates
    (repr_other : json -> pystr) (f : list (pystr * json)) (d : pystr)
    (info : json) :
  Py.lookup K_DESCRIPTION f = Some (JStr d) ->
  job_info repr_other (JObj f) = Ok info ->
  Py.get info COL_DESCRIPTION JNull = Ok (JStr (firstn 100 d ++ ELLIPSIS))
  /\ (100 < List.length d ->
      List.length (firstn 100 d) = 100
      /\ exists rest, rest <> [] /\ d = firstn 100 d ++ rest)
  /\ (List.length d <= 100 -> firstn 100 d ++ ELLIPSIS = d ++ ELLIPSIS).
Proof.
  intros Hd Hinfo.
  destruct (job_info_inv repr_other (JObj f) info Hinfo)
    as [f' [skills [preview [url [Hf [_ [Hp [_ ->]]]]]]]].
  rewrite (description_preview_str f d Hd) in Hp. injection Hp as <-.
  split; [reflexivity|]. split.
  - intros Hlen. split; [apply firstn_length_le; lia|].
    exists (skipn 100 d). split.
    + intros Hnil. pose proof (length_skipn 100 d) as Hs.
      rewrite Hnil in Hs. simpl in Hs. lia.
    + symmetry. apply firstn_skipn.
  - intros Hlen. rewrite firstn_all2 by exact Hlen. reflexivity.
Qed.

Lemma description_preview_truncates_witness :
  Py.get (listing_described LONG_DESCRIPTION) COL_DESCRIPTION JNull
  = Ok (JStr (firstn 100 LONG_DESCRIPTION ++ ELLIPSIS))
  /\ (100 < List.length LONG_DESCRIPTION ->
      List.length (firstn 100 LONG_DESCRIPTION) = 100
      /\ exists rest, rest <> []
                      /\ LONG_DESCRIPTION = firstn 100 LONG_DESCRIPTION ++ rest)
  /\ (List.length LONG_DESCRIPTION <= 100 ->
      firstn 100 LONG_DESCRIPTION ++ ELLIPSIS = LONG_DESCRIPTION ++ ELLIPSIS).
Proof.
  apply (description_preview_truncates no_repr
           [(K_DESCRIPTION, JStr LONG_DESCRIPTION)] LONG_DESCRIPTION
           (listing_described LONG_DESCRIPTION)).
  - reflexivity.
  - reflexivity.
Defined.

(** C8: the county of a region text is its first three characters:
    exactly three when the text has at least three, the whole text when it
    has fewer. *)
Theorem county_is_prefix (x : pystr) :
  county (JStr x) = Ok (JStr (firstn 3 x))
  /\ (3 <= List.length x ->
      List.length (firstn 3 x) = 3 /\ exists rest, x = firstn 3 x ++ rest)
  /\ (List.length x < 3 -> firstn 3 x = x).
Proof.
  split; [reflexivity|]. split.
  - intros Hlen. split; [apply firstn_length_le; exact Hlen|].
    exists (skipn 3 x). symmetry. apply firstn_skipn.
  - intros Hlen. apply firstn_all2. lia.
Qed.

Lemma county_is_prefix_witness :
  county (JStr REGION_XINYI) = Ok (JStr COUNTY_TAIPEI)
  /\ List.length COUNTY_TAIPEI = 3.
Proof.
  destruct (county_is_prefix REGION_XINYI) as [Hc [Hlong _]].
  split; [exact Hc|].
  apply Hlong. vm_compute. lia.
Defined.

(** The skills of a listing. *)

Lemma skill_str_descriptors (f : list (pystr * json)) (names : list pystr) :
  names <> [] ->
  Py.lookup K_SPECIALTY f = Some (JArr (map descriptor names)) ->
  skill_str (JObj f) = Ok (join [COMMA] names).
Proof.
  intros Hne Hs. unfold skill_str. cbn [rbind Py.get]. rewrite Hs.
  destruct names as [|n names]; [congruence|].
  cbn [map Py.truthy Py.iter rbind].
  assert (Hd : forall l, rmap (fun s => Py.getitem s K_DESCRIPTION)
                           (map descriptor l)
                         = Ok (map JStr l)).
  { induction l as [|a l IH]; [reflexivity|].
    cbn [map rmap]. rewrite IH. reflexivity. }
  change (descriptor n :: map descriptor names)
    with (map descriptor (n :: names)).
  rewrite Hd. cbn [rbind]. unfold Py.join_strs.
  assert (Hj : forall l, rmap (fun x => match x with
                                        | JStr s => Ok s
                                        | _ => Raise TypeError
                                        end) (map JStr l) = Ok l).
  { induction l as [|a l IH]; [reflexivity|].
    cbn [map rmap]. rewrite IH. reflexivity. }
  rewrite Hj. reflexivity.
Qed.

(** C9: the descriptors "Python" and "SQL" give the skills text
    "Python,SQL", whose tokens are "Python" and "SQL" in that order; an
    empty or absent descriptor list gives the text "不拘", which has no
    token.  The skills column of the listing is that text. *)
Theorem skills_join_then_split
    (repr_other : json -> pystr) (f : list (pystr * json)) :
  (Py.lookup K_SPECIALTY f
   = Some (JArr [descriptor SKILL_PYTHON; descriptor SKILL_SQL]) ->
   skill_str (JObj f) = Ok SKILLS_PYTHON_SQL)
  /\ skill_tokens SKILLS_PYTHON_SQL = [SKILL_PYTHON; SKILL_SQL]
  /\ (Py.lookup K_SPECIALTY f = None
      \/ Py.lookup K_SPECIALTY f = Some (JArr []) ->
      skill_str (JObj f) = Ok NO_REQUIREMENT)
  /\ skill_tokens NO_REQUIREMENT = []
  /\ (forall info,
        job_info repr_other (JObj f) = Ok info ->
        exists skills, skill_str (JObj f) = Ok skills
                       /\ Py.get info COL_SKILLS JNull = Ok (JStr skills)).
Proof.
  split.
  { intros Hs.
    apply (skill_str_descriptors f [SKILL_PYTHON; SKILL_SQL]);
      [discriminate | exact Hs]. }
  split; [reflexivity|].
  split; [apply skill_str_none|].
  split; [reflexivity|].
  intros info Hinfo.
  destruct (job_info_inv repr_other (JObj f) info Hinfo)
    as [f' [skills [preview [url [_ [Hs [_ [_ ->]]]]]]]].
  exists skills. split; [exact Hs | reflexivity].
Qed.

Lemma skills_join_then_split_witness :
  skill_str (JObj [(K_SPECIALTY,
                    JArr [descriptor SKILL_PYTHON; descriptor SKILL_SQL])])
  = Ok SKILLS_PYTHON_SQL
  /\ skill_str (JObj []) = Ok NO_REQUIREMENT
  /\ skill_str (JObj [(K_SPECIALTY, JArr [])]) = Ok NO_REQUIREMENT.
Proof.
  split; [|split].
  - apply (proj1 (skills_join_then_split no_repr
             [(K_SPECIALTY,
               JArr [descriptor SKILL_PYTHON; descriptor SKILL_SQL])])).
    reflexivity.
  - apply (proj1 (proj2 (proj2 (skills_join_then_split no_repr [])))).
    left. reflexivity.
  - apply (proj1 (proj2 (proj2 (skills_join_then_split no_repr
             [(K_SPECIALTY, JArr [])])))).
    right. reflexivity.
Defined.

(* ================================================================== *)
(** * Joining and splitting in general *)

Lemma split_from_token (sep : char) (tok cur rest : pystr) :
  ~ In sep tok ->
  split_from sep cur (tok ++ rest) = split_from sep (cur ++ tok) rest.
Proof.
  revert cur. induction tok as [|c tok IH]; intros cur Hnot.
  - rewrite app_nil_r. reflexivity.
  - cbn [app split_from]. unfold char_eqb.
    destruct (N.eqb_spec c sep) as [->|Hne].
    + exfalso. apply Hnot. left. reflexivity.
    + rewrite IH by (intros Hin; apply Hnot; right; exact Hin).
      rewrite <- app_assoc. reflexivity.
Qed.

(** Splitting a join gives the tokens back when none holds a comma. *)
Lemma split_join (items : list pystr) :
  items <> [] -> Forall (fun s => ~ In COMMA s) items ->
  split COMMA (join [COMMA] items) = items.
Proof.
  intros Hne H. unfold split. revert Hne.
  induction H as [|x items Hx Hitems IH]; intros Hne;
    [exfalso; apply Hne; reflexivity|].
  destruct items as [|y items].
  - cbn [join]. rewrite <- (app_nil_r x) at 1.
    rewrite split_from_token by exact Hx. reflexivity.
  - change (join [COMMA] (x :: y :: items))
      with (x ++ [COMMA] ++ join [COMMA] (y :: items)).
    rewrite split_from_token by exact Hx.
    cbn [app split_from]. unfold char_eqb. rewrite N.eqb_refl.
    rewrite IH by discriminate. reflexivity.
Qed.

Lemma skill_str_described
    (f : list (pystr * json)) (items : list json) (names : list pystr) :
  names <> [] ->
  Py.lookup K_SPECIALTY f = Some (JArr items) ->
  Forall2 describes items names ->
  skill_str (JObj f) = Ok (join [COMMA] names).
Proof.
  intros Hne Hs Hd. unfold skill_str. cbn [rbind Py.get]. rewrite Hs.
  assert (Htruthy : Py.truthy (JArr items) = true).
  { destruct Hd; [congruence | reflexivity]. }
  rewrite Htruthy. cbn [Py.iter rbind].
  assert (Hget : rmap (fun s => Py.getitem s K_DESCRIPTION) items
                 = Ok (map JStr names)).
  { clear Hne Hs Htruthy.
    induction Hd as [|item name items names [g [-> Hg]] _ IH];
      [reflexivity|].
    cbn [map rmap Py.getitem]. rewrite Hg. cbn [rbind]. rewrite IH.
    reflexivity. }
  rewrite Hget. cbn [rbind]. unfold Py.join_strs.
  assert (Hj : forall l, rmap (fun x => match x with
                                        | JStr s => Ok s
                                        | _ => Raise TypeError
                                        end) (map JStr l) = Ok l).
  { induction l as [|a l IH]; [reflexivity|].
    cbn [map rmap]. rewrite IH. reflexivity. }
  rewrite Hj. reflexivity.
Qed.

(** X4: the tokens of the skills text of a record are the descriptions
    of the items of its [specialty], whatever else the items hold, when
    the descriptions hold no comma and their join is neither empty nor
    "不拘". *)
Theorem skill_tokens_round_trip
    (f : list (pystr * json)) (items : list json) (names : list pystr) :
  names <> [] -> Forall (fun s => ~ In COMMA s) names ->
  join [COMMA] names <> [] -> join [COMMA] names <> NO_REQUIREMENT ->
  Py.lookup K_SPECIALTY f = Some (JArr items) ->
  Forall2 describes items names ->
  exists skills, skill_str (JObj f) = Ok skills /\ skill_tokens skills = names.
Proof.
  intros Hne Hcomma Hnonempty Hnot Hs Hd.
  exists (join [COMMA] names).
  split; [apply (skill_str_described f items names); assumption|].
  unfold skill_tokens.
  destruct (join [COMMA] names) as [|c s] eqn:Ej; [congruence|].
  cbn [Py.truthy andb].
  destruct (PyStr.eqb (c :: s) NO_REQUIREMENT) eqn:Eq.
  - apply pystr_eqb_eq in Eq. congruence.
  - cbn [negb]. rewrite <- Ej. apply split_join; assumption.
Qed.

Lemma skill_tokens_round_trip_witness :
  exists skills,
    skill_str (JObj [(K_SPECIALTY,
                      JArr [item_python; descriptor SKILL_SQL])])
    = Ok skills
    /\ skill_tokens skills = [SKILL_PYTHON; SKILL_SQL].
Proof.
  apply (skill_tokens_round_trip
           [(K_SPECIALTY, JArr [item_python; descriptor SKILL_SQL])]
           [item_python; descriptor SKILL_SQL]
           [SKILL_PYTHON; SKILL_SQL]).
  - discriminate.
  - repeat constructor; vm_compute; intuition discriminate.
  - discriminate.
  - discriminate.
  - reflexivity.
  - repeat constructor; eexists; split; reflexivity.
Defined.

(** Without the guard a lone empty descriptor would be lost: its join
    is the empty text, which line 187 skips. *)
Lemma skill_tokens_empty_descriptor :
  skill_str (JObj [(K_SPECIALTY, JArr [descriptor []])]) = Ok []
  /\ skill_tokens [] = [].
Proof. split; reflexivity. Qed.

(* ================================================================== *)
(** * Every page is good, stops the pagination, or fails *)

Lemma built_or_raises (repr_other : json -> pystr) (records : list json) :
  (exists listings, built repr_other records listings)
  \/ (exists pre bad post partial e,
        records = pre ++ bad :: post
        /\ built repr_other pre partial
        /\ job_info repr_other bad = Raise e).
Proof.
  induction records as [|r records IH].
  - left. exists []. constructor.
  - destruct (job_info repr_other r) as [l|e] eqn:Hr.
    + destruct IH as [[listings Hb]
                     | [pre [bad [post [partial [e [-> [Hb Hbad]]]]]]]].
      * left. exists (l :: listings). constructor; assumption.
      * right. exists (r :: pre), bad, post, (l :: partial), e.
        repeat split; auto. constructor; assumption.
    + right. exists [], r, records, [], e. repeat split; auto. constructor.
Qed.

Lemma more_results_inv (data : json) :
  no_more_results data = Ok false ->
  exists f g jobs items,
    data = JObj f /\ Py.lookup K_DATA f = Some (JObj g)
    /\ Py.lookup K_LIST g = Some jobs
    /\ Py.iter jobs = Ok items /\ items <> []
    /\ (forall records, jobs = JArr records -> items = records)
    /\ ((forall records, jobs <> JArr records) ->
        exists s rest, items = JStr s :: rest).
Proof.
  unfold no_more_results. intros H.
  destruct data as [| | | |s|l|f]; try discriminate.
  - cbn [Py.contains_str rbind] in H.
    destruct (contains K_DATA s); discriminate.
  - cbn [Py.contains_str rbind] in H.
    destruct (existsb _ l); discriminate.
  - cbn [Py.contains_str Py.getitem rbind] in H.
    destruct (Py.lookup K_DATA f) as [inner|] eqn:Hd; [|discriminate].
    cbn [negb rbind] in H.
    destruct inner as [| | | |s|l|g]; try discriminate.
    + cbn [Py.contains_str rbind] in H.
      destruct (contains K_LIST s); discriminate.
    + cbn [Py.contains_str rbind] in H.
      destruct (existsb _ l); discriminate.
    + cbn [Py.contains_str Py.getitem rbind] in H.
      destruct (Py.lookup K_LIST g) as [jobs|] eqn:Hl; [|discriminate].
      cbn [negb rbind] in H.
      exists f, g, jobs.
      destruct jobs as [| | | |s|l|h]; try discriminate;
        cbn [Py.len rbind] in H.
      * destruct s as [|c s]; [discriminate|].
        exists (map (fun c => JStr [c]) (c :: s)).
        repeat split; auto; try discriminate.
        intros _. simpl. eauto.
      * destruct l as [|r l]; [discriminate|].
        exists (r :: l). repeat split; auto; try discriminate.
        -- intros records [= <-]. reflexivity.
        -- intros Hno. exfalso. apply (Hno (r :: l)). reflexivity.
      * destruct h as [|[k v] h]; [discriminate|].
        exists (map (fun kv => JStr (fst kv)) ((k, v) :: h)).
        repeat split; auto; try discriminate.
        intros _. simpl. eauto.
Qed.

Lemma job_info_of_str (repr_other : json -> pystr) (s : pystr) :
  job_info repr_other (JStr s) = Raise AttributeError.
Proof. reflexivity. Qed.

Lemma page_outcomes (repr_other : json -> pystr) (resp : result json) :
  (exists listings, good_page repr_other resp listings)
  \/ (exists data, resp = Ok data /\ no_more_results data = Ok true)
  \/ (exists partial e, page_fails repr_other resp partial e).
Proof.
  destruct resp as [data|e].
  2:{ right. right. exists [], e. apply fails_request. reflexivity. }
  destruct (no_more_results data) as [[|]|e] eqn:Hstop.
  - right. left. exists data. auto.
  - destruct (more_results_inv data Hstop)
      as [f [g [jobs [items [-> [Hd [Hl [Hit [Hne [Harr Hstr]]]]]]]]]].
    assert (Hitems : page_items (JObj f) = Ok items).
    { unfold page_items. cbn [Py.getitem rbind]. rewrite Hd.
      cbn [Py.getitem rbind]. rewrite Hl. exact Hit. }
    destruct (built_or_raises repr_other items)
      as [[listings Hb] | [pre [bad [post [partial [e [Hsplit [Hb Hbad]]]]]]]].
    + destruct jobs as [| | | |s|records|h].
      1-4: discriminate.
      2:{ left. exists listings, (JObj f), records.
          rewrite (Harr records eq_refl) in *.
          repeat split; auto. exists f, g. auto. }
      all: destruct Hstr as [s' [rest ->]]; [intros; discriminate|];
        inversion Hb; subst; discriminate.
    + right. right. exists partial, e.
      apply (fails_record repr_other (Ok (JObj f)) (JObj f) pre bad post
               partial e); auto.
      rewrite <- Hsplit. exact Hitems.
  - right. right. exists [], e.
    apply (fails_shape repr_other (Ok data) data e); auto.
Qed.

(** X3: a page is processed to its end, or ends the pagination through
    the test of line 53, or raises; [good_page] and [page_fails] leave no
    response out. *)
Theorem page_outcome_total (repr_other : json -> pystr) (resp : result json) :
  (exists listings, good_page repr_other resp listings)
  \/ (exists data, resp = Ok data /\ no_more_results data = Ok true)
  \/ (exists partial e, page_fails repr_other resp partial e).
Proof. exact (page_outcomes repr_other resp). Qed.

(** Documents that are not of the expected shape: an object whose
    [data] is null, or whose [data.list] is null, raises in the test of
    line 53; an object whose [data] is an empty array ends the pagination
    like a missing key does. *)
Lemma unexpected_shapes :
  no_more_results (JObj [(K_DATA, JNull)]) = Raise TypeError
  /\ no_more_results (JObj [(K_DATA, JObj [(K_LIST, JNull)])]) = Raise TypeError
  /\ no_more_results JNull = Raise TypeError
  /\ no_more_results (JObj [(K_DATA, JArr [])]) = Ok true
  /\ no_more_results (JArr []) = Ok true.
Proof. repeat split. Qed.
(* ================================================================== *)
(** * The fetcher against any service *)

Lemma stops_silently (data : json) :
  no_more_results data = Ok true -> silent_stop data.
Proof.
  intros H.
  destruct (line_53_cases data) as [[Hs _] | [[_ E] | [_ E]]];
    [exact Hs | congruence | congruence].
Qed.

Section AnyService.

Variable repr_other : json -> pystr.
Variable net : pystr -> nat -> result json.

Lemma job_info_shape (job info : json) :
  job_info repr_other job = Ok info -> listing_shape info.
Proof.
  intros H.
  destruct (job_info_inv repr_other job info H)
    as [f [skills [preview [url [-> [_ [Hp [Hu ->]]]]]]]].
  destruct (description_preview_inv _ _ Hp) as [cut [-> Hcut]].
  destruct (job_url_inv repr_other _ _ Hu) as [text [-> Htext]].
  do 9 eexists. split; [reflexivity|]. split; assumption.
Qed.

Lemma built_shapes (records listings : list json) :
  built repr_other records listings -> Forall listing_shape listings.
Proof.
  induction 1 as [|r l records listings Hr _ IH]; constructor;
    [exact (job_info_shape r l Hr) | exact IH].
Qed.

(** One page, whatever the service answers. *)
Lemma fetch_page_cases (keyword : pystr) (page pages : nat) (w : world) :
  exists added,
    Forall listing_shape added
    /\ (fetch_page repr_other net keyword page pages w
        = (World (job_list w ++ added)
             (log w ++ [HttpGet keyword page; UiProgress page pages; Sleep]),
           Ok Next)
        \/ (added = []
            /\ fetch_page repr_other net keyword page pages w
               = (World (job_list w ++ added)
                    (log w ++ [HttpGet keyword page]), Ok Break))
        \/ exists e,
             fetch_page repr_other net keyword page pages w
             = (World (job_list w ++ added)
                  (log w ++ [HttpGet keyword page]), Raise e)).
Proof.
  destruct (page_outcomes repr_other (net keyword page))
    as [[listings Hgood] | [[data [Hnet Hstop]] | [partial [e Hfail]]]].
  - exists listings. split.
    + destruct Hgood as [data [records [_ [_ [_ Hb]]]]].
      exact (built_shapes records listings Hb).
    + left. apply fetch_page_good. exact Hgood.
  - exists []. split; [constructor|]. right. left. split; [reflexivity|].
    rewrite app_nil_r.
    apply (fetch_page_stops repr_other net keyword page pages data w Hnet Hstop).
  - exists partial. split.
    + inversion Hfail; subst; try constructor.
      eapply built_shapes; eassumption.
    + right. right. exists e. apply fetch_page_fails. exact Hfail.
Qed.

Lemma fetch_loop_shape (keyword : pystr) (pages : nat) (k : nat) :
  forall (start : nat) (w : world),
    start + k = S pages ->
    exists j added tail,
      fetch_loop repr_other net keyword pages (seq start k) w
      = (World (job_list w ++ added)
           (log w ++ flat_map (page_events keyword pages) (seq start j)
                  ++ tail),
         Ok tt)
      /\ Forall listing_shape added
      /\ run_end keyword pages (start + j) tail.
Proof.
  induction k as [|k IH]; intros start w Hk.
  - exists 0, [], []. cbn [seq fetch_loop flat_map app ret].
    rewrite !app_nil_r. split; [destruct w; reflexivity|].
    split; [constructor|]. apply end_exhausted. lia.
  - cbn [seq]. rewrite fetch_loop_step.
    destruct (fetch_page_cases keyword start pages
                (World (job_list w) (log w ++ [UiStatus start pages])))
      as [added [Hshape [Hnext | [[-> Hbreak] | [e Hraise]]]]];
      cbn [job_list log] in *.
    + rewrite Hnext.
      destruct (IH (S start)
                  (World (job_list w ++ added)
                     ((log w ++ [UiStatus start pages])
                      ++ [HttpGet keyword start; UiProgress start pages; Sleep])))
        as [j [more [tail [Hloop [Hmore Hend]]]]]; [lia|].
      exists (S j), (added ++ more), tail. rewrite Hloop.
      cbn [job_list log seq flat_map page_events].
      split; [rewrite <- !app_assoc; reflexivity|].
      split; [apply Forall_app; auto|].
      replace (start + S j) with (S start + j) by lia. exact Hend.
    + rewrite Hbreak. exists 0, [], [UiStatus start pages; HttpGet keyword start].
      cbn [job_list log seq flat_map app].
      split; [rewrite <- !app_assoc; reflexivity|].
      split; [constructor|].
      replace (start + 0) with start by lia. apply end_no_more. lia.
    + rewrite Hraise.
      exists 0, added,
        [UiStatus start pages; HttpGet keyword start; UiError start e].
      cbn [job_list log seq flat_map app].
      split; [rewrite <- !app_assoc; reflexivity|].
      split; [exact Hshape|].
      replace (start + 0) with start by lia. apply end_error. lia.
Qed.

(** X5: whatever the service answers, a call goes through the pages in
    order: it processes pages 1 to [j] to their end, each with its status
    line, its request, its progress update and its pause, and then either
    the pages are exhausted, or page [j + 1] ends the pagination, silently
    or with the one error shown; the two closing updates follow. *)
Theorem fetch_trace_shape (keyword : pystr) (pages : nat) :
  exists j rows tail,
    run (fetch_104_jobs repr_other net keyword pages)
    = ([UiProgressNew; UiStatusNew]
         ++ flat_map (page_events keyword pages) (seq 1 j)
         ++ tail ++ [UiStatusDone; UiProgressEmpty],
       Ok rows)
    /\ j <= pages
    /\ run_end keyword pages (S j) tail.
Proof.
  rewrite fetch_unfold.
  destruct (fetch_loop_shape keyword pages pages 1
              (World [] [UiProgressNew; UiStatusNew]))
    as [j [added [tail [Hloop [_ Hend]]]]]; [lia|].
  rewrite Hloop. cbn [job_list log].
  exists j, added, tail. split; [rewrite <- !app_assoc; reflexivity|].
  split; [|exact Hend].
  inversion Hend; lia.
Qed.

(** X6: whatever the service answers, every row of the result has the
    nine columns, a text for the skills, a preview of at most 100
    characters followed by "...", and an address that is empty or starts
    with "https:". *)
Theorem fetch_rows_shape (keyword : pystr) (pages : nat) :
  exists trace rows,
    run (fetch_104_jobs repr_other net keyword pages) = (trace, Ok rows)
    /\ Forall listing_shape rows.
Proof.
  rewrite fetch_unfold.
  destruct (fetch_loop_shape keyword pages pages 1
              (World [] [UiProgressNew; UiStatusNew]))
    as [j [added [tail [Hloop [Hshape _]]]]]; [lia|].
  rewrite Hloop. cbn [job_list log]. eauto.
Qed.

Lemma good_pages_pauses (keyword : pystr) (pages : nat) (ps : list nat) :
  pauses (flat_map (page_events keyword pages) ps) = List.length ps
  /\ keywords (flat_map (page_events keyword pages) ps)
     = map (fun _ => keyword) ps.
Proof.
  unfold pauses, keywords.
  induction ps as [|p ps [IH1 IH2]]; [split; reflexivity|].
  cbn [flat_map page_events]. rewrite filter_app, length_app, IH1.
  rewrite flat_map_app, IH2. split; reflexivity.
Qed.

(** The loop from page [start] on: the pages up to some page are good,
    and then the pages are exhausted, or the next page stops the
    pagination silently, or it fails. *)
Lemma fetch_loop_outcome (keyword : pystr) (pages : nat) (k : nat) :
  forall (start : nat) (w : world),
    start + k = S pages ->
    exists j added tail,
      fetch_loop repr_other net keyword pages (seq start k) w
      = (World (job_list w ++ added)
           (log w ++ flat_map (page_events keyword pages) (seq start j)
                  ++ tail),
         Ok tt)
      /\ (forall p, start <= p < start + j ->
            exists listings, good_page repr_other (net keyword p) listings)
      /\ ((start + j = S pages /\ tail = [])
          \/ (start + j <= pages
              /\ (exists data, net keyword (start + j) = Ok data
                               /\ silent_stop data)
              /\ tail = [UiStatus (start + j) pages;
                         HttpGet keyword (start + j)])
          \/ (start + j <= pages
              /\ exists partial e,
                   page_fails repr_other (net keyword (start + j)) partial e
                   /\ tail = [UiStatus (start + j) pages;
                              HttpGet keyword (start + j);
                              UiError (start + j) e])).
Proof.
  induction k as [|k IH]; intros start w Hk.
  - exists 0, [], []. cbn [seq fetch_loop flat_map app ret].
    rewrite !app_nil_r. split; [destruct w; reflexivity|].
    split; [intros p Hp; lia|]. left. split; [lia | reflexivity].
  - cbn [seq]. rewrite fetch_loop_step.
    destruct (page_outcomes repr_other (net keyword start))
      as [[listings Hgood] | [[data [Hnet Hstop]] | [partial [e Hfail]]]].
    + rewrite (fetch_page_good repr_other net keyword start pages listings
                 _ Hgood).
      cbn [job_list log].
      destruct (IH (S start)
                  (World (job_list w ++ listings)
                     ((log w ++ [UiStatus start pages])
                      ++ [HttpGet keyword start; UiProgress start pages; Sleep])))
        as [j [more [tail [Hloop [Hpages Hend]]]]]; [lia|].
      exists (S j), (listings ++ more), tail. rewrite Hloop.
      cbn [job_list log seq flat_map page_events].
      split; [rewrite <- !app_assoc; reflexivity|].
      split.
      * intros p Hp. destruct (Nat.eq_dec p start) as [->|Hne].
        -- exists listings. exact Hgood.
        -- apply Hpages. lia.
      * replace (start + S j) with (S start + j) by lia. exact Hend.
    + rewrite (fetch_page_stops repr_other net keyword start pages data
                 _ Hnet Hstop).
      cbn [job_list log].
      exists 0, [], [UiStatus start pages; HttpGet keyword start].
      cbn [seq flat_map app]. rewrite Nat.add_0_r.
      split; [rewrite app_nil_r, <- !app_assoc; reflexivity|].
      split; [intros p Hp; lia|].
      right. left. split; [lia|]. split; [|reflexivity].
      exists data. split; [exact Hnet | apply stops_silently; exact Hstop].
    + rewrite (fetch_page_fails repr_other net keyword start pages partial e
                 _ Hfail).
      cbn [job_list log].
      exists 0, partial,
        [UiStatus start pages; HttpGet keyword start; UiError start e].
      cbn [seq flat_map app]. rewrite Nat.add_0_r.
      split; [rewrite <- !app_assoc; reflexivity|].
      split; [intros p Hp; lia|].
      right. right. split; [lia|]. exists partial, e. split; [exact Hfail|].
      reflexivity.
Qed.

Lemma good_page_not_silent (data : json) (listings : list json) :
  silent_stop data -> ~ good_page repr_other (Ok data) listings.
Proof.
  intros Hs [d [records [Heq [Hl [Hne _]]]]]. injection Heq as <-.
  pose proof (has_listing_more data records Hl Hne) as Hmore.
  rewrite (silent_stop_stops data Hs) in Hmore. discriminate.
Qed.

Lemma good_page_not_failed
    (resp : result json) (partial : list json) (e : exn)
    (listings : list json) :
  page_fails repr_other resp partial e -> ~ good_page repr_other resp listings.
Proof.
  intros Hf [d [records [Heq [Hl [Hne Hb]]]]].
  destruct Hf as [e Hr | data e Hr Hshape
                  | data pre bad post partial e Hr Hmore Hitems Hpre Hbad];
    rewrite Hr in Heq; [discriminate | |]; injection Heq as <-.
  - rewrite (has_listing_more data records Hl Hne) in Hshape. discriminate.
  - rewrite (has_listing_items data records Hl) in Hitems.
    injection Hitems as ->.
    apply Forall2_app_inv_l in Hb.
    destruct Hb as [l1 [l2 [_ [Hb _]]]].
    inversion Hb as [|? l ? ? Hok _]; subst.
    rewrite Hok in Hbad. discriminate.
Qed.

(** X7: whatever the service answers, the pages requested are 1 to [k]
    for some [k] up to the page count, in order and each once, all with
    the keyword of the call, and the call ends in one of three ways.  The
    pages are exhausted: [k] is the page count, the pages 1 to [k] are all
    good, no error is shown and the pauses number [k], one after every
    page, the last included.  Or page [k] stops the pagination silently:
    the pages before it are good, its document passes the test of line 53,
    no error is shown and the pauses number [k - 1].  Or page [k] fails:
    the pages before it are good, its one error is shown and the pauses
    number [k - 1].  A page that stops the pagination or fails is not a
    good page, so that the answers of the service tell the three apart. *)
Theorem fetch_requests_in_order (keyword : pystr) (pages : nat) :
  (exists trace rows k,
     run (fetch_104_jobs repr_other net keyword pages) = (trace, Ok rows)
     /\ k <= pages
     /\ requests trace = seq 1 k
     /\ keywords trace = map (fun _ => keyword) (seq 1 k)
     /\ ((k = pages
          /\ good_through repr_other net keyword k
          /\ errors trace = [] /\ pauses trace = k)
         \/ (1 <= k
             /\ good_through repr_other net keyword (k - 1)
             /\ (exists data, net keyword k = Ok data /\ silent_stop data)
             /\ errors trace = [] /\ S (pauses trace) = k)
         \/ (1 <= k
             /\ good_through repr_other net keyword (k - 1)
             /\ (exists partial e,
                   page_fails repr_other (net keyword k) partial e
                   /\ errors trace = [(k, e)])
             /\ S (pauses trace) = k)))
  /\ (forall data listings,
        silent_stop data -> ~ good_page repr_other (Ok data) listings)
  /\ (forall resp partial e listings,
        page_fails repr_other resp partial e ->
        ~ good_page repr_other resp listings).
Proof.
  split; [|split; [exact good_page_not_silent | exact good_page_not_failed]].
  rewrite fetch_unfold.
  destruct (fetch_loop_outcome keyword pages pages 1
              (World [] [UiProgressNew; UiStatusNew]))
    as [j [rows [tail [Hloop [Hpages Hend]]]]]; [lia|].
  rewrite Hloop. cbn [job_list log]. rewrite <- !app_assoc.
  destruct (good_pages_observed keyword pages (seq 1 j)) as [Hr He].
  destruct (good_pages_pauses keyword pages (seq 1 j)) as [Hp Hk].
  rewrite length_seq in Hp.
  assert (Hreq : forall l1 l2, requests (l1 ++ l2) = requests l1 ++ requests l2)
    by (intros; apply flat_map_app).
  assert (Herr : forall l1 l2, errors (l1 ++ l2) = errors l1 ++ errors l2)
    by (intros; apply flat_map_app).
  assert (Hkw : forall l1 l2, keywords (l1 ++ l2) = keywords l1 ++ keywords l2)
    by (intros; apply flat_map_app).
  assert (Hpa : forall l1 l2, pauses (l1 ++ l2) = pauses l1 + pauses l2)
    by (intros; unfold pauses; rewrite filter_app, length_app; reflexivity).
  assert (Hgood : good_through repr_other net keyword j).
  { intros p Hp'. apply Hpages. lia. }
  destruct Hend as [[Hj ->] | [[Hj [Hdata ->]] | [Hj [partial [e [Hfail ->]]]]]].
  - eexists. exists rows, j. split; [reflexivity|].
    rewrite !Hreq, !Herr, !Hkw, !Hpa, Hr, He, Hk, Hp. cbn.
    rewrite !app_nil_r, Nat.add_0_r.
    split; [lia|]. split; [reflexivity|]. split; [reflexivity|].
    left. repeat split; try reflexivity; [lia | exact Hgood].
  - eexists. exists rows, (S j). split; [reflexivity|].
    rewrite !Hreq, !Herr, !Hkw, !Hpa, Hr, He, Hk, Hp. cbn -[seq].
    rewrite Nat.add_0_r, seq_S, map_app.
    split; [lia|]. split; [reflexivity|]. split; [reflexivity|].
    right. left. split; [lia|].
    rewrite ?Nat.sub_0_r. split; [exact Hgood|].
    split; [exact Hdata|]. split; reflexivity.
  - eexists. exists rows, (S j). split; [reflexivity|].
    rewrite !Hreq, !Herr, !Hkw, !Hpa, Hr, He, Hk, Hp. cbn -[seq].
    rewrite Nat.add_0_r, seq_S, map_app.
    split; [lia|]. split; [reflexivity|]. split; [reflexivity|].
    right. right. split; [lia|].
    rewrite ?Nat.sub_0_r. split; [exact Hgood|].
    split; [|reflexivity].
    exists partial, e. split; [exact Hfail | reflexivity].
Qed.

End AnyService.

(* ================================================================== *)
(** * The records that build a listing *)

Lemma descriptors_join (items : list json) :
  Forall is_descriptor items ->
  exists names,
    rmap (fun s => Py.getitem s K_DESCRIPTION) items = Ok (map JStr names)
    /\ Py.join_strs [COMMA] (map JStr names) = Ok (join [COMMA] names).
Proof.
  intros H.
  assert (Hn : exists names,
             rmap (fun s => Py.getitem s K_DESCRIPTION) items
             = Ok (map JStr names)).
  { induction H as [|item items [g [s [-> Hs]]] _ [names IH]].
    - exists []. reflexivity.
    - exists (s :: names). cbn [rmap Py.getitem]. rewrite Hs.
      cbn [rbind]. rewrite IH. reflexivity. }
  destruct Hn as [names Hn]. exists names. split; [exact Hn|].
  unfold Py.join_strs.
  assert (Hj : forall l, rmap (fun x => match x with
                                        | JStr s => Ok s
                                        | _ => Raise TypeError
                                        end) (map JStr l) = Ok l).
  { induction l as [|a l IH]; [reflexivity|].
    cbn [map rmap]. rewrite IH. reflexivity. }
  rewrite Hj. reflexivity.
Qed.

Lemma join_strs_inv (descs : list json) (text : pystr) :
  Py.join_strs [COMMA] descs = Ok text ->
  Forall (fun d => exists s, d = JStr s) descs.
Proof.
  unfold Py.join_strs. revert text.
  induction descs as [|d descs IH]; intros text H; [constructor|].
  cbn [rmap] in H.
  destruct d as [| | | |s|l|g]; try discriminate.
  cbn [rbind] in H.
  destruct (rmap _ descs) as [strs|e] eqn:E; [|discriminate].
  constructor; [eauto|].
  apply (IH (join [COMMA] strs)). reflexivity.
Qed.

Lemma descriptors_inv (items descs : list json) :
  rmap (fun s => Py.getitem s K_DESCRIPTION) items = Ok descs ->
  Forall (fun d => exists s, d = JStr s) descs ->
  Forall is_descriptor items.
Proof.
  revert descs. induction items as [|item items IH]; intros descs H Hd;
    [constructor|].
  cbn [rmap] in H.
  destruct (Py.getitem item K_DESCRIPTION) as [d|e] eqn:Ed; [|discriminate].
  cbn [rbind] in H.
  destruct (rmap _ items) as [ds|e] eqn:E; [|discriminate].
  injection H as <-. inversion Hd as [|d' ds' [s ->] Hds]; subst.
  constructor; [|apply (IH ds); auto].
  destruct item as [| | | | | |g]; try discriminate.
  cbn [Py.getitem] in Ed.
  destruct (Py.lookup K_DESCRIPTION g) as [v|] eqn:El; [|discriminate].
  injection Ed as ->. exists g, s. auto.
Qed.

Lemma skill_str_ok_iff (f : list (pystr * json)) :
  (exists text, skill_str (JObj f) = Ok text) <-> specialty_ok f.
Proof.
  unfold skill_str, specialty_ok. cbn [rbind Py.get].
  destruct (Py.lookup K_SPECIALTY f) as [sp|].
  2:{ cbn [Py.truthy]. split; [trivial | eauto]. }
  destruct (Py.truthy sp) eqn:Et.
  2:{ split; [auto | eauto]. }
  split.
  - intros [text H]. right.
    destruct (Py.iter sp) as [items|e] eqn:Ei; [|discriminate].
    cbn [rbind] in H.
    destruct (rmap _ items) as [descs|e] eqn:Er; [|discriminate].
    cbn [rbind] in H.
    pose proof (descriptors_inv items descs Er (join_strs_inv descs text H))
      as Hitems.
    destruct sp as [| | | |s|l|g]; try discriminate.
    + destruct s as [|c s]; [discriminate|].
      injection Ei as <-. inversion Hitems as [|x xs [g [s' [Hx _]]] _].
      discriminate.
    + injection Ei as <-. eauto.
    + destruct g as [|[k v] g]; [discriminate|].
      injection Ei as <-. inversion Hitems as [|x xs [g' [s' [Hx _]]] _].
      discriminate.
  - intros [Hf | [items [-> Hitems]]]; [congruence|].
    cbn [Py.iter rbind].
    destruct (descriptors_join items Hitems) as [names [Hr Hj]].
    rewrite Hr. cbn [rbind]. rewrite Hj. eauto.
Qed.

Lemma description_preview_ok_iff (f : list (pystr * json)) :
  (exists preview, description_preview (JObj f) = Ok preview)
  <-> description_ok f.
Proof.
  unfold description_preview, description_ok. cbn [rbind Py.get].
  destruct (Py.lookup K_DESCRIPTION f) as [v|].
  2:{ cbn. split; [trivial | eauto]. }
  split.
  - intros [preview H]. destruct v as [| | | |d|l|g]; try discriminate.
    eauto.
  - intros [d ->]. cbn. eauto.
Qed.

Lemma job_url_ok_iff (repr_other : json -> pystr) (f : list (pystr * json)) :
  (exists url, job_url repr_other (JObj f) = Ok url) <-> link_ok f.
Proof.
  unfold job_url, link_ok. cbn [rbind Py.get].
  destruct (Py.lookup K_LINK f) as [link|].
  2:{ cbn. split; [trivial | eauto]. }
  destruct (Py.truthy link) eqn:Et.
  2:{ split; [auto | eauto]. }
  split.
  - intros [url H]. right.
    destruct link as [| | | | | |g]; try discriminate. eauto.
  - intros [Hf | [g ->]]; [congruence|]. cbn [Py.get rbind]. eauto.
Qed.

(** X8: a listing is built from a record, without an exception, exactly
    when the record is an object, its [specialty] (if present and truthy)
    is a list of objects that each have a text under [description], its
    [description] (if present) is a text, and its [link] (if present and
    truthy) is an object.  Any other record raises, and so ends the
    pagination at its page. *)
Theorem job_info_builds_iff (repr_other : json -> pystr) (job : json) :
  (exists info, job_info repr_other job = Ok info) <-> record_ok job.
Proof.
  split.
  - intros [info H].
    destruct (job_info_inv repr_other job info H)
      as [f [skills [preview [url [-> [Hs [Hp [Hu _]]]]]]]].
    exists f. split; [reflexivity|].
    split; [apply skill_str_ok_iff; eauto|].
    split; [apply description_preview_ok_iff; eauto|].
    apply (job_url_ok_iff repr_other). eauto.
  - intros [f [-> [Hs [Hd Hl]]]].
    apply skill_str_ok_iff in Hs. destruct Hs as [skills Hs].
    apply description_preview_ok_iff in Hd. destruct Hd as [preview Hd].
    apply (job_url_ok_iff repr_other) in Hl. destruct Hl as [url Hl].
    unfold job_info. rewrite Hs. cbn [rbind Py.get]. rewrite Hd.
    cbn [rbind]. rewrite Hl. cbn [rbind]. eauto.
Qed.


(* ================================================================== *)
(** * The parser on texts with digit runs of ordinary length *)

Section QuotientsInRange.

Local Open Scope Z_scope.

(** Rounding a mantissa of 54 bits or more stays finite as long as the
    value is below 2^1023. *)
Lemma round_in_range (q : positive) (e : Z) (l : location) :
  54 <= Zdigits2 (Zpos q) -> -1 <= e -> Zdigits2 (Zpos q) + e <= 1023 ->
  exists m e', binary_round_aux 53 1024 false (Zpos q) e l
               = S754_finite false m e'.
Proof.
  intros Hd He Hmax.
  pose proof (Zdigits2_spec q) as Hq.
  set (d := Zdigits2 (Zpos q)) in *.
  unfold binary_round_aux, shr_fexp. fold d.
  replace (fexp 53 1024 (d + e) - e) with (d - 53) by (unfold fexp, emin; lia).
  destruct (d - 53) as [|jp|jp] eqn:Ej; try lia.
  cbn [shr].
  set (r1 := iter_pos shr_1 jp (shr_record_of_loc (Zpos q) l)).
  assert (Hm1 : shr_m r1 = Zpos q / 2 ^ Zpos jp).
  { unfold r1. rewrite shr_floor.
    - destruct l as [|[| |]]; reflexivity.
    - destruct l as [|[| |]]; cbn; lia. }
  assert (Hr1 : 2 ^ 52 <= shr_m r1 < 2 ^ 53).
  { rewrite Hm1.
    assert (Hp : 0 < 2 ^ Zpos jp) by (apply Z.pow_pos_nonneg; lia).
    assert (Hs : 2 ^ (d - 1) = 2 ^ 52 * 2 ^ Zpos jp).
    { rewrite <- Z.pow_add_r by lia. f_equal. lia. }
    assert (Hs' : 2 ^ d = 2 ^ 53 * 2 ^ Zpos jp).
    { rewrite <- Z.pow_add_r by lia. f_equal. lia. }
    split.
    - apply Z.div_le_lower_bound; lia.
    - apply Z.div_lt_upper_bound; lia. }
  pose proof (round_nearest_even_bounds (shr_m r1) (loc_of_shr_record r1)) as Hb.
  set (m2 := round_nearest_even (shr_m r1) (loc_of_shr_record r1)) in *.
  assert (Hcase : Zdigits2 m2 = 53 \/ m2 = 2 ^ 53).
  { destruct (Z.eq_dec m2 (2 ^ 53)) as [|Hne]; [right; assumption|].
    left. apply Zdigits2_unique; lia. }
  destruct Hcase as [Hd2 | Hm2].
  - rewrite Hd2.
    replace (fexp 53 1024 (53 + (e + Zpos jp)) - (e + Zpos jp)) with 0
      by (unfold fexp, emin; lia).
    cbn [shr shr_record_of_loc shr_m].
    destruct m2 as [|p2|p2]; try lia.
    replace (e + Zpos jp <=? 1024 - 53) with true
      by (symmetry; apply Z.leb_le; lia).
    eauto.
  - rewrite Hm2. change (Zdigits2 (2 ^ 53)) with 54.
    replace (fexp 53 1024 (54 + (e + Zpos jp)) - (e + Zpos jp)) with 1
      by (unfold fexp, emin; lia).
    cbn [shr shr_record_of_loc shr_m iter_pos].
    change (shr_m (shr_1 {| shr_m := 2 ^ 53; shr_r := false; shr_s := false |}))
      with (2 ^ 52).
    change (2 ^ 52) with (Zpos (2 ^ 52)%positive).
    cbv iota.
    replace (e + Zpos jp + 1 <=? 1024 - 53) with true
      by (symmetry; apply Z.leb_le; lia).
    eauto.
Qed.

(** Below 2^1024, Python's [n / 2] on a natural number is a finite float
    that is not negative. *)
Lemma int_truediv_in_range (n : Z) :
  0 <= n < 2 ^ 1024 ->
  exists f, int_truediv n 2 = Ok f /\ nonneg_finite f.
Proof.
  intros [H0 Hn].
  destruct n as [|p|p]; try lia.
  { exists (S754_zero false). split; reflexivity. }
  destruct (Z_lt_le_dec (Zpos p) (2 ^ 53)) as [Hsmall | Hbig].
  { eexists. split; [apply (int_truediv_small p Hsmall) | exact I]. }
  pose proof (Zdigits2_spec p) as Hp.
  set (d := Zdigits2 (Zpos p)) in *.
  assert (Hd : 54 <= d <= 1024).
  { split.
    - destruct (Z_lt_le_dec d 54) as [Hlt|]; [|assumption].
      assert (2 ^ d <= 2 ^ 53) by (apply Z.pow_le_mono_r; lia). lia.
    - destruct (Z_lt_le_dec 1024 d) as [Hgt|]; [|assumption].
      assert (2 ^ 1024 <= 2 ^ (d - 1)) by (apply Z.pow_le_mono_r; lia). lia. }
  unfold int_truediv, prec, emax.
  change (Z.abs (Zpos p)) with (Zpos p). change (Z.abs 2) with 2.
  change (xorb (Zpos p <? 0) (2 <? 0)) with false.
  destruct (Z.eq_dec d 54) as [E54 | N54].
  - rewrite div_core_54 by exact E54.
    destruct (round_in_range p (-1) loc_Exact) as [m [e' ->]];
      fold d; try lia.
    eexists. split; [reflexivity | exact I].
  - rewrite div_core_big by (fold d; lia).
    assert (Hq : 2 ^ (d - 2) <= Zpos p / 2 < 2 ^ (d - 1)).
    { assert (Hs : 2 ^ (d - 1) = 2 ^ (d - 2) * 2).
      { replace (d - 1) with ((d - 2) + 1) by lia.
        rewrite Z.pow_add_r by lia. reflexivity. }
      assert (Hs' : 2 ^ d = 2 ^ (d - 1) * 2).
      { replace d with ((d - 1) + 1) at 1 by lia.
        rewrite Z.pow_add_r by lia. reflexivity. }
      split.
      - apply Z.div_le_lower_bound; lia.
      - apply Z.div_lt_upper_bound; lia. }
    assert (0 < 2 ^ (d - 2)) by (apply Z.pow_pos_nonneg; lia).
    destruct (Zpos p / 2) as [|q|q] eqn:Eq; try lia.
    assert (Hdq : Zdigits2 (Zpos q) = d - 1).
    { apply Zdigits2_unique; [lia|].
      replace (d - 1 - 1) with (d - 2) by lia. exact Hq. }
    destruct (round_in_range q 0 (new_location 2 (Zpos p mod 2)))
      as [m [e' ->]]; rewrite ?Hdq; try lia.
    eexists. split; [reflexivity | exact I].
Qed.

Lemma digits_value_bound (run : pystr) :
  forall acc z,
    digits_value acc run = Some z -> 0 <= acc ->
    z < (acc + 1) * 10 ^ Z.of_nat (List.length run).
Proof.
  induction run as [|c run IH]; intros acc z H Hacc.
  - cbn in H. injection H as <-. cbn. lia.
  - cbn [digits_value] in H.
    destruct (decimal_value c) as [dv|] eqn:Ed; [|discriminate].
    apply decimal_in_range in Ed.
    apply IH in H; [|lia].
    cbn [List.length]. rewrite Nat2Z.inj_succ, Z.pow_succ_r by lia.
    assert (0 < 10 ^ Z.of_nat (List.length run))
      by (apply Z.pow_pos_nonneg; lia).
    nia.
Qed.

End QuotientsInRange.

Lemma short_run_value (lim : nat) (run : pystr) :
  run <> [] -> Forall digit run -> (List.length run <= 307)%nat ->
  exists a, py_int lim run = Ok a /\ (0 <= a < 10 ^ 307)%Z.
Proof.
  intros Hne Hd Hlen.
  destruct (py_int_run lim run Hne Hd) as [a [Ha [H0 Hint]]].
  { left. lia. }
  exists a. split; [exact Hint|]. split; [exact H0|].
  pose proof (digits_value_bound run 0 a Ha (Z.le_refl 0)) as Hb.
  assert (10 ^ Z.of_nat (List.length run) <= 10 ^ 307)%Z
    by (apply Z.pow_le_mono_r; lia).
  lia.
Qed.

Lemma parse_salary_short_runs (lim : nat) (s : pystr) (runs : list pystr) :
  digit_runs (remove_char COMMA s) runs ->
  Forall (fun run => List.length run <= 307) runs ->
  exists v, parse_salary lim s = Ok v /\ salary_value v.
Proof.
  intros Hruns Hshort.
  unfold parse_salary.
  destruct (contains NEGOTIABLE s); [exists JNull; split; [reflexivity | left; reflexivity]|].
  destruct (contains HOURLY s || contains DAILY s);
    [exists JNull; split; [reflexivity | left; reflexivity]|].
  rewrite (digit_runs_unique _ _ Hruns).
  destruct runs as [|r1 [|r2 [|r3 rs]]];
    try (exists JNull; split; [reflexivity | left; reflexivity]).
  - destruct (digit_runs_inv _ _ _ Hruns) as [Hne Hd].
    inversion Hshort as [|x xs Hl _]; subst.
    destruct (short_run_value lim r1 Hne Hd Hl) as [a [-> [Ha _]]].
    exists (JInt a). split; [reflexivity|]. right. left. eauto.
  - destruct (digit_runs_inv _ _ _ Hruns) as [Hne1 Hd1].
    destruct (digit_runs_tail _ _ _ Hruns) as [rest Hrest].
    destruct (digit_runs_inv _ _ _ Hrest) as [Hne2 Hd2].
    inversion Hshort as [|x xs Hl1 Hshort']; subst.
    inversion Hshort' as [|y ys Hl2 _]; subst.
    destruct (short_run_value lim r1 Hne1 Hd1 Hl1) as [a [-> [Ha Ha']]].
    destruct (short_run_value lim r2 Hne2 Hd2 Hl2) as [b [-> [Hb Hb']]].
    cbn [rbind].
    destruct (int_truediv_in_range (a + b)) as [f [-> Hf]].
    { assert (2 * 10 ^ 307 < 2 ^ 1024)%Z by (vm_compute; reflexivity). lia. }
    exists (JFloat f). split; [reflexivity|]. right. right. eauto.
Qed.

(** X9: on a text whose maximal digit runs (commas removed) have at most
    307 digits each, whatever else it holds, the parser raises nothing:
    it returns [None], an [int] that is not negative, or a finite float
    that is not negative.  A minus sign before a run never makes the
    result negative. *)
Theorem parse_salary_returns (lim : nat) (s : pystr) (runs : list pystr) :
  digit_runs (remove_char COMMA s) runs ->
  Forall (fun run => List.length run <= 307) runs ->
  exists v, parse_salary lim s = Ok v /\ salary_value v.
Proof. exact (parse_salary_short_runs lim s runs). Qed.

Lemma parse_salary_returns_witness :
  exists v, parse_salary 4300 SALARY_DASHED = Ok v /\ salary_value v.
Proof.
  apply (parse_salary_returns 4300 SALARY_DASHED
           (findall_digits (remove_char COMMA SALARY_DASHED))).
  - apply findall_digits_runs.
  - vm_compute. repeat constructor.
Defined.

(* ================================================================== *)
(** * The tokens of a skills text *)

Lemma split_from_nonempty (sep : char) (s cur : pystr) :
  split_from sep cur s <> [].
Proof.
  revert cur. induction s as [|c s IH]; intros cur; cbn [split_from].
  - discriminate.
  - destruct (char_eqb c sep); [discriminate | apply IH].
Qed.

Lemma join_cons (sep x : pystr) (rest : list pystr) :
  rest <> [] -> join sep (x :: rest) = x ++ sep ++ join sep rest.
Proof. destruct rest; [congruence | reflexivity]. Qed.

Lemma split_from_rejoin (s : pystr) :
  forall cur,
    ~ In COMMA cur ->
    Forall (fun tok => ~ In COMMA tok) (split_from COMMA cur s)
    /\ join [COMMA] (split_from COMMA cur s) = cur ++ s
    /\ List.length (split_from COMMA cur s)
       = S (count_occ N.eq_dec s COMMA).
Proof.
  induction s as [|c s IH]; intros cur Hcur; cbn [split_from].
  - rewrite app_nil_r. repeat split. repeat constructor. exact Hcur.
  - unfold char_eqb. destruct (N.eqb_spec c COMMA) as [->|Hne].
    + destruct (IH [] (fun H => H)) as [Hf [Hj Hl]].
      split; [constructor; assumption|]. split.
      * rewrite join_cons by apply split_from_nonempty.
        rewrite Hj. reflexivity.
      * cbn [List.length count_occ].
        destruct (N.eq_dec COMMA COMMA); [|congruence]. rewrite Hl. reflexivity.
    + destruct (IH (cur ++ [c])) as [Hf [Hj Hl]].
      { intros Hin. apply in_app_or in Hin. destruct Hin as [Hin | [Hin | []]];
          [auto | congruence]. }
      split; [exact Hf|]. split.
      * rewrite Hj, <- app_assoc. reflexivity.
      * cbn [count_occ]. destruct (N.eq_dec c COMMA); [congruence | exact Hl].
Qed.

(** X10: the tokens of a row never hold a comma; for a skills text that
    is neither empty nor "不拘" they are one more than its commas (empty
    tokens are kept) and joining them with commas gives the text back; an
    empty text and "不拘" give no token. *)
Theorem skill_tokens_rejoin (skills : pystr) :
  Forall (fun tok => ~ In COMMA tok) (skill_tokens skills)
  /\ (skills <> [] -> skills <> NO_REQUIREMENT ->
      join [COMMA] (skill_tokens skills) = skills
      /\ List.length (skill_tokens skills)
         = S (count_occ N.eq_dec skills COMMA))
  /\ (skills = [] \/ skills = NO_REQUIREMENT -> skill_tokens skills = []).
Proof.
  destruct (split_from_rejoin skills [] (fun H => H)) as [Hf [Hj Hl]].
  unfold skill_tokens, split.
  destruct skills as [|c s].
  - cbn. repeat split; auto; congruence.
  - cbn [Py.truthy andb].
    destruct (PyStr.eqb (c :: s) NO_REQUIREMENT) eqn:Eq; cbn [negb].
    + apply pystr_eqb_eq in Eq. repeat split; auto; congruence.
    + assert (Hne : c :: s <> NO_REQUIREMENT).
      { intros H. apply pystr_eqb_eq in H. congruence. }
      split; [exact Hf|]. split; [auto|].
      intros [H | H]; congruence.
Qed.

(* ================================================================== *)
(** * From the listings to the derived columns *)

Lemma parse_salary_value_str (lim : nat) (s : pystr) :
  parse_salary_value lim (JStr s) = parse_salary lim s.
Proof. reflexivity. Qed.

Lemma parse_salary_value_null (lim : nat) :
  parse_salary_value lim JNull = Raise TypeError.
Proof. reflexivity. Qed.

Section DerivedColumns.

Variable repr_other : json -> pystr.

Lemma built_column (k col : pystr) (records df : list json) :
  built repr_other records df ->
  (forall job info, job_info repr_other job = Ok info ->
     exists f, job = JObj f /\ Py.getitem info col = Ok (field f k)) ->
  exists values,
    column col df = Ok values
    /\ Forall2 (fun record v =>
                  exists f, record = JObj f /\ v = field f k) records values.
Proof.
  intros Hb Hcol. unfold column.
  induction Hb as [|r l records df Hr _ [values [IH1 IH2]]].
  - exists []. split; [reflexivity | constructor].
  - destruct (Hcol r l Hr) as [f [-> Hv]].
    exists (field f k :: values). cbn [rmap]. rewrite Hv. cbn [rbind].
    rewrite IH1. split; [reflexivity|]. constructor; eauto.
Qed.

Lemma region_column (records df : list json) :
  built repr_other records df ->
  exists values,
    column COL_REGION df = Ok values
    /\ Forall2 (fun record v =>
                  exists f, record = JObj f /\ v = field f K_ADDR)
         records values.
Proof.
  intros Hb. apply (built_column K_ADDR COL_REGION records df Hb).
  intros job info H.
  destruct (job_info_inv repr_other job info H)
    as [f [skills [preview [url [-> [_ [_ [_ ->]]]]]]]].
  exists f. split; reflexivity.
Qed.

Lemma salary_column (records df : list json) :
  built repr_other records df ->
  exists values,
    column COL_SALARY df = Ok values
    /\ Forall2 (fun record v =>
                  exists f, record = JObj f /\ v = field f K_SALARY)
         records values.
Proof.
  intros Hb. apply (built_column K_SALARY COL_SALARY records df Hb).
  intros job info H.
  destruct (job_info_inv repr_other job info H)
    as [f [skills [preview [url [-> [_ [_ [_ ->]]]]]]]].
  exists f. split; reflexivity.
Qed.

Lemma county_raises (x : json) (e : exn) :
  county x = Raise e -> e = TypeError.
Proof. destruct x; cbn; congruence. Qed.

Lemma apply_raises_one (f : json -> result json) (series : list json) (e : exn) :
  (forall x e', f x = Raise e' -> e' = e) ->
  Exists (fun x => f x = Raise e) series ->
  apply f series = Raise e.
Proof.
  intros Hone Hex. unfold apply.
  induction Hex as [x series Hx | x series _ IH]; cbn [rmap].
  - rewrite Hx. reflexivity.
  - destruct (f x) as [y|e'] eqn:Ex.
    + cbn [rbind]. rewrite IH. reflexivity.
    + rewrite (Hone x e' Ex). reflexivity.
Qed.

Lemma apply_raises_some (f : json -> result json) (series : list json) :
  Exists (fun x => exists e, f x = Raise e) series ->
  exists e, apply f series = Raise e.
Proof.
  intros Hex. unfold apply.
  induction Hex as [x series [e Hx] | x series _ [e IH]]; cbn [rmap].
  - rewrite Hx. exists e. reflexivity.
  - destruct (f x) as [y|e'] eqn:Ex.
    + cbn [rbind]. rewrite IH. exists e. reflexivity.
    + exists e'. reflexivity.
Qed.

Lemma Forall2_Exists_l {A B} (P : A -> Prop) (Q : B -> Prop)
    (R : A -> B -> Prop) (l : list A) (l' : list B) :
  (forall a b, R a b -> P a -> Q b) ->
  Forall2 R l l' -> Exists P l -> Exists Q l'.
Proof.
  intros H HF. induction HF as [|a b l l' Hab _ IH]; intros Hex;
    inversion Hex; subst.
  - left. eauto.
  - right. auto.
Qed.

(** X11: when the listings were built from records of which one has
    nothing (or null) under [jobAddrNoDesc] or under [salaryDesc], the
    derivation of the two columns raises.  Nothing in the script catches
    the exception, whatever the number of listings fetched. *)
Theorem analyse_raises_on_missing_field
    (lim : nat) (records df : list json) :
  built repr_other records df ->
  Exists (fun r => lacks K_ADDR r \/ lacks K_SALARY r) records ->
  exists e, analyse lim df = Raise e.
Proof.
  intros Hb Hex.
  destruct (region_column records df Hb) as [regions [Hrc Hregions]].
  destruct (salary_column records df Hb) as [salaries [Hsc Hsalaries]].
  assert (Hdf : df <> []).
  { intros Hnil. subst df. inversion Hb; subst. inversion Hex. }
  destruct df as [|row df]; [congruence|].
  unfold analyse, derive_columns. rewrite Hrc. cbn [rbind].
  destruct (apply county regions) as [counties|e] eqn:Hcounties;
    [|exists e; reflexivity].
  cbn [rbind]. rewrite Hsc. cbn [rbind].
  destruct (apply_raises_some (parse_salary_value lim) salaries) as [e He].
  2:{ rewrite He. exists e. reflexivity. }
  assert (Hno : ~ Exists (fun x => county x = Raise TypeError) regions).
  { intros H.
    rewrite (apply_raises_one county regions TypeError) in Hcounties;
      [discriminate | | exact H].
    intros x e'. apply county_raises. }
  assert (Hsal : Exists (lacks K_SALARY) records).
  { apply Exists_exists in Hex. destruct Hex as [r [Hin [Haddr|Hsal]]].
    - exfalso. apply Hno.
      refine (Forall2_Exists_l (lacks K_ADDR)
                (fun x => county x = Raise TypeError) _ records regions
                _ Hregions _).
      + intros r' v [f [-> ->]] [f' [Hf [Hl | Hl]]];
          injection Hf as <-; unfold field; rewrite Hl; reflexivity.
      + apply Exists_exists. exists r. auto.
    - apply Exists_exists. exists r. auto. }
  refine (Forall2_Exists_l (lacks K_SALARY)
            (fun x => exists e, parse_salary_value lim x = Raise e)
            _ records salaries _ Hsalaries Hsal).
  intros r v [f [-> ->]] [f' [Hf [Hl | Hl]]];
    injection Hf as <-; unfold field; rewrite Hl;
    exists TypeError; reflexivity.
Qed.

Lemma apply_all {P : json -> json -> Prop} (f : json -> result json)
    (records series : list json) (Q : json -> json -> Prop) :
  Forall2 Q records series ->
  (forall r x, Q r x -> exists y, f x = Ok y /\ P r y) ->
  exists out, apply f series = Ok out /\ Forall2 P records out.
Proof.
  intros HF Hf. unfold apply.
  induction HF as [|r x records series Hrx _ [out [IH1 IH2]]].
  - exists []. split; [reflexivity | constructor].
  - destruct (Hf r x Hrx) as [y [Hy Hp]].
    exists (y :: out). cbn [rmap]. rewrite Hy. cbn [rbind]. rewrite IH1.
    split; [reflexivity | constructor; assumption].
Qed.

(** X12: when the listings were built from records that all have a
    region text and a salary text whose digit runs have at most 307
    digits, the derivation raises nothing.  With no record there is no
    listing and the page takes the warning branch, deriving nothing; with
    at least one there is one county per listing, the first three
    characters of its region, and one estimate per listing, [None] or a
    number that is not negative.  The warning branch is taken in that
    case only. *)
Theorem analyse_derives
    (lim : nat) (records df : list json) :
  built repr_other records df ->
  Forall (has_text K_ADDR) records ->
  Forall has_plain_salary records ->
  (records = [] -> analyse lim df = Ok NoData)
  /\ (records <> [] ->
      exists counties estimates,
        analyse lim df = Ok (Derived counties estimates)
        /\ Forall2 county_of records counties
        /\ Forall2 (fun _ v => salary_value v) records estimates)
  /\ (analyse lim df = Ok NoData <-> records = []).
Proof.
  intros Hb Haddr Hsal.
  assert (Hempty : records = [] -> analyse lim df = Ok NoData).
  { intros ->. inversion Hb; subst. reflexivity. }
  assert (Hsome : records <> [] ->
            exists counties estimates,
              analyse lim df = Ok (Derived counties estimates)
              /\ Forall2 county_of records counties
              /\ Forall2 (fun _ v => salary_value v) records estimates).
  2:{ split; [exact Hempty|]. split; [exact Hsome|].
      split; [|exact Hempty].
      intros Hno. destruct records as [|r records]; [reflexivity|].
      destruct Hsome as [c [e [He _]]]; [discriminate|]. congruence. }
  intros Hne.
  destruct (region_column records df Hb) as [regions [Hrc Hregions]].
  destruct (salary_column records df Hb) as [salaries [Hsc Hsalaries]].
  assert (Hdf : df <> []).
  { intros Hnil. subst df. inversion Hb; subst. congruence. }
  assert (Hq1 : Forall2 (fun r x => has_text K_ADDR r
                                   /\ exists f, r = JObj f /\ x = field f K_ADDR)
                  records regions).
  { clear - Hregions Haddr. induction Hregions; constructor;
      inversion Haddr; subst; auto. }
  assert (Hq2 : Forall2 (fun r x => has_plain_salary r
                                   /\ exists f, r = JObj f /\ x = field f K_SALARY)
                  records salaries).
  { clear - Hsalaries Hsal. induction Hsalaries; constructor;
      inversion Hsal; subst; auto. }
  destruct (@apply_all county_of county records regions _ Hq1)
    as [counties [Hc1 Hc2]].
  { intros r x [[f [text [-> Hl]]] [f' [Hf ->]]]. injection Hf as <-.
    unfold field. rewrite Hl. eexists. split; [reflexivity|].
    exists f, text. auto. }
  destruct (@apply_all (fun _ v => salary_value v)
              (parse_salary_value lim) records salaries _ Hq2)
    as [estimates [He1 He2]].
  { intros r x [[f [text [runs [-> [Hl [Hruns Hshort]]]]]] [f' [Hf ->]]].
    injection Hf as <-. unfold field. rewrite Hl.
    apply (parse_salary_short_runs lim text runs Hruns Hshort). }
  exists counties, estimates.
  destruct df as [|row df]; [congruence|].
  unfold analyse, derive_columns.
  rewrite Hrc. cbn [rbind]. rewrite Hc1. cbn [rbind].
  rewrite Hsc. cbn [rbind]. rewrite He1. cbn [rbind fst snd].
  auto.
Qed.

End DerivedColumns.

Lemma analyse_raises_on_missing_field_witness :
  exists e,
    analyse 4300 (listings_of [record_complete; record_without_region])
    = Raise e.
Proof.
  apply (analyse_raises_on_missing_field no_repr 4300
           [record_complete; record_without_region]
           (listings_of [record_complete; record_without_region])).
  - repeat constructor.
  - right. left. left. exists [(K_JOBNAME, JStr NAME_B);
                               (K_SALARY, JStr SALARY_FLOOR)].
    split; [reflexivity | left; reflexivity].
Defined.

Lemma analyse_derives_witness :
  exists counties estimates,
    analyse 4300 (listings_of [record_complete])
    = Ok (Derived counties estimates)
    /\ Forall2 county_of [record_complete] counties
    /\ Forall2 (fun _ v => salary_value v) [record_complete] estimates.
Proof.
  refine (proj1 (proj2 (analyse_derives no_repr 4300 [record_complete]
                          (listings_of [record_complete]) _ _ _)) _).
  - repeat constructor.
  - repeat constructor. eexists. exists REGION_XINYI.
    split; reflexivity.
  - repeat constructor. eexists. exists SALARY_RANGE.
    exists (findall_digits (remove_char COMMA SALARY_RANGE)).
    split; [reflexivity|]. split; [reflexivity|].
    split; [apply findall_digits_runs | vm_compute; repeat constructor].
  - discriminate.
Defined.

(* ================================================================== *)
(** * The most common skills *)

Lemma count_up_keys (x : pystr) (c : list (pystr * nat)) :
  map fst (count_up x c)
  = if in_dec pystr_eq_dec x (map fst c)
    then map fst c else map fst c ++ [x].
Proof.
  induction c as [|[k n] c IH]; [reflexivity|].
  cbn [count_up map fst].
  destruct (PyStr.eqb k x) eqn:E.
  - apply pystr_eqb_eq in E. subst k.
    destruct (in_dec pystr_eq_dec x (x :: map fst c)) as [_|Hn]; [reflexivity|].
    exfalso. apply Hn. left. reflexivity.
  - assert (Hkx : k <> x).
    { intros ->. rewrite (proj2 (pystr_eqb_eq x x) eq_refl) in E.
      discriminate. }
    cbn [map fst]. rewrite IH.
    destruct (in_dec pystr_eq_dec x (map fst c)) as [Hi|Hn];
      destruct (in_dec pystr_eq_dec x (k :: map fst c)) as [Hi'|Hn']; try reflexivity.
    + exfalso. apply Hn'. right. exact Hi.
    + exfalso. destruct Hi' as [Hk|Hi']; [exact (Hkx Hk) | exact (Hn Hi')].
Qed.

Lemma count_up_count (x t : pystr) (c : list (pystr * nat)) :
  NoDup (map fst c) ->
  count_of t (count_up x c)
  = count_of t c + (if pystr_eq_dec x t then 1 else 0).
Proof.
  induction c as [|[k n] c IH]; intros Hnd.
  - cbn [count_up count_of]. destruct (pystr_eq_dec x t); lia.
  - inversion Hnd as [|? ? Hk Hnd']; subst.
    cbn [count_up]. destruct (PyStr.eqb k x) eqn:E.
    + apply pystr_eqb_eq in E. subst k. cbn [count_of].
      destruct (pystr_eq_dec x t); lia.
    + cbn [count_of]. rewrite (IH Hnd'). lia.
Qed.

Lemma count_up_nodup (x : pystr) (c : list (pystr * nat)) :
  NoDup (map fst c) -> NoDup (map fst (count_up x c)).
Proof.
  intros Hnd. rewrite count_up_keys.
  destruct (in_dec pystr_eq_dec x (map fst c)) as [Hi|Hn]; [exact Hnd|].
  apply NoDup_app; [exact Hnd | repeat constructor; intros [] | ].
  intros a Ha [<-|[]]. exact (Hn Ha).
Qed.

Lemma count_up_positive (x : pystr) (c : list (pystr * nat)) :
  Forall (fun kv => 1 <= snd kv) c ->
  Forall (fun kv => 1 <= snd kv) (count_up x c).
Proof.
  induction 1 as [|[k n] c Hk Hc IH]; cbn [count_up].
  - repeat constructor.
  - destruct (PyStr.eqb k x); constructor; cbn [snd] in *;
      try assumption; lia.
Qed.

Lemma before_snoc {A} (a b x : A) (l : list A) :
  before a b (l ++ [x]) -> before a b l \/ (In a l /\ b = x).
Proof.
  intros [l1 [l2 [l3 H]]].
  destruct (exists_last (l := b :: l3)) as [l3' [z Hz]]; [discriminate|].
  rewrite Hz in H.
  replace (l1 ++ a :: l2 ++ l3' ++ [z])
    with ((l1 ++ a :: l2 ++ l3') ++ [z]) in H
    by (rewrite <- !app_assoc; cbn [app]; rewrite <- !app_assoc; reflexivity).
  apply app_inj_tail in H. destruct H as [-> <-].
  destruct l3' as [|b' l3'].
  - right. injection Hz as ->. split; [|reflexivity].
    apply in_or_app. right. left. reflexivity.
  - left. injection Hz as -> _. exists l1, l2, l3'. reflexivity.
Qed.

Lemma fold_count_up (tokens : list pystr) :
  forall c,
    NoDup (map fst c) -> Forall (fun kv => 1 <= snd kv) c ->
    NoDup (map fst (fold_left (fun counts x => count_up x counts) tokens c))
    /\ Forall (fun kv => 1 <= snd kv)
         (fold_left (fun counts x => count_up x counts) tokens c)
    /\ (forall t,
          count_of t (fold_left (fun counts x => count_up x counts) tokens c)
          = count_of t c + occurrences t tokens)
    /\ (forall a b,
          before a b
            (map fst (fold_left (fun counts x => count_up x counts) tokens c)) ->
          before a b (map fst c)
          \/ (In a (map fst c) /\ ~ In b (map fst c))
          \/ (~ In a (map fst c) /\ ~ In b (map fst c)
              /\ first_seen_before a b tokens)).
Proof.
  induction tokens as [|x tokens IH]; intros c Hnd Hpos; cbn [fold_left].
  - split; [exact Hnd|]. split; [exact Hpos|]. split.
    + intros t. unfold occurrences. cbn [count_occ]. lia.
    + intros a b Hab. left. exact Hab.
  - destruct (IH (count_up x c) (count_up_nodup x c Hnd)
                (count_up_positive x c Hpos)) as [H1 [H2 [H3 H4]]].
    split; [exact H1|]. split; [exact H2|]. split.
    + intros t. rewrite H3, (count_up_count x t c Hnd).
      unfold occurrences. cbn [count_occ].
      destruct (pystr_eq_dec x t); lia.
    + intros a b Hab. specialize (H4 a b Hab).
      rewrite count_up_keys in H4.
      destruct (in_dec pystr_eq_dec x (map fst c)) as [Hx|Hx].
      * destruct H4 as [H4 | [H4 | [Ha [Hb [l1 [l2 [Heq Hl1]]]]]]]; auto.
        right. right. split; [exact Ha|]. split; [exact Hb|].
        exists (x :: l1), l2. split; [rewrite Heq; reflexivity|].
        intros [Hxb|H]; [|exact (Hl1 H)].
        apply Hb. rewrite <- Hxb. exact Hx.
      * destruct H4 as [H4 | [[Ha Hb] | [Ha [Hb Hfs]]]].
        -- destruct (before_snoc a b x (map fst c) H4) as [H|[Ha Hbx]].
           ++ left. exact H.
           ++ right. left. split; [exact Ha|]. rewrite Hbx. exact Hx.
        -- assert (Hb' : ~ In b (map fst c)).
           { intros H. apply Hb. apply in_or_app. left. exact H. }
           apply in_app_or in Ha. destruct Ha as [Ha|[Hxa|[]]].
           ++ right. left. split; assumption.
           ++ right. right. rewrite <- Hxa. split; [exact Hx|].
              split; [exact Hb'|].
              exists [], tokens. split; [reflexivity | intros []].
        -- right. right.
           assert (Ha' : ~ In a (map fst c)).
           { intros H. apply Ha. apply in_or_app. left. exact H. }
           assert (Hb' : ~ In b (map fst c)).
           { intros H. apply Hb. apply in_or_app. left. exact H. }
           split; [exact Ha'|]. split; [exact Hb'|].
           destruct Hfs as [l1 [l2 [Heq Hl1]]].
           exists (x :: l1), l2. split; [rewrite Heq; reflexivity|].
           intros [Hxb|H]; [|exact (Hl1 H)].
           apply Hb. apply in_or_app. right. left. exact Hxb.
Qed.

Lemma count_of_absent (t : pystr) (c : list (pystr * nat)) :
  ~ In t (map fst c) -> count_of t c = 0.
Proof.
  induction c as [|[k m] c IH]; intros Hn; [reflexivity|].
  cbn [count_of].
  destruct (pystr_eq_dec k t) as [->|_].
  - exfalso. apply Hn. left. reflexivity.
  - rewrite IH; [reflexivity|]. intros H. apply Hn. right. exact H.
Qed.

Lemma count_of_in (t : pystr) (n : nat) (c : list (pystr * nat)) :
  NoDup (map fst c) -> In (t, n) c -> count_of t c = n.
Proof.
  induction c as [|[k m] c IH]; intros Hnd Hin; [destruct Hin|].
  inversion Hnd as [|? ? Hk Hnd']; subst. cbn [count_of].
  destruct Hin as [Heq|Hin].
  - injection Heq as -> ->.
    destruct (pystr_eq_dec t t) as [_|Hne]; [|congruence].
    rewrite (count_of_absent t c Hk). lia.
  - destruct (pystr_eq_dec k t) as [->|_].
    + exfalso. apply Hk. apply (in_map fst) in Hin. exact Hin.
    + apply (IH Hnd' Hin).
Qed.

(** The counter: one entry per token, in the order of the first
    occurrences, with the number of occurrences. *)
Lemma Counter_spec (tokens : list pystr) :
  NoDup (map fst (Counter tokens))
  /\ (forall t n, In (t, n) (Counter tokens) ->
        n = occurrences t tokens /\ 1 <= n)
  /\ (forall t, In t tokens -> In t (map fst (Counter tokens)))
  /\ (forall a b, before a b (map fst (Counter tokens)) ->
        first_seen_before a b tokens).
Proof.
  unfold Counter.
  destruct (fold_count_up tokens [] (NoDup_nil _) (Forall_nil _))
    as [H1 [H2 [H3 H4]]].
  split; [exact H1|]. split; [|split].
  - intros t n H. split.
    + rewrite <- (count_of_in t n _ H1 H), H3. reflexivity.
    + rewrite Forall_forall in H2. apply (H2 (t, n) H).
  - intros t Ht.
    destruct (in_dec pystr_eq_dec t
                (map fst (fold_left (fun counts x => count_up x counts)
                            tokens []))) as [Hi|Hn]; [exact Hi|].
    exfalso. pose proof (count_of_absent t _ Hn) as H0.
    rewrite H3 in H0. cbn [count_of] in H0.
    assert (0 < occurrences t tokens)
      by (apply (count_occ_In pystr_eq_dec); exact Ht).
    lia.
  - intros a b Hab. destruct (H4 a b Hab) as [[l1 [l2 [l3 H]]] | [[[] _] | H]].
    + destruct l1; discriminate.
    + apply H.
Qed.

Lemma before_cons_inv {A} (a b y : A) (t : list A) :
  before a b (y :: t) -> (a = y /\ In b t) \/ before a b t.
Proof.
  intros [[|z l1] [l2 [l3 H]]]; cbn [app] in H; injection H as -> ->.
  - left. split; [reflexivity|]. apply in_or_app. right. left. reflexivity.
  - right. exists l1, l2, l3. reflexivity.
Qed.

Lemma before_cons {A} (a b y : A) (t : list A) :
  before a b t -> before a b (y :: t).
Proof. intros [l1 [l2 [l3 ->]]]. exists (y :: l1), l2, l3. reflexivity. Qed.

Lemma before_head {A} (b y : A) (t : list A) :
  In b t -> before y b (y :: t).
Proof.
  intros H. destruct (in_split b t H) as [l2 [l3 ->]].
  exists [], l2, l3. reflexivity.
Qed.

Lemma before_in {A} (a b : A) (l : list A) :
  before a b l -> In a l /\ In b l.
Proof.
  intros [l1 [l2 [l3 ->]]]. split.
  - apply in_or_app. right. left. reflexivity.
  - apply in_or_app. right. right. apply in_or_app. right. left. reflexivity.
Qed.

Lemma before_app_l {A} (a b : A) (l rest : list A) :
  before a b l -> before a b (l ++ rest).
Proof.
  intros [l1 [l2 [l3 ->]]]. exists l1, l2, (l3 ++ rest).
  rewrite <- !app_assoc. cbn [app]. rewrite <- !app_assoc. reflexivity.
Qed.

Lemma before_map {A B} (f : A -> B) (a b : A) (l : list A) :
  before a b l -> before (f a) (f b) (map f l).
Proof.
  intros [l1 [l2 [l3 ->]]]. exists (map f l1), (map f l2), (map f l3).
  rewrite !map_app. cbn [map]. rewrite !map_app. reflexivity.
Qed.

Lemma insert_by_count_in (x y : pystr * nat) (s : list (pystr * nat)) :
  In y (insert_by_count x s) <-> y = x \/ In y s.
Proof.
  induction s as [|z s IH]; cbn [insert_by_count].
  - cbn. intuition auto.
  - destruct (snd z <=? snd x).
    + cbn [In]. intuition auto.
    + cbn [In]. rewrite IH. intuition auto.
Qed.

Lemma sort_by_count_in (y : pystr * nat) (c : list (pystr * nat)) :
  In y (sort_by_count c) <-> In y c.
Proof.
  induction c as [|x c IH]; [reflexivity|].
  cbn [sort_by_count fold_right]. fold (sort_by_count c).
  rewrite insert_by_count_in, IH. cbn [In]. intuition auto.
Qed.

Lemma insert_by_count_nodup (x : pystr * nat) (s : list (pystr * nat)) :
  NoDup (map fst (x :: s)) -> NoDup (map fst (insert_by_count x s)).
Proof.
  induction s as [|z s IH]; intros Hnd; [exact Hnd|].
  cbn [insert_by_count]. destruct (snd z <=? snd x); [exact Hnd|].
  cbn [map] in *.
  inversion Hnd as [|? ? Hx Hzs]; subst.
  inversion Hzs as [|? ? Hz Hs]; subst.
  constructor.
  - intros Hin. apply in_map_iff in Hin. destruct Hin as [y [Hy Hin]].
    apply (proj1 (insert_by_count_in x y s)) in Hin.
    destruct Hin as [->|Hin].
    + apply Hx. left. symmetry. exact Hy.
    + apply Hz. rewrite <- Hy. apply in_map. exact Hin.
  - apply IH. constructor; [|exact Hs].
    intros H. apply Hx. right. exact H.
Qed.

Lemma sort_by_count_nodup (c : list (pystr * nat)) :
  NoDup (map fst c) -> NoDup (map fst (sort_by_count c)).
Proof.
  induction c as [|x c IH]; intros Hnd; [exact Hnd|].
  cbn [sort_by_count fold_right]. fold (sort_by_count c).
  apply insert_by_count_nodup. cbn [map] in *.
  inversion Hnd as [|? ? Hx Hc]; subst. constructor; [|exact (IH Hc)].
  intros Hin. apply Hx. apply in_map_iff in Hin.
  destruct Hin as [y [Hy Hin]].
  apply (proj1 (sort_by_count_in y c)) in Hin.
  rewrite <- Hy. apply in_map. exact Hin.
Qed.

Lemma insert_by_count_before (a b x : pystr * nat) (s : list (pystr * nat)) :
  before a b (insert_by_count x s) ->
  before a b s \/ (a = x /\ In b s) \/ (b = x /\ In a s /\ snd x < snd a).
Proof.
  induction s as [|y t IH]; cbn [insert_by_count]; intros H.
  - apply before_cons_inv in H. destruct H as [[_ []] | [l1 [l2 [l3 H]]]].
    destruct l1; discriminate.
  - destruct (snd y <=? snd x) eqn:E.
    + apply before_cons_inv in H. destruct H as [[-> Hb] | H]; auto.
    + apply Nat.leb_gt in E.
      apply before_cons_inv in H. destruct H as [[-> Hb] | H].
      * apply (proj1 (insert_by_count_in x b t)) in Hb.
        destruct Hb as [->|Hb].
        -- right. right. split; [reflexivity|]. split; [left; reflexivity|].
           exact E.
        -- left. apply before_head. exact Hb.
      * destruct (IH H) as [H' | [[-> Hb] | [-> [Ha Hlt]]]].
        -- left. apply before_cons. exact H'.
        -- right. left. split; [reflexivity | right; exact Hb].
        -- right. right. split; [reflexivity|]. split; [right; exact Ha|].
           exact Hlt.
Qed.

(** The sort is stable: entries of one count keep their order. *)
Lemma sort_by_count_stable (a b : pystr * nat) (c : list (pystr * nat)) :
  before a b (sort_by_count c) -> snd a = snd b -> before a b c.
Proof.
  induction c as [|x c IH]; intros H Heq; [exact H|].
  cbn [sort_by_count fold_right] in H. fold (sort_by_count c) in H.
  destruct (insert_by_count_before a b x _ H)
    as [H' | [[-> Hb] | [-> [Ha Hlt]]]].
  - apply before_cons. apply IH; assumption.
  - apply before_head. apply (proj1 (sort_by_count_in b c)). exact Hb.
  - lia.
Qed.

Lemma insert_by_count_descends (x : pystr * nat) (s : list (pystr * nat)) :
  (forall a b, before a b s -> snd b <= snd a) ->
  forall a b, before a b (insert_by_count x s) -> snd b <= snd a.
Proof.
  induction s as [|y t IH]; cbn [insert_by_count]; intros Hs a b H.
  - apply before_cons_inv in H. destruct H as [[_ []] | [l1 [l2 [l3 H]]]].
    destruct l1; discriminate.
  - destruct (snd y <=? snd x) eqn:E.
    + apply Nat.leb_le in E.
      apply before_cons_inv in H. destruct H as [[-> [<-|Hb]] | H].
      * exact E.
      * specialize (Hs y b (before_head b y t Hb)). lia.
      * apply Hs. exact H.
    + apply Nat.leb_gt in E.
      apply before_cons_inv in H. destruct H as [[-> Hb] | H].
      * apply (proj1 (insert_by_count_in x b t)) in Hb.
        destruct Hb as [->|Hb]; [lia|].
        apply Hs. apply before_head. exact Hb.
      * apply (IH (fun a b H => Hs a b (before_cons a b y t H)) a b H).
Qed.

Lemma sort_by_count_descends (c : list (pystr * nat)) :
  forall a b, before a b (sort_by_count c) -> snd b <= snd a.
Proof.
  induction c as [|x c IH]; intros a b H.
  - destruct H as [l1 [l2 [l3 H]]]. destruct l1; discriminate.
  - cbn [sort_by_count fold_right] in H. fold (sort_by_count c) in H.
    apply (insert_by_count_descends x (sort_by_count c) IH a b H).
Qed.

Lemma firstn_full_or_all {A} (n : nat) (l : list A) :
  skipn n l <> [] -> List.length (firstn n l) = n.
Proof.
  intros H. rewrite length_firstn.
  destruct (Nat.le_gt_cases (List.length l) n) as [Hle|Hgt]; [|lia].
  exfalso. apply H. apply skipn_all2. exact Hle.
Qed.

Lemma in_firstn {A} (x : A) (n : nat) (l : list A) :
  In x (firstn n l) -> In x l.
Proof.
  intros H. rewrite <- (firstn_skipn n l). apply in_or_app. left. exact H.
Qed.

Lemma before_firstn {A} (a b : A) (n : nat) (l : list A) :
  before a b (firstn n l) -> before a b l.
Proof.
  intros H. rewrite <- (firstn_skipn n l). apply before_app_l. exact H.
Qed.

Lemma before_across {A} (a b : A) (l1 l2 : list A) :
  In a l1 -> In b l2 -> before a b (l1 ++ l2).
Proof.
  intros Ha Hb.
  destruct (in_split _ _ Ha) as [p [q ->]].
  destruct (in_split _ _ Hb) as [r [t ->]].
  exists p, (q ++ r), t.
  rewrite <- !app_assoc. cbn [app]. rewrite <- ?app_assoc. reflexivity.
Qed.

(** The counts of the [n] most common tokens. *)
Lemma most_common_counts (n : nat) (tokens : list pystr) :
  List.length (most_common n (Counter tokens)) <= n
  /\ NoDup (map fst (most_common n (Counter tokens)))
  /\ (forall t c, In (t, c) (most_common n (Counter tokens)) ->
        c = occurrences t tokens /\ 1 <= c)
  /\ (forall t, In t tokens ->
        ~ In t (map fst (most_common n (Counter tokens))) ->
        List.length (most_common n (Counter tokens)) = n
        /\ forall u c, In (u, c) (most_common n (Counter tokens)) ->
             occurrences t tokens <= c).
Proof.
  destruct (Counter_spec tokens) as [Hnd [Hcount [Hall _]]].
  unfold most_common.
  pose proof (sort_by_count_nodup _ Hnd) as Hnd'.
  rewrite <- (firstn_skipn n (sort_by_count (Counter tokens))), map_app
    in Hnd'.
  split; [apply firstn_le_length|].
  split; [exact (NoDup_app_remove_r _ _ Hnd')|].
  split.
  - intros t c Hin. apply Hcount.
    apply (proj1 (sort_by_count_in (t, c) (Counter tokens))).
    apply (in_firstn _ n). exact Hin.
  - intros t Ht Hout.
    specialize (Hall t Ht). apply in_map_iff in Hall.
    destruct Hall as [[t' m] [Hfst Hin]]. cbn [fst] in Hfst. subst t'.
    destruct (Hcount t m Hin) as [-> _].
    apply (proj2 (sort_by_count_in _ (Counter tokens))) in Hin.
    rewrite <- (firstn_skipn n (sort_by_count (Counter tokens))) in Hin.
    apply in_app_or in Hin. destruct Hin as [Hin|Hin].
    { exfalso. apply Hout. apply (in_map fst) in Hin. exact Hin. }
    split.
    + apply firstn_full_or_all. intros Hnil. rewrite Hnil in Hin.
      destruct Hin.
    + intros u c Hu.
      apply (sort_by_count_descends (Counter tokens)
               (u, c) (t, occurrences t tokens)).
      rewrite <- (firstn_skipn n (sort_by_count (Counter tokens))).
      apply before_across; assumption.
Qed.

(** The order of the [n] most common tokens. *)
Lemma most_common_order (n : nat) (tokens : list pystr) :
  (forall a b, before a b (most_common n (Counter tokens)) ->
     snd b <= snd a)
  /\ (forall a b c, before (a, c) (b, c) (most_common n (Counter tokens)) ->
        first_seen_before a b tokens).
Proof.
  destruct (Counter_spec tokens) as [_ [_ [_ Hfirst]]].
  unfold most_common.
  split.
  - intros a b H. apply (sort_by_count_descends (Counter tokens)).
    apply (before_firstn a b n). exact H.
  - intros a b c H. apply Hfirst.
    apply (before_map fst (a, c) (b, c)).
    apply sort_by_count_stable; [|reflexivity].
    apply (before_firstn _ _ n). exact H.
Qed.

(** X13: the third tab has nothing to draw when the column yields no
    token; otherwise it draws at most 20 entries and at least one, no
    token twice, each with the number of times the token occurs among
    those of the column, and a token left out occurs no more often than
    any token drawn, 20 of them being drawn then. *)
Theorem skill_counts_exact (column : list pystr) :
  match skill_counts column with
  | NoSkills => all_skills column = []
  | SkillChart top =>
      top <> [] /\ List.length top <= 20
      /\ NoDup (map fst top)
      /\ (forall t c, In (t, c) top ->
            c = occurrences t (all_skills column) /\ 1 <= c)
      /\ (forall t, In t (all_skills column) -> ~ In t (map fst top) ->
            List.length top = 20
            /\ forall u c, In (u, c) top ->
                 occurrences t (all_skills column) <= c)
  end.
Proof.
  unfold skill_counts.
  destruct (all_skills column) as [|t0 tokens] eqn:E; [reflexivity|].
  destruct (most_common_counts 20 (t0 :: tokens)) as [H1 [H2 [H3 H4]]].
  split; [|auto].
  intros Hnil.
  destruct (in_dec pystr_eq_dec t0
              (map fst (most_common 20 (Counter (t0 :: tokens)))))
    as [Hin|Hout].
  - rewrite Hnil in Hin. destruct Hin.
  - destruct (H4 t0 (or_introl eq_refl) Hout) as [Hlen _].
    rewrite Hnil in Hlen. discriminate.
Qed.

(** X14: the entries are drawn by descending count, and of two tokens
    with the same count the one that occurs first among the tokens of the
    column comes first. *)
Theorem skill_counts_order (column : list pystr) :
  match skill_counts column with
  | NoSkills => all_skills column = []
  | SkillChart top =>
      (forall a b, before a b top -> snd b <= snd a)
      /\ (forall a b c, before (a, c) (b, c) top ->
            first_seen_before a b (all_skills column))
  end.
Proof.
  unfold skill_counts.
  destruct (all_skills column) as [|t0 tokens] eqn:E; [reflexivity|].
  apply most_common_order.
Qed.
